(** * URL scanner: lexical threat scoring (supabase/functions/url-scanner/index.ts)

    A shallow embedding of the "ML" classification unit of the URL scanner
    edge function: [extractMLFeatures], [calculateEntropy],
    [calculateMLThreatScore], [performMLClassification],
    [checkHistoricalPatterns] and [updateMLPatterns].

    Conventions of the embedding.
    - JavaScript strings are [string]s of 8-bit characters; [str.length] is
      [String.length].  Only the ASCII letters change under [toLowerCase].
    - Integer-valued JavaScript numbers (lengths, counts, the score) are [Z].
    - The remaining JavaScript numbers (entropy, probabilities, confidence)
      are idealised as real numbers [R]: IEEE rounding is not modelled, and
      [Math.log2 x] is [ln x / ln 2].
    - [new URL(href).hostname] belongs to the runtime, not to the repository.
      It is a parameter [URL_hostname : string -> option string], [None]
      standing for the [TypeError] the constructor throws.
    - The hosted store is a record of tables; every awaited request consumes
      one entry of a fault script that says whether the request succeeds,
      answers with [{ data: null, error }], or rejects (throws). *)

From Stdlib Require Import String Ascii List ZArith Reals Lra Lia Bool Permutation.
Import ListNotations.

Set Implicit Arguments.

Local Open Scope string_scope.
Local Open Scope Z_scope.
Local Open Scope list_scope.

(** ** JavaScript numbers *)

(** [x > y] on non-integer numbers. *)
Definition num_gt (x y : R) : bool := if Rgt_dec x y then true else false.

(** [Math.min] on non-integer numbers. *)
Definition Math_min (x y : R) : R := if Rle_dec x y then x else y.

(** [Math.log2]. *)
Definition Math_log2 (x : R) : R := (ln x / ln 2)%R.

(** ** JavaScript strings *)

Definition is_digit (c : ascii) : bool :=
  ((48 <=? nat_of_ascii c) && (nat_of_ascii c <=? 57))%nat.

Definition is_upper (c : ascii) : bool :=
  ((65 <=? nat_of_ascii c) && (nat_of_ascii c <=? 90))%nat.

Definition is_lower (c : ascii) : bool :=
  ((97 <=? nat_of_ascii c) && (nat_of_ascii c <=? 122))%nat.

Definition char_toLowerCase (c : ascii) : ascii :=
  if is_upper c then ascii_of_nat (nat_of_ascii c + 32) else c.

(** [s.toLowerCase()] *)
Fixpoint toLowerCase (s : string) : string :=
  match s with
  | EmptyString => EmptyString
  | String c s' => String (char_toLowerCase c) (toLowerCase s')
  end.

(** [s.startsWith(p)] *)
Fixpoint startsWith (s p : string) : bool :=
  match p, s with
  | EmptyString, _ => true
  | String _ _, EmptyString => false
  | String a p', String b s' => Ascii.eqb a b && startsWith s' p'
  end.

(** [s.includes(k)] *)
Fixpoint includes (s k : string) : bool :=
  startsWith s k ||
  match s with
  | EmptyString => false
  | String _ s' => includes s' k
  end.

(** [s.split(sep)] for a one-character separator: never empty, one more
    piece than there are separators. *)
Fixpoint split (sep : ascii) (s : string) : list string :=
  match s with
  | EmptyString => [EmptyString]
  | String c s' =>
      if Ascii.eqb c sep then EmptyString :: split sep s'
      else match split sep s' with
           | p :: ps => String c p :: ps
           | [] => [String c EmptyString]
           end
  end.

(** [(s.match(/C/g) || []).length] for a one-character class [C]: the number
    of characters of [s] in the class. *)
Fixpoint count_matches (cls : ascii -> bool) (s : string) : Z :=
  match s with
  | EmptyString => 0
  | String c s' => (if cls c then 1 else 0) + count_matches cls s'
  end.

(** The classes of the four counting expressions. *)
Definition cls_dot (c : ascii) : bool := Ascii.eqb c ".".
Definition cls_hyphen (c : ascii) : bool := Ascii.eqb c "-".
Definition cls_special (c : ascii) : bool :=
  negb (is_lower c || is_upper c || is_digit c || Ascii.eqb c "." || Ascii.eqb c "-").

(** ** Regular expressions

    The fragment the scanner's pattern needs: classes, sequence, choice. *)

Inductive regex : Type :=
| Void : regex
| Eps : regex
| Class : (ascii -> bool) -> regex
| Seq : regex -> regex -> regex
| Alt : regex -> regex -> regex.

(** The words a regular expression matches entirely. *)
Inductive lang : regex -> string -> Prop :=
| lang_eps : lang Eps EmptyString
| lang_class : forall cls c, cls c = true -> lang (Class cls) (String c EmptyString)
| lang_seq : forall r1 r2 s1 s2, lang r1 s1 -> lang r2 s2 -> lang (Seq r1 r2) (s1 ++ s2)%string
| lang_alt_l : forall r1 r2 s, lang r1 s -> lang (Alt r1 r2) s
| lang_alt_r : forall r1 r2 s, lang r2 s -> lang (Alt r1 r2) s.

Fixpoint nullable (r : regex) : bool :=
  match r with
  | Void => false
  | Eps => true
  | Class _ => false
  | Seq r1 r2 => nullable r1 && nullable r2
  | Alt r1 r2 => nullable r1 || nullable r2
  end.

Fixpoint deriv (c : ascii) (r : regex) : regex :=
  match r with
  | Void => Void
  | Eps => Void
  | Class cls => if cls c then Eps else Void
  | Seq r1 r2 =>
      if nullable r1 then Alt (Seq (deriv c r1) r2) (deriv c r2)
      else Seq (deriv c r1) r2
  | Alt r1 r2 => Alt (deriv c r1) (deriv c r2)
  end.

(** Does some prefix of [s] match [r]? *)
Fixpoint match_here (r : regex) (s : string) : bool :=
  nullable r ||
  match s with
  | EmptyString => false
  | String c s' => match_here (deriv c r) s'
  end.

(** [re.test(s)] for a pattern without anchors or flags: a match may start
    at any position. *)
Fixpoint regex_test (r : regex) (s : string) : bool :=
  match_here r s ||
  match s with
  | EmptyString => false
  | String _ s' => regex_test r s'
  end.

(** [r{1,3}] *)
Definition rep_1_3 (r : regex) : regex :=
  Seq r (Alt Eps (Seq r (Alt Eps r))).

(** [/\d{1,3}\.\d{1,3}\.\d{1,3}\.\d{1,3}/] *)
Definition re_digits : regex := rep_1_3 (Class is_digit).
Definition re_dot : regex := Class cls_dot.
Definition ip_regex : regex :=
  Seq re_digits (Seq re_dot (Seq re_digits (Seq re_dot
    (Seq re_digits (Seq re_dot re_digits))))).

(** ** Features *)

Record MLFeatures : Type := {
  urlLength : Z;
  numDots : Z;
  numHyphens : Z;
  numDigits : Z;
  numSpecialChars : Z;
  hasIpAddress : bool;
  hasSuspiciousKeywords : bool;
  entropyScore : R;
  subdomainCount : Z;
  pathDepth : Z
}.

Definition suspiciousKeywords : list string :=
  ["login"; "verify"; "account"; "update"; "secure"; "banking"; "password";
   "confirm"; "suspended"; "locked"; "urgent"].

(** *** calculateEntropy *)

(** The [frequencies] object: an insertion-ordered table from one-character
    keys to counts.  (The enumeration order of [for ... in] only matters for
    rounding, which is not modelled.) *)
Definition freq_table : Type := list (ascii * Z).

Fixpoint freq_get (t : freq_table) (c : ascii) : option Z :=
  match t with
  | [] => None
  | (k, n) :: t' => if Ascii.eqb k c then Some n else freq_get t' c
  end.

Fixpoint freq_set (t : freq_table) (c : ascii) (v : Z) : freq_table :=
  match t with
  | [] => [(c, v)]
  | (k, n) :: t' => if Ascii.eqb k c then (k, v) :: t' else (k, n) :: freq_set t' c v
  end.

(** One iteration of the first loop:
    [frequencies[char] = (frequencies[char] || 0) + 1]. *)
Definition freq_bump (t : freq_table) (c : ascii) : freq_table :=
  freq_set t c ((match freq_get t c with Some n => n | None => 0 end) + 1).

Fixpoint count_loop (str : string) (frequencies : freq_table) : freq_table :=
  match str with
  | EmptyString => frequencies
  | String c str' => count_loop str' (freq_bump frequencies c)
  end.

(** One iteration of the second loop:
    [p = frequencies[char] / len; entropy -= p * Math.log2(p)]. *)
Definition entropy_step (len : Z) (entropy : R) (kv : ascii * Z) : R :=
  let p := (IZR (snd kv) / IZR len)%R in
  (entropy - p * Math_log2 p)%R.

Definition calculateEntropy (str : string) : R :=
  let len := Z.of_nat (String.length str) in
  let frequencies := count_loop str [] in
  fold_left (entropy_step len) frequencies 0%R.

(** *** calculateMLThreatScore *)

Definition calculateMLThreatScore (features : MLFeatures) : Z :=
  let score := 0 in
  let score := if urlLength features >? 75 then score + 15 else score in
  let score := if urlLength features >? 100 then score + 10 else score in
  let score := if numHyphens features >? 2 then score + 10 else score in
  let score := if numDigits features >? 8 then score + 10 else score in
  let score := if numSpecialChars features >? 5 then score + 15 else score in
  let score := if hasIpAddress features then score + 25 else score in
  let score := if hasSuspiciousKeywords features then score + 20 else score in
  let score := if num_gt (entropyScore features) 4.5 then score + 15 else score in
  let score := if subdomainCount features >? 3 then score + 15 else score in
  let score := if pathDepth features >? 5 then score + 10 else score in
  Z.min 100 score.

(** The category block at the head of [performMLClassification]: each
    [push] appends at the end of the array. *)
Definition initialCategories (features : MLFeatures) : list string :=
  let predictedCategories := [] in
  let predictedCategories :=
    if hasIpAddress features
    then predictedCategories ++ ["IP-based URL"] else predictedCategories in
  let predictedCategories :=
    if hasSuspiciousKeywords features
    then predictedCategories ++ ["Suspicious keywords"] else predictedCategories in
  let predictedCategories :=
    if urlLength features >? 100
    then predictedCategories ++ ["Abnormally long URL"] else predictedCategories in
  let predictedCategories :=
    if subdomainCount features >? 3
    then predictedCategories ++ ["Excessive subdomains"] else predictedCategories in
  let predictedCategories :=
    if num_gt (entropyScore features) 4.5
    then predictedCategories ++ ["High entropy"] else predictedCategories in
  predictedCategories.

(** ** The store *)

Inductive PatternType : Type := phishing | suspicious | legitimate | unknown.

(** A row of [ml_patterns]. *)
Record PatternRow : Type := {
  id : N;
  url_pattern : string;
  pattern_type : PatternType;
  confidence_score : R;
  detection_count : Z;
  last_detected : Z;
  features : MLFeatures
}.

(** A row of [blockchain_logs] as [updateMLPatterns] writes it
    ([log_type] is always ['pattern_learned']). *)
Record LogRow : Type := {
  log_url : string;
  log_pattern_type : PatternType;
  log_threat_probability : R;
  log_features : MLFeatures
}.

(** What happens to one awaited request. *)
Inductive Fault : Type :=
| Succeeds
| AnswersError   (* resolves to { data: null, error } *)
| Rejects.       (* the promise rejects: [await] throws *)

Record Store : Type := {
  ml_patterns : list PatternRow;
  blockchain_logs : list LogRow;
  script : list Fault;   (* fate of the coming requests; all succeed once it is used up *)
  next_id : N;           (* the next [gen_random_uuid()] *)
  clock : Z              (* [new Date()] and the column default [now()] *)
}.

(** ** Effects: state and exceptions *)

Inductive Completion (A : Type) : Type :=
| Normal : A -> Completion A
| Throw : Completion A.
Arguments Throw {A}.

Definition M (A : Type) : Type := Store -> Completion A * Store.

Definition ret {A} (a : A) : M A := fun w => (Normal a, w).

Definition throw {A} : M A := fun w => (Throw, w).

Definition bind {A B} (c : M A) (k : A -> M B) : M B :=
  fun w => match c w with
           | (Normal a, w') => k a w'
           | (Throw, w') => (Throw, w')
           end.

(** [try { body } catch { handler }] *)
Definition try_catch {A} (body handler : M A) : M A :=
  fun w => match body w with
           | (Normal a, w') => (Normal a, w')
           | (Throw, w') => handler w'
           end.

Notation "x <- c ;; k" := (bind c (fun x => k))
  (at level 61, c at next level, right associativity).
Notation "c ;;; k" := (bind c (fun _ => k))
  (at level 61, right associativity).

Definition next_fault : M Fault :=
  fun w => match script w with
           | [] => (Normal Succeeds, w)
           | f :: fs =>
               (Normal f,
                {| ml_patterns := ml_patterns w; blockchain_logs := blockchain_logs w;
                   script := fs; next_id := next_id w; clock := clock w |})
           end.

(** [const { data } = await <select on ml_patterns>] *)
Definition await_select (query : list PatternRow -> option PatternRow)
  : M (option PatternRow) :=
  f <- next_fault ;;
  match f with
  | Succeeds => fun w => (Normal (query (ml_patterns w)), w)
  | AnswersError => ret None
  | Rejects => throw
  end.

(** [await <insert or update>]: the result object is dropped. *)
Definition await_write (change : Store -> Store) : M unit :=
  f <- next_fault ;;
  match f with
  | Succeeds => fun w => (Normal tt, change w)
  | AnswersError => ret tt
  | Rejects => throw
  end.

(** [.maybeSingle()]: the row when there is exactly one, [null] for none,
    and [null] (with an error) for several. *)
Definition maybeSingle (rows : list PatternRow) : option PatternRow :=
  match rows with
  | [r] => Some r
  | _ => None
  end.

(** [.order('confidence_score', { ascending: false }).limit(1)]: a row of
    greatest confidence, the earliest among equals. *)
Fixpoint top_confidence (rows : list PatternRow) : list PatternRow :=
  match rows with
  | [] => []
  | r :: rest =>
      match top_confidence rest with
      | [] => [r]
      | b :: _ => if Rlt_dec (confidence_score r) (confidence_score b) then [b] else [r]
      end
  end.

Definition string_eqb (a b : string) : bool := String.eqb a b.

Definition set_patterns (rows : list PatternRow) (w : Store) : Store :=
  {| ml_patterns := rows; blockchain_logs := blockchain_logs w;
     script := script w; next_id := next_id w; clock := clock w |}.

(** [.update({...}).eq('id', existing.id)] *)
Definition db_update (existing : PatternRow) (count : Z) (detected : Z) (conf : R)
    (feat : MLFeatures) (w : Store) : Store :=
  set_patterns
    (map (fun r =>
            if N.eqb (id r) (id existing)
            then {| id := id r; url_pattern := url_pattern r;
                    pattern_type := pattern_type r; confidence_score := conf;
                    detection_count := count; last_detected := detected;
                    features := feat |}
            else r)
         (ml_patterns w)) w.

(** [.insert({...})]: [id] and [last_detected] take their column defaults. *)
Definition db_insert (domain : string) (ty : PatternType) (conf : R) (count : Z)
    (feat : MLFeatures) (w : Store) : Store :=
  {| ml_patterns :=
       ml_patterns w ++
       [{| id := next_id w; url_pattern := domain; pattern_type := ty;
           confidence_score := conf; detection_count := count;
           last_detected := clock w; features := feat |}];
     blockchain_logs := blockchain_logs w;
     script := script w; next_id := N.succ (next_id w); clock := clock w |}.

Definition db_log (entry : LogRow) (w : Store) : Store :=
  {| ml_patterns := ml_patterns w;
     blockchain_logs := blockchain_logs w ++ [entry];
     script := script w; next_id := next_id w; clock := clock w |}.

(** [new Date().toISOString()] *)
Definition Date_now : M Z := fun w => (Normal (clock w), w).

(** The result object of [performMLClassification]. *)
Record Assessment : Type := {
  isPhishing : bool;
  confidence : R;
  threatProbability : R;
  predictedCategories : list string
}.

Section Scanner.

(** [new URL(href).hostname], [None] when the constructor throws. *)
Variable URL_hostname : string -> option string.

(** PostgreSQL's [text ILIKE pattern]. *)
Variable ilike : string -> string -> bool.

(** *** extractMLFeatures *)

(** The [try]/[catch] that computes [hostname]. *)
Definition hostname_of (url : string) : string :=
  match URL_hostname (if startsWith url "http" then url else ("https://" ++ url)%string) with
  | Some hostname => hostname
  | None => hd EmptyString (split "/" url)
  end.

Definition extractMLFeatures (url : string) : MLFeatures :=
  let urlLower := toLowerCase url in
  let numDots := count_matches cls_dot url in
  let numHyphens := count_matches cls_hyphen url in
  let numDigits := count_matches is_digit url in
  let numSpecialChars := count_matches cls_special url in
  let hasIpAddress := regex_test ip_regex url in
  let hasSuspiciousKeywords :=
    existsb (fun k => includes urlLower k) suspiciousKeywords in
  let entropyScore := calculateEntropy url in
  let hostname := hostname_of url in
  let subdomainCount := Z.max 0 (Z.of_nat (List.length (split "." hostname)) - 2) in
  let pathDepth := Z.max 0 (Z.of_nat (List.length (split "/" url)) - 3) in
  {| urlLength := Z.of_nat (String.length url);
     numDots := numDots;
     numHyphens := numHyphens;
     numDigits := numDigits;
     numSpecialChars := numSpecialChars;
     hasIpAddress := hasIpAddress;
     hasSuspiciousKeywords := hasSuspiciousKeywords;
     entropyScore := entropyScore;
     subdomainCount := subdomainCount;
     pathDepth := pathDepth |}.

(** *** checkHistoricalPatterns *)

Definition historical_query (domain : string) (rows : list PatternRow)
  : option PatternRow :=
  maybeSingle
    (top_confidence
       (filter (fun r => ilike (url_pattern r) ("%" ++ domain ++ "%")%string) rows)).

Definition checkHistoricalPatterns (domain : string) : M (option PatternRow) :=
  try_catch
    (data <- await_select (historical_query domain) ;;
     ret data)
    (ret None).

(** *** updateMLPatterns *)

Definition derive_patternType (threatProbability : R) : PatternType :=
  if num_gt threatProbability 0.7 then phishing
  else if num_gt threatProbability 0.4 then suspicious
  else legitimate.

Definition existing_query (domain : string) (rows : list PatternRow)
  : option PatternRow :=
  maybeSingle (filter (fun r => string_eqb (url_pattern r) domain) rows).

Definition updateMLPatterns (domain : string) (feat : MLFeatures)
    (threatProbability : R) : M unit :=
  try_catch
    (let patternType := derive_patternType threatProbability in
     existing <- await_select (existing_query domain) ;;
     match existing with
     | Some existing =>
         now <- Date_now ;;
         await_write
           (db_update existing (detection_count existing + 1) now
              ((confidence_score existing + threatProbability) / 2)%R feat)
     | None =>
         await_write (db_insert domain patternType threatProbability 1 feat)
     end ;;;
     await_write
       (db_log {| log_url := domain; log_pattern_type := patternType;
                  log_threat_probability := threatProbability;
                  log_features := feat |}))
    (ret tt).

(** *** performMLClassification *)

Definition is_phishing_type (ty : PatternType) : bool :=
  match ty with phishing => true | _ => false end.

(** The [try] block from [const threatScore] on, as a function of
    [features]. *)
Definition classification_body (feat : MLFeatures) (domain : string) : M Assessment :=
  let threatScore := calculateMLThreatScore feat in
  let threatProbability := (IZR threatScore / 100)%R in
  let predictedCategories := initialCategories feat in
  historicalPattern <- checkHistoricalPatterns domain ;;
  let adjustedProbability :=
    match historicalPattern with
    | Some h => ((threatProbability + confidence_score h) / 2)%R
    | None => threatProbability
    end in
  let confidence :=
    match historicalPattern with
    | Some _ => Math_min 0.95 (0.75 + 0.15)
    | None => 0.75%R
    end in
  let predictedCategories :=
    match historicalPattern with
    | Some h =>
        if is_phishing_type (pattern_type h)
        then predictedCategories ++ ["Known phishing pattern"]
        else predictedCategories
    | None => predictedCategories
    end in
  updateMLPatterns domain feat adjustedProbability ;;;
  ret {| isPhishing := num_gt adjustedProbability 0.5;
         confidence := confidence;
         threatProbability := adjustedProbability;
         predictedCategories := predictedCategories |}.

Definition performMLClassification (url domain : string) : M Assessment :=
  try_catch
    (let feat := extractMLFeatures url in
     classification_body feat domain)
    (ret {| isPhishing := false; confidence := 0.5%R;
            threatProbability := 0%R; predictedCategories := [] |}).

End Scanner.

(** ** The safety score (calculateSafetyScore and its callers)

    The rest of the edge function: the shapes the lookups return, their
    defaults, the safety score, the threat-intelligence step and the scan
    itself. *)

(** *** Patterns with iteration

    [calculateSafetyScore] tests patterns that use [*] and [{20,}]; they
    need iteration on top of the fragment above. *)

Inductive pattern : Type :=
| PVoid : pattern
| PEps : pattern
| PClass : (ascii -> bool) -> pattern
| PSeq : pattern -> pattern -> pattern
| PAlt : pattern -> pattern -> pattern
| PStar : pattern -> pattern.

Inductive plang : pattern -> string -> Prop :=
| plang_eps : plang PEps EmptyString
| plang_class : forall cls c, cls c = true -> plang (PClass cls) (String c EmptyString)
| plang_seq : forall r1 r2 s1 s2,
    plang r1 s1 -> plang r2 s2 -> plang (PSeq r1 r2) (s1 ++ s2)%string
| plang_alt_l : forall r1 r2 s, plang r1 s -> plang (PAlt r1 r2) s
| plang_alt_r : forall r1 r2 s, plang r2 s -> plang (PAlt r1 r2) s
| plang_star_nil : forall r, plang (PStar r) EmptyString
| plang_star_cons : forall r s1 s2,
    plang r s1 -> plang (PStar r) s2 -> plang (PStar r) (s1 ++ s2)%string.

Fixpoint pnullable (r : pattern) : bool :=
  match r with
  | PVoid => false
  | PEps => true
  | PClass _ => false
  | PSeq r1 r2 => pnullable r1 && pnullable r2
  | PAlt r1 r2 => pnullable r1 || pnullable r2
  | PStar _ => true
  end.

Fixpoint pderiv (c : ascii) (r : pattern) : pattern :=
  match r with
  | PVoid => PVoid
  | PEps => PVoid
  | PClass cls => if cls c then PEps else PVoid
  | PSeq r1 r2 =>
      if pnullable r1 then PAlt (PSeq (pderiv c r1) r2) (pderiv c r2)
      else PSeq (pderiv c r1) r2
  | PAlt r1 r2 => PAlt (pderiv c r1) (pderiv c r2)
  | PStar r1 => PSeq (pderiv c r1) (PStar r1)
  end.

Fixpoint pmatch_here (r : pattern) (s : string) : bool :=
  pnullable r ||
  match s with
  | EmptyString => false
  | String c s' => pmatch_here (pderiv c r) s'
  end.

(** [pattern.test(s)] on a fresh pattern object ([lastIndex] 0), no
    anchors: a match may start at any position. *)
Fixpoint pattern_test (r : pattern) (s : string) : bool :=
  pmatch_here r s ||
  match s with
  | EmptyString => false
  | String _ s' => pattern_test r s'
  end.

Fixpoint of_regex (r : regex) : pattern :=
  match r with
  | Void => PVoid
  | Eps => PEps
  | Class cls => PClass cls
  | Seq r1 r2 => PSeq (of_regex r1) (of_regex r2)
  | Alt r1 r2 => PAlt (of_regex r1) (of_regex r2)
  end.

(** [r{n}] and [r{n,}] *)
Fixpoint prepeat (n : nat) (r : pattern) : pattern :=
  match n with
  | O => PEps
  | S n' => PSeq r (prepeat n' r)
  end.

Definition at_least (n : nat) (r : pattern) : pattern := PSeq (prepeat n r) (PStar r).

(** A literal under the [i] flag: each character matches in either case. *)
Fixpoint literal_i (s : string) : pattern :=
  match s with
  | EmptyString => PEps
  | String c s' =>
      PSeq (PClass (fun x => Ascii.eqb (char_toLowerCase x) (char_toLowerCase c)))
           (literal_i s')
  end.

(** [.] : any character but a line terminator. *)
Definition cls_any (c : ascii) : bool :=
  negb (Ascii.eqb c "010" || Ascii.eqb c "013").

(** [[a-z0-9]] *)
Definition cls_lower_alnum (c : ascii) : bool := is_lower c || is_digit c.

(** The array [suspiciousPatterns]:
    [/[0-9]{1,3}\.[0-9]{1,3}\.[0-9]{1,3}\.[0-9]{1,3}/], [/[a-z0-9]{20,}/],
    [/secure|login|verify|update|confirm/i] and [/-.*-.*-/g]. *)
Definition pattern_ip : pattern := of_regex ip_regex.

Definition pattern_long_token : pattern := at_least 20 (PClass cls_lower_alnum).

Definition pattern_keywords : pattern :=
  PAlt (literal_i "secure")
    (PAlt (literal_i "login")
       (PAlt (literal_i "verify")
          (PAlt (literal_i "update") (literal_i "confirm")))).

Definition pattern_hyphens : pattern :=
  PSeq (PClass cls_hyphen)
    (PSeq (PStar (PClass cls_any))
       (PSeq (PClass cls_hyphen)
          (PSeq (PStar (PClass cls_any)) (PClass cls_hyphen)))).

Definition suspiciousPatterns : list pattern :=
  [pattern_ip; pattern_long_token; pattern_keywords; pattern_hyphens].

(** *** The lookup results *)

(** The object [checkSSLCertificate] returns; [expiresAt] may be null. *)
Record SSLData : Type := {
  isValid : bool;
  issuer : string;
  expiresAt : option string;
  grade : string
}.

(** An integer-valued number that may be NaN ([Math.floor] of a date
    difference is NaN for an unparsable date). *)
Inductive JsInteger : Type :=
| Int : Z -> JsInteger
| IntNaN : JsInteger.

(** [x < n]: false for NaN. *)
Definition int_lt (x : JsInteger) (n : Z) : bool :=
  match x with
  | Int z => z <? n
  | IntNaN => false
  end.

(** The object [getDomainInfo] returns. *)
Record DomainData : Type := {
  ageDays : JsInteger;
  registrar : string;
  country : string
}.

(** The object [getIPInfo] returns. *)
Record IPData : Type := {
  address : string;
  ip_country : string;
  region : string;
  city : string;
  isp : string
}.

(** A number that may be NaN. *)
Inductive JsNumber : Type :=
| Num : R -> JsNumber
| NaN : JsNumber.

(** The object [checkThreatIntelligence] returns. *)
Record ThreatData : Type := {
  categories : list string;
  threat_confidence : JsNumber;
  maliciousCount : Z;
  suspiciousCount : Z
}.

Definition getDefaultSSL : SSLData :=
  {| isValid := false; issuer := "Unknown"; expiresAt := None; grade := "Unknown" |}.

Definition getDefaultDomain : DomainData :=
  {| ageDays := Int 0; registrar := "Unknown"; country := "Unknown" |}.

Definition getDefaultIP : IPData :=
  {| address := "Unknown"; ip_country := "Unknown"; region := "Unknown";
     city := "Unknown"; isp := "Unknown" |}.

Definition getDefaultThreats : ThreatData :=
  {| categories := []; threat_confidence := Num 0; maliciousCount := 0;
     suspiciousCount := 0 |}.

(** *** calculateSafetyScore *)

Definition calculateSafetyScore (ssl : SSLData) (domain : DomainData)
    (threats : ThreatData) (url : string) : Z :=
  let score := 100 in
  let score :=
    if negb (isValid ssl) then score - 25
    else if String.eqb (grade ssl) "F" then score - 20
    else if String.eqb (grade ssl) "C" || String.eqb (grade ssl) "D" then score - 10
    else score in
  let score :=
    if int_lt (ageDays domain) 30 then score - 20
    else if int_lt (ageDays domain) 365 then score - 15
    else if int_lt (ageDays domain) 730 then score - 10
    else score in
  let score :=
    if maliciousCount threats >? 0 then score - 40
    else if suspiciousCount threats >? 3 then score - 30
    else if suspiciousCount threats >? 1 then score - 15
    else score in
  let score :=
    fold_left (fun score pattern => if pattern_test pattern url then score - 4 else score)
      suspiciousPatterns score in
  Z.max score 0.

(** *** checkThreatIntelligence *)

(** What the function reads of the body of a VirusTotal response:
    [stats.malicious] and [stats.suspicious] ([None] when undefined, also
    when [last_analysis_stats] is missing) and the truthiness of
    [categories.phishing] and [categories.malware]. *)
Record VTBody : Type := {
  stat_malicious : option Z;
  stat_suspicious : option Z;
  cat_phishing : bool;
  cat_malware : bool
}.

(** What [fetch] of the report does: it rejects, or resolves to a response
    with [ok], [status] and a body ([None] when [response.json()]
    rejects). *)
Inductive VTAnswer : Type :=
| VTRejects : VTAnswer
| VTResponse : bool -> Z -> option VTBody -> VTAnswer.

(** The VirusTotal side of the environment: [VIRUSTOTAL_API_KEY], the
    answer to the report request, and whether the submission request
    rejects. *)
Record VirusTotal : Type := {
  vt_key : option string;
  vt_answer : VTAnswer;
  vt_submit_rejects : bool
}.

(** [!vtApiKey]: undefined or the empty string. *)
Definition key_missing (key : option string) : bool :=
  match key with
  | None => true
  | Some k => String.eqb k EmptyString
  end.

(** [x > n] for a possibly undefined [x]: false when undefined. *)
Definition undef_gt (x : option Z) (n : Z) : bool :=
  match x with
  | Some z => z >? n
  | None => false
  end.

(** [x || 0] *)
Definition or_zero (x : option Z) : Z :=
  match x with
  | Some z => z
  | None => 0
  end.

(** [[...new Set(l)]]: the first occurrences, in order. *)
Definition Set_of (l : list string) : list string :=
  fold_left (fun acc x => if existsb (String.eqb x) acc then acc else acc ++ [x]) l [].

(** [(mlConfidence + Math.min((malicious + suspicious) / 10, 1.0)) / 2]:
    NaN as soon as one of the counts is undefined. *)
Definition combinedConfidence (mlConfidence : R) (malicious suspicious : option Z)
  : JsNumber :=
  match malicious, suspicious with
  | Some m, Some s => Num ((mlConfidence + Math_min (IZR (m + s) / 10) 1) / 2)
  | _, _ => NaN
  end.

(** [submitUrlForAnalysis]: the request and its [catch]. *)
Definition submitUrlForAnalysis (vt : VirusTotal) : M unit :=
  try_catch (if vt_submit_rejects vt then throw else ret tt) (ret tt).

(** A settled promise of [Promise.allSettled]. *)
Inductive Settled (A : Type) : Type :=
| Fulfilled : A -> Settled A
| Rejected : Settled A.
Arguments Rejected {A}.

Definition settle {A} (c : M A) : M (Settled A) :=
  fun w => match c w with
           | (Normal a, w') => (Normal (Fulfilled a), w')
           | (Throw, w') => (Normal Rejected, w')
           end.

(** A row of [url_scans]; the result columns are null until written. *)
Record ScanRow : Type := {
  scan_id : N;
  scan_url : string;
  status : string;
  safety_score : option Z;
  is_safe : option bool;
  ssl_valid : option bool;
  ssl_issuer : option string;
  ssl_expires_at : option string;
  domain_age_days : option JsInteger;
  ip_address : option string;
  scan_ip_country : option string;
  threat_categories : option (list string);
  ml_confidence : option JsNumber
}.

(** [await supabase.from('url_scans').update(change).eq('id', scanId)] on
    the table [scans]: the table afterwards. *)
Definition await_scan_update (scans : list ScanRow) (scanId : N)
    (change : ScanRow -> ScanRow) : M (list ScanRow) :=
  f <- next_fault ;;
  match f with
  | Succeeds =>
      ret (map (fun row => if N.eqb (scan_id row) scanId then change row else row) scans)
  | AnswersError => ret scans
  | Rejects => throw
  end.

(** The update of a completed scan. *)
Definition completed_update (safetyScore : Z) (isSafe : bool) (ssl : SSLData)
    (domainInfo : DomainData) (ipInfo : IPData) (threats : ThreatData)
    (row : ScanRow) : ScanRow :=
  {| scan_id := scan_id row; scan_url := scan_url row;
     status := "completed";
     safety_score := Some safetyScore;
     is_safe := Some isSafe;
     ssl_valid := Some (isValid ssl);
     ssl_issuer := Some (issuer ssl);
     ssl_expires_at := expiresAt ssl;
     domain_age_days := Some (ageDays domainInfo);
     ip_address := Some (address ipInfo);
     scan_ip_country := Some (ip_country ipInfo);
     threat_categories := Some (categories threats);
     ml_confidence := Some (threat_confidence threats) |}.

(** The update of a failed scan: [{ status: 'failed' }]. *)
Definition failed_update (row : ScanRow) : ScanRow :=
  {| scan_id := scan_id row; scan_url := scan_url row;
     status := "failed";
     safety_score := safety_score row; is_safe := is_safe row;
     ssl_valid := ssl_valid row; ssl_issuer := ssl_issuer row;
     ssl_expires_at := ssl_expires_at row;
     domain_age_days := domain_age_days row;
     ip_address := ip_address row; scan_ip_country := scan_ip_country row;
     threat_categories := threat_categories row;
     ml_confidence := ml_confidence row |}.

Section Scan.

Variable URL_hostname : string -> option string.
Variable ilike : string -> string -> bool.

(** The three network lookups, taken as given: what the promise of each
    settles to for a domain. *)
Variable checkSSLCertificate : string -> Settled SSLData.
Variable getDomainInfo : string -> Settled DomainData.
Variable getIPInfo : string -> Settled IPData.

Variable vt : VirusTotal.

(** The object returned on the ML-only paths. *)
Definition ml_only (mlPrediction : Assessment) : ThreatData :=
  {| categories := predictedCategories mlPrediction;
     threat_confidence := Num (confidence mlPrediction);
     maliciousCount := if isPhishing mlPrediction then 1 else 0;
     suspiciousCount := if num_gt (threatProbability mlPrediction) 0.5 then 1 else 0 |}.

Definition checkThreatIntelligence (url domain : string) : M ThreatData :=
  try_catch
    (mlPrediction <- performMLClassification URL_hostname ilike url domain ;;
     if key_missing (vt_key vt) then ret (ml_only mlPrediction)
     else
       match vt_answer vt with
       | VTRejects => throw
       | VTResponse ok response_status body =>
           if negb ok then
             (if response_status =? 404 then submitUrlForAnalysis vt else ret tt) ;;;
             ret (ml_only mlPrediction)
           else
             match body with
             | None => throw
             | Some data =>
                 let threatCategories := Set_of (predictedCategories mlPrediction) in
                 let threatCategories :=
                   if undef_gt (stat_malicious data) 0
                   then threatCategories ++ ["malware"] else threatCategories in
                 let threatCategories :=
                   if undef_gt (stat_suspicious data) 2
                   then threatCategories ++ ["phishing"] else threatCategories in
                 let threatCategories :=
                   if cat_phishing data
                   then threatCategories ++ ["phishing"] else threatCategories in
                 let threatCategories :=
                   if cat_malware data
                   then threatCategories ++ ["malware"] else threatCategories in
                 ret {| categories := threatCategories;
                        threat_confidence :=
                          combinedConfidence (confidence mlPrediction)
                            (stat_malicious data) (stat_suspicious data);
                        maliciousCount := or_zero (stat_malicious data);
                        suspiciousCount := or_zero (stat_suspicious data) |}
             end
       end)
    (ret getDefaultThreats).

(** *** performScan

    The table [url_scans] is passed in and the table after the scan is
    returned; a rejected final update rejects the whole call. *)
Definition performScan (scans : list ScanRow) (scanId : N) (url : string)
  : M (list ScanRow) :=
  try_catch
    (match URL_hostname url with
     | None => throw
     | Some domain =>
         let sslData := checkSSLCertificate domain in
         let domainData := getDomainInfo domain in
         let ipData := getIPInfo domain in
         threatData <- settle (checkThreatIntelligence url domain) ;;
         let ssl := match sslData with Fulfilled v => v | Rejected => getDefaultSSL end in
         let domainInfo :=
           match domainData with Fulfilled v => v | Rejected => getDefaultDomain end in
         let ipInfo := match ipData with Fulfilled v => v | Rejected => getDefaultIP end in
         let threats :=
           match threatData with Fulfilled v => v | Rejected => getDefaultThreats end in
         let safetyScore := calculateSafetyScore ssl domainInfo threats url in
         let isSafe := safetyScore >=? 70 in
         await_scan_update scans scanId
           (completed_update safetyScore isSafe ssl domainInfo ipInfo threats)
     end)
    (await_scan_update scans scanId failed_update).

End Scan.

(** ** The client side (src/services/zeroTrust.ts)

    The browser's copy of the classifier, [MLURLClassifier], the scanner
    service's [normalizeUrl] and [getSafetyLevel], and the validator's
    origin check. *)

Module MLURLClassifier.

Definition SUSPICIOUS_KEYWORDS : list string :=
  ["login"; "verify"; "account"; "update"; "secure"; "banking";
   "password"; "confirm"; "suspended"; "locked"; "urgent";
   "click"; "winner"; "prize"; "free"; "security"].

Definition calculateEntropy (str : string) : R :=
  let len := Z.of_nat (String.length str) in
  let frequencies := count_loop str [] in
  fold_left (entropy_step len) frequencies 0%R.

Definition calculateThreatScore (features : MLFeatures) : Z :=
  let score := 0 in
  let score := if urlLength features >? 75 then score + 15 else score in
  let score := if urlLength features >? 100 then score + 10 else score in
  let score := if numHyphens features >? 2 then score + 10 else score in
  let score := if numDigits features >? 8 then score + 10 else score in
  let score := if numSpecialChars features >? 5 then score + 15 else score in
  let score := if hasIpAddress features then score + 25 else score in
  let score := if hasSuspiciousKeywords features then score + 20 else score in
  let score := if num_gt (entropyScore features) 4.5 then score + 15 else score in
  let score := if subdomainCount features >? 3 then score + 15 else score in
  let score := if pathDepth features >? 5 then score + 10 else score in
  Z.min 100 score.

(** The result of [classifyURL]. *)
Record MLPrediction : Type := {
  isPhishing : bool;
  confidence : R;
  threatProbability : R;
  predictedCategories : list string;
  model : string
}.

Section Classifier.

Variable URL_hostname : string -> option string.
Variable ilike : string -> string -> bool.

(** [new URL(url.startsWith('http') ? url : `https://${url}`).hostname] *)
Definition parse_domain (url : string) : option string :=
  URL_hostname (if startsWith url "http" then url else ("https://" ++ url)%string).

Definition extractFeatures (url : string) : MLFeatures :=
  let urlLower := toLowerCase url in
  let numDots := count_matches cls_dot url in
  let numHyphens := count_matches cls_hyphen url in
  let numDigits := count_matches is_digit url in
  let numSpecialChars := count_matches cls_special url in
  let hasIpAddress := regex_test ip_regex url in
  let hasSuspiciousKeywords :=
    existsb (fun keyword => includes urlLower keyword) SUSPICIOUS_KEYWORDS in
  let entropyScore := calculateEntropy url in
  let hostname :=
    match parse_domain url with
    | Some hostname => hostname
    | None => hd EmptyString (split "/" url)
    end in
  let subdomainCount := Z.of_nat (List.length (split "." hostname)) - 2 in
  let pathDepth := Z.of_nat (List.length (split "/" url)) - 3 in
  {| urlLength := Z.of_nat (String.length url);
     numDots := numDots;
     numHyphens := numHyphens;
     numDigits := numDigits;
     numSpecialChars := numSpecialChars;
     hasIpAddress := hasIpAddress;
     hasSuspiciousKeywords := hasSuspiciousKeywords;
     entropyScore := entropyScore;
     subdomainCount := Z.max 0 subdomainCount;
     pathDepth := Z.max 0 pathDepth |}.

Definition checkHistoricalPatterns (url : string) : M (option PatternRow) :=
  try_catch
    (match parse_domain url with
     | None => throw
     | Some domain =>
         data <- await_select (historical_query ilike domain) ;;
         ret data
     end)
    (ret None).

Definition updateMLPatterns (url : string) (feat : MLFeatures)
    (threatProbability : R) : M unit :=
  try_catch
    (match parse_domain url with
     | None => throw
     | Some domain =>
         let patternType := derive_patternType threatProbability in
         existing <- await_select (existing_query domain) ;;
         match existing with
         | Some existing =>
             now <- Date_now ;;
             await_write
               (db_update existing (detection_count existing + 1) now
                  ((confidence_score existing + threatProbability) / 2)%R feat)
         | None =>
             await_write (db_insert domain patternType threatProbability 1 feat)
         end ;;;
         await_write
           (db_log {| log_url := domain; log_pattern_type := patternType;
                      log_threat_probability := threatProbability;
                      log_features := feat |})
     end)
    (ret tt).

Definition classifyURL (url : string) : M MLPrediction :=
  let feat := extractFeatures url in
  let threatScore := calculateThreatScore feat in
  let threatProbability := (IZR threatScore / 100)%R in
  let predictedCategories := [] in
  let predictedCategories :=
    if hasIpAddress feat
    then predictedCategories ++ ["IP-based URL"] else predictedCategories in
  let predictedCategories :=
    if hasSuspiciousKeywords feat
    then predictedCategories ++ ["Suspicious keywords"] else predictedCategories in
  let predictedCategories :=
    if urlLength feat >? 100
    then predictedCategories ++ ["Abnormally long URL"] else predictedCategories in
  let predictedCategories :=
    if subdomainCount feat >? 3
    then predictedCategories ++ ["Excessive subdomains"] else predictedCategories in
  let predictedCategories :=
    if num_gt (entropyScore feat) 4.5
    then predictedCategories ++ ["High entropy"] else predictedCategories in
  historicalPatterns <- checkHistoricalPatterns url ;;
  let adjustedProbability :=
    match historicalPatterns with
    | Some h => ((threatProbability + confidence_score h) / 2)%R
    | None => threatProbability
    end in
  let confidence :=
    match historicalPatterns with
    | Some _ => Math_min 0.95 (0.75 + 0.15)
    | None => 0.75%R
    end in
  let predictedCategories :=
    match historicalPatterns with
    | Some h =>
        if is_phishing_type (pattern_type h)
        then predictedCategories ++ ["Known phishing pattern"]
        else predictedCategories
    | None => predictedCategories
    end in
  updateMLPatterns url feat adjustedProbability ;;;
  ret {| isPhishing := num_gt adjustedProbability 0.5;
         confidence := confidence;
         threatProbability := adjustedProbability;
         predictedCategories := predictedCategories;
         model := "ensemble" |}.

End Classifier.

End MLURLClassifier.

Module URLScannerService.

(** [normalizeUrl] (and its twin [normalizeURL]). *)
Definition normalizeUrl (url : string) : string :=
  if negb (startsWith url "http://") && negb (startsWith url "https://")
  then ("https://" ++ url)%string
  else url.

(** The object [getSafetyLevel] returns. *)
Record SafetyLevel : Type := {
  level : string;
  color : string;
  description : string
}.

Definition getSafetyLevel (score : Z) : SafetyLevel :=
  if score >=? 80 then
    {| level := "Safe";
       color := "bg-green-50 border-green-200 text-green-800";
       description := "This URL appears to be safe based on our comprehensive security analysis." |}
  else if score >=? 50 then
    {| level := "Moderate Risk";
       color := "bg-yellow-50 border-yellow-200 text-yellow-800";
       description := "This URL shows some suspicious indicators. Exercise caution when proceeding." |}
  else
    {| level := "High Risk";
       color := "bg-red-50 border-red-200 text-red-800";
       description := "This URL has multiple security concerns. We strongly advise against visiting this site." |}.

End URLScannerService.

Module ZeroTrustValidator.

(** [validateOrigin]: [origin] is [requestData.origin] ([None] when
    undefined) and [location_origin] is [window.location.origin]. *)
Definition validateOrigin (location_origin : string) (request_origin : option string)
  : bool :=
  let origin := match request_origin with Some o => o | None => EmptyString end in
  if String.eqb origin EmptyString then false
  else
    let allowedOrigins :=
      [location_origin; "http://localhost:5173"; "http://localhost:3000"] in
    existsb (fun allowed => startsWith origin allowed) allowedOrigins.

End ZeroTrustValidator.

(** ** Specification-side definitions *)

(** Points of one rule of the table of section 4.2. *)
Definition pts (fires : bool) (points : Z) : Z := if fires then points else 0.

(** The sum of the ten independent rule contributions, before clamping. *)
Definition rule_sum (f : MLFeatures) : Z :=
  pts (urlLength f >? 75) 15 + pts (urlLength f >? 100) 10 +
  pts (numHyphens f >? 2) 10 + pts (numDigits f >? 8) 10 +
  pts (numSpecialChars f >? 5) 15 + pts (hasIpAddress f) 25 +
  pts (hasSuspiciousKeywords f) 20 + pts (num_gt (entropyScore f) 4.5) 15 +
  pts (subdomainCount f >? 3) 15 + pts (pathDepth f >? 5) 10.

(** A feature set on which every rule fires. *)
Definition every_rule_fires : MLFeatures :=
  {| urlLength := 101; numDots := 0; numHyphens := 3; numDigits := 9;
     numSpecialChars := 6; hasIpAddress := true; hasSuspiciousKeywords := true;
     entropyScore := 5; subdomainCount := 4; pathDepth := 6 |}.

Definition with_urlLength (n : Z) (f : MLFeatures) : MLFeatures :=
  {| urlLength := n; numDots := numDots f; numHyphens := numHyphens f;
     numDigits := numDigits f; numSpecialChars := numSpecialChars f;
     hasIpAddress := hasIpAddress f;
     hasSuspiciousKeywords := hasSuspiciousKeywords f;
     entropyScore := entropyScore f; subdomainCount := subdomainCount f;
     pathDepth := pathDepth f |}.

Definition with_numDots (n : Z) (f : MLFeatures) : MLFeatures :=
  {| urlLength := urlLength f; numDots := n; numHyphens := numHyphens f;
     numDigits := numDigits f; numSpecialChars := numSpecialChars f;
     hasIpAddress := hasIpAddress f;
     hasSuspiciousKeywords := hasSuspiciousKeywords f;
     entropyScore := entropyScore f; subdomainCount := subdomainCount f;
     pathDepth := pathDepth f |}.

(** The labelled rules, as pairs of a firing condition and a label. *)
Definition labelled (fires : bool) (label : string) : list string :=
  if fires then [label] else [].

(** The labels of the fired rules in the order of the table of section 4.2. *)
Definition table_order_categories (f : MLFeatures) : list string :=
  labelled (urlLength f >? 100) "Abnormally long URL" ++
  labelled (hasIpAddress f) "IP-based URL" ++
  labelled (hasSuspiciousKeywords f) "Suspicious keywords" ++
  labelled (num_gt (entropyScore f) 4.5) "High entropy" ++
  labelled (subdomainCount f >? 3) "Excessive subdomains".

(** The labels of the fired rules in the order of the [push] statements. *)
Definition push_order_categories (f : MLFeatures) : list string :=
  labelled (hasIpAddress f) "IP-based URL" ++
  labelled (hasSuspiciousKeywords f) "Suspicious keywords" ++
  labelled (urlLength f >? 100) "Abnormally long URL" ++
  labelled (subdomainCount f >? 3) "Excessive subdomains" ++
  labelled (num_gt (entropyScore f) 4.5) "High entropy".

(** The first request of a call: its fate, and the store once it is made. *)
Definition first_fault (w : Store) : Fault := hd Succeeds (script w).

Definition after_request (w : Store) : Store :=
  {| ml_patterns := ml_patterns w; blockchain_logs := blockchain_logs w;
     script := tl (script w); next_id := next_id w; clock := clock w |}.

Definition with_script (fs : list Fault) (w : Store) : Store :=
  {| ml_patterns := ml_patterns w; blockchain_logs := blockchain_logs w;
     script := fs; next_id := next_id w; clock := clock w |}.

(** The historical record the classifier gets to see: the best match of the
    lookup when the request succeeds, nothing otherwise. *)
Definition historical (ilike : string -> string -> bool) (domain : string)
    (w : Store) : option PatternRow :=
  match first_fault w with
  | Succeeds => historical_query ilike domain (ml_patterns w)
  | AnswersError | Rejects => None
  end.

(** Section 4.3, [blend]: the assessment from the raw probability, the
    scorer's categories and the historical record. *)
Definition blend (p : R) (cats : list string) (hist : option PatternRow) : Assessment :=
  match hist with
  | None =>
      {| isPhishing := num_gt p 0.5; confidence := 0.75%R;
         threatProbability := p; predictedCategories := cats |}
  | Some h =>
      {| isPhishing := num_gt ((p + confidence_score h) / 2) 0.5;
         confidence := 0.9%R;
         threatProbability := ((p + confidence_score h) / 2)%R;
         predictedCategories :=
           cats ++ (if is_phishing_type (pattern_type h)
                    then ["Known phishing pattern"] else []) |}
  end.

(** A feature set on which no rule fires. *)
Definition quiet_features : MLFeatures :=
  {| urlLength := 19; numDots := 1; numHyphens := 0; numDigits := 0;
     numSpecialChars := 3; hasIpAddress := false; hasSuspiciousKeywords := false;
     entropyScore := 0; subdomainCount := 0; pathDepth := 0 |}.

(** An IP-based, over-long URL with nothing else of note. *)
Definition long_ip_features : MLFeatures :=
  {| urlLength := 101; numDots := 3; numHyphens := 0; numDigits := 4;
     numSpecialChars := 0; hasIpAddress := true; hasSuspiciousKeywords := false;
     entropyScore := 0; subdomainCount := 0; pathDepth := 0 |}.

(** The CHECK constraint of the [confidence_score] column. *)
Definition store_checked (w : Store) : Prop :=
  Forall (fun r => (0 <= confidence_score r <= 1)%R) (ml_patterns w).

(** A computation keeps the CHECK constraint, and its normal results
    satisfy [Q]. *)
Definition keeps_check {A} (c : M A) (Q : A -> Prop) : Prop :=
  forall w, store_checked w ->
            store_checked (snd (c w)) /\
            forall a, fst (c w) = Normal a -> Q a.

(** The rows of [ml_patterns] whose [url_pattern] is the domain. *)
Definition rows_for (domain : string) (w : Store) : list PatternRow :=
  filter (fun r => string_eqb (url_pattern r) domain) (ml_patterns w).



(** The store after the first scan of the third scenario of section 8: one
    row for the domain, confidence 0.3, seen once. *)
Definition first_scan_row : PatternRow :=
  {| id := 7; url_pattern := "example.com"; pattern_type := legitimate;
     confidence_score := 0.3; detection_count := 1; last_detected := 1000;
     features := quiet_features |}.

Definition first_scan_store : Store :=
  {| ml_patterns := [first_scan_row]; blockchain_logs := []; script := [];
     next_id := 8; clock := 2000 |}.

(** A stand-in for the runtime's URL parser, right on the hrefs of the
    examples: the host of the two well-formed ones, and a failure for the
    one with spaces in its host (a forbidden host code point). *)
Definition example_URL_hostname (href : string) : option string :=
  if String.eqb href "https://example.com/1.2.3.4" then Some "example.com"
  else if String.eqb href "https://example.com/a/b/c" then Some "example.com"
  else if String.eqb href "https://example.com" then Some "example.com"
  else if String.eqb href "https://1.2.3.4 a.b.c" then None
  else None.

(** A stand-in for ILIKE, right on patterns [%d%] with no wildcard in [d]. *)
Definition example_ilike (text pattern : string) : bool :=
  includes (toLowerCase text)
    (toLowerCase (substring 1 (String.length pattern - 2) pattern)).

(** One to three characters, all digits. *)
Fixpoint all_digits (s : string) : bool :=
  match s with
  | EmptyString => true
  | String c s' => is_digit c && all_digits s'
  end.

Definition digits_1_3 (s : string) : Prop :=
  (1 <= String.length s <= 3)%nat /\ all_digits s = true.

(** A dotted quad: four groups of one to three digits separated by dots. *)
Definition dotted_quad (m : string) : Prop :=
  exists a b c d : string,
    m = (a ++ "." ++ b ++ "." ++ c ++ "." ++ d)%string /\
    digits_1_3 a /\ digits_1_3 b /\ digits_1_3 c /\ digits_1_3 d.

(** The string contains a dotted quad somewhere. *)
Definition contains_dotted_quad (s : string) : Prop :=
  exists pre m post : string, s = (pre ++ m ++ post)%string /\ dotted_quad m.

(** The host component matches the dotted-quad pattern. *)
Definition host_matches_ipv4 (host : string) : bool := regex_test ip_regex host.

Definition is_slash (c : ascii) : bool := Ascii.eqb c "/".

(** The suffix after the first occurrence of [pat], if there is one. *)
Fixpoint after_first (pat s : string) : option string :=
  if startsWith s pat then Some (substring (String.length pat) (String.length s) s)
  else match s with
       | EmptyString => None
       | String _ s' => after_first pat s'
       end.

(** The suffix from the first "/" on, empty when there is none. *)
Fixpoint from_first_slash (s : string) : string :=
  match s with
  | EmptyString => EmptyString
  | String c s' => if is_slash c then s else from_first_slash s'
  end.

(** Section 3, [pathDepth]: what is left of the input once the scheme and
    the host are removed. *)
Definition path_after_host (url : string) : string :=
  from_first_slash
    (match after_first "://" url with Some rest => rest | None => url end).

(** Its "/"-separated segments: the pieces between the slashes, and the
    non-empty ones among them. *)
Definition path_pieces (url : string) : list string := split "/" (path_after_host url).

Definition path_segments (url : string) : list string :=
  filter (fun p => negb (String.eqb p EmptyString)) (path_pieces url).

(** How often [c] occurs in [s]. *)
Definition occurrences (c : ascii) (s : string) : Z :=
  count_matches (fun x => Ascii.eqb x c) s.

(** The distinct characters of [s], in the order of their first occurrence. *)
Fixpoint distinct_chars (s : string) : list ascii :=
  match s with
  | EmptyString => []
  | String c s' => c :: filter (fun x => negb (Ascii.eqb x c)) (distinct_chars s')
  end.

Definition sumR (l : list R) : R := fold_right Rplus 0%R l.

(** The relative frequency p(c) of [c] in [s]. *)
Definition frequency (s : string) (c : ascii) : R :=
  (IZR (occurrences c s) / IZR (Z.of_nat (String.length s)))%R.

(** Section 4.1: the Shannon entropy in bits, -sum p(c) log2 p(c) over the
    distinct characters c of [s]. *)
Definition shannon (s : string) : R :=
  (- sumR (map (fun c => frequency s c * Math_log2 (frequency s c)) (distinct_chars s)))%R.

(** Some character occurs at least twice. *)
Definition has_repeated_char (s : string) : Prop :=
  exists c : ascii, 2 <= occurrences c s.

(** ASCII letters, the class [[a-zA-Z]]. *)
Definition is_letter (c : ascii) : bool := is_lower c || is_upper c.

(** A second row for the domain of [first_scan_row], under another key. *)
Definition duplicate_scan_row : PatternRow :=
  {| id := 8; url_pattern := "example.com"; pattern_type := suspicious;
     confidence_score := 0.5; detection_count := 1; last_detected := 1500;
     features := quiet_features |}.

Definition duplicated_store : Store :=
  {| ml_patterns := [first_scan_row; duplicate_scan_row]; blockchain_logs := [];
     script := []; next_id := 9; clock := 2000 |}.

Definition empty_store : Store :=
  {| ml_patterns := []; blockchain_logs := []; script := [];
     next_id := 0; clock := 0 |}.

(** Every character of the string is in the class. *)
Fixpoint all_in (cls : ascii -> bool) (s : string) : bool :=
  match s with
  | EmptyString => true
  | String c s' => cls c && all_in cls s'
  end.

(** How many of the four patterns match the url. *)
Definition matched_patterns (url : string) : Z :=
  fold_right (fun p acc => (if pattern_test p url then 1 else 0) + acc) 0
    suspiciousPatterns.

(** The words of the keyword pattern. *)
Definition safety_keywords : list string :=
  ["secure"; "login"; "verify"; "update"; "confirm"].

(** The assessment [performMLClassification] returns on a store. *)
Definition ml_assessment (URL_hostname : string -> option string)
    (ilike : string -> string -> bool) (url domain : string) (w : Store) : Assessment :=
  blend (IZR (calculateMLThreatScore (extractMLFeatures URL_hostname url)) / 100)
    (initialCategories (extractMLFeatures URL_hostname url))
    (historical ilike domain w).

(** The labels [checkThreatIntelligence] appends from a VirusTotal body. *)
Definition vt_labels (data : VTBody) : list string :=
  (if undef_gt (stat_malicious data) 0 then ["malware"] else []) ++
  (if undef_gt (stat_suspicious data) 2 then ["phishing"] else []) ++
  (if cat_phishing data then ["phishing"] else []) ++
  (if cat_malware data then ["malware"] else []).

(** A value or its default. *)
Definition settled_or {A} (default : A) (r : Settled A) : A :=
  match r with
  | Fulfilled v => v
  | Rejected => default
  end.

(** The table with the rows of key [scanId] changed. *)
Definition scans_with (scanId : N) (change : ScanRow -> ScanRow)
    (scans : list ScanRow) : list ScanRow :=
  map (fun row => if N.eqb (scan_id row) scanId then change row else row) scans.

(** A pending scan, as the request handler inserts it. *)
Definition pending_scan : ScanRow :=
  {| scan_id := 1; scan_url := "https://example.com"; status := "pending";
     safety_score := None; is_safe := None; ssl_valid := None; ssl_issuer := None;
     ssl_expires_at := None; domain_age_days := None; ip_address := None;
     scan_ip_country := None; threat_categories := None; ml_confidence := None |}.

(** An environment without a VirusTotal key, and one whose report request
    rejects. *)
Definition no_vt_key : VirusTotal :=
  {| vt_key := None; vt_answer := VTRejects; vt_submit_rejects := false |}.

Definition vt_unreachable : VirusTotal :=
  {| vt_key := Some "k"; vt_answer := VTRejects; vt_submit_rejects := false |}.

(** A report with two suspicious votes and no [malicious] field. *)
Definition partial_report : VTBody :=
  {| stat_malicious := None; stat_suspicious := Some 2;
     cat_phishing := true; cat_malware := false |}.

Definition vt_partial : VirusTotal :=
  {| vt_key := Some "k"; vt_answer := VTResponse true 200 (Some partial_report);
     vt_submit_rejects := false |}.

(** Lookups that all reject. *)
Definition no_ssl (domain : string) : Settled SSLData := Rejected.
Definition no_domain (domain : string) : Settled DomainData := Rejected.
Definition no_ip (domain : string) : Settled IPData := Rejected.

(** The threat data [checkThreatIntelligence] returns on a store. *)
Definition threat_data (URL_hostname : string -> option string)
    (ilike : string -> string -> bool) (vt : VirusTotal) (url domain : string)
    (w : Store) : ThreatData :=
  match fst (checkThreatIntelligence URL_hostname ilike vt url domain w) with
  | Normal t => t
  | Throw => getDefaultThreats
  end.

(** A store that remembers "example.com" with full confidence. *)
Definition remembered_row : PatternRow :=
  {| id := 3; url_pattern := "example.com"; pattern_type := phishing;
     confidence_score := 1; detection_count := 5; last_detected := 10;
     features := long_ip_features |}.

Definition remembering_store : Store :=
  {| ml_patterns := [remembered_row]; blockchain_logs := []; script := [];
     next_id := 4; clock := 20 |}.

Definition with_keywords (b : bool) (f : MLFeatures) : MLFeatures :=
  {| urlLength := urlLength f; numDots := numDots f; numHyphens := numHyphens f;
     numDigits := numDigits f; numSpecialChars := numSpecialChars f;
     hasIpAddress := hasIpAddress f;
     hasSuspiciousKeywords := b;
     entropyScore := entropyScore f; subdomainCount := subdomainCount f;
     pathDepth := pathDepth f |}.

(** * Properties *)

(** ** Numbers *)

Lemma num_gt_true (x y : R) : (x > y)%R -> num_gt x y = true.
Proof. intros H. unfold num_gt. destruct (Rgt_dec x y); [reflexivity | contradiction]. Qed.

Lemma num_gt_false (x y : R) : (x <= y)%R -> num_gt x y = false.
Proof. intros H. unfold num_gt. destruct (Rgt_dec x y); [lra | reflexivity]. Qed.

Lemma num_gt_iff (x y : R) : num_gt x y = true <-> (x > y)%R.
Proof.
  unfold num_gt. destruct (Rgt_dec x y); split; intros; try assumption;
    try reflexivity; try discriminate; contradiction.
Qed.

Lemma Math_min_confidence : Math_min 0.95 (0.75 + 0.15) = 0.9%R.
Proof. unfold Math_min. destruct (Rle_dec 0.95 (0.75 + 0.15)); lra. Qed.

(** ** The scorer *)

Lemma pts_step (b : bool) (score k : Z) :
  (if b then score + k else score) = score + pts b k.
Proof. destruct b; unfold pts; lia. Qed.

Lemma pts_range (b : bool) (k : Z) : 0 <= k -> 0 <= pts b k <= k.
Proof. destruct b; unfold pts; lia. Qed.

Lemma score_unclamped (f : MLFeatures) :
  calculateMLThreatScore f = Z.min 100 (rule_sum f).
Proof.
  unfold calculateMLThreatScore, rule_sum.
  rewrite !pts_step. reflexivity.
Qed.

Lemma rule_sum_nonneg (f : MLFeatures) : 0 <= rule_sum f <= 145.
Proof.
  unfold rule_sum.
  pose proof (pts_range (urlLength f >? 75) (k:=15)).
  pose proof (pts_range (urlLength f >? 100) (k:=10)).
  pose proof (pts_range (numHyphens f >? 2) (k:=10)).
  pose proof (pts_range (numDigits f >? 8) (k:=10)).
  pose proof (pts_range (numSpecialChars f >? 5) (k:=15)).
  pose proof (pts_range (hasIpAddress f) (k:=25)).
  pose proof (pts_range (hasSuspiciousKeywords f) (k:=20)).
  pose proof (pts_range (num_gt (entropyScore f) 4.5) (k:=15)).
  pose proof (pts_range (subdomainCount f >? 3) (k:=15)).
  pose proof (pts_range (pathDepth f >? 5) (k:=10)).
  lia.
Qed.

Lemma rule_sum_every_rule_fires : rule_sum every_rule_fires = 145.
Proof.
  unfold rule_sum, every_rule_fires; simpl.
  rewrite (num_gt_true (x:=5) (y:=4.5)) by lra. reflexivity.
Qed.

(** C1: the score is the sum of the ten fixed rule contributions clamped to
    at most 100; it lies in [0,100] for every feature set, also on a feature
    set where every rule fires (sum 145, score 100). *)
Theorem scoreThreat_is_clamped_rule_sum :
  (forall f : MLFeatures,
     calculateMLThreatScore f = Z.min 100 (rule_sum f) /\
     0 <= rule_sum f /\
     0 <= calculateMLThreatScore f <= 100) /\
  rule_sum every_rule_fires = 145 /\
  calculateMLThreatScore every_rule_fires = 100.
Proof.
  split.
  - intros f. pose proof (rule_sum_nonneg f). rewrite score_unclamped. lia.
  - split; [apply rule_sum_every_rule_fires |].
    rewrite score_unclamped, rule_sum_every_rule_fires. reflexivity.
Qed.

Lemma gtb_true (n m : Z) : m < n -> (n >? m) = true.
Proof. intros H. rewrite Z.gtb_ltb. now apply Z.ltb_lt. Qed.

Lemma gtb_false (n m : Z) : n <= m -> (n >? m) = false.
Proof. intros H. rewrite Z.gtb_ltb. now apply Z.ltb_ge. Qed.

Lemma score_with_urlLength_low (n : Z) (f : MLFeatures) :
  n <= 75 ->
  rule_sum (with_urlLength n f) = rule_sum (with_urlLength 0 f).
Proof.
  intros Hn. unfold rule_sum; simpl.
  replace (n >? 75) with false by (symmetry; apply gtb_false; lia).
  replace (n >? 100) with false by (symmetry; apply gtb_false; lia).
  reflexivity.
Qed.

Lemma score_with_urlLength_mid (n : Z) (f : MLFeatures) :
  75 < n <= 100 ->
  rule_sum (with_urlLength n f) = rule_sum (with_urlLength 0 f) + 15.
Proof.
  intros Hn. unfold rule_sum; simpl.
  replace (n >? 75) with true by (symmetry; apply gtb_true; lia).
  replace (n >? 100) with false by (symmetry; apply gtb_false; lia).
  change (pts true 15) with 15; change (pts false 10) with 0;
    change (pts true 10) with 10; lia.
Qed.

Lemma score_with_urlLength_high (n : Z) (f : MLFeatures) :
  100 < n ->
  rule_sum (with_urlLength n f) = rule_sum (with_urlLength 0 f) + 25.
Proof.
  intros Hn. unfold rule_sum; simpl.
  replace (n >? 75) with true by (symmetry; apply gtb_true; lia).
  replace (n >? 100) with true by (symmetry; apply gtb_true; lia).
  change (pts true 15) with 15; change (pts false 10) with 0;
    change (pts true 10) with 10; lia.
Qed.

(** C8, as stated, fails twice.  With no other rule firing the score is 15
    at length 99 (the first length rule has fired already) and 25 at length
    101: an increase of 10, not 25.  With every other rule firing the score
    is 100 at length 74 and still 100 at length 76. *)
Lemma length_step_counterexample :
  calculateMLThreatScore (with_urlLength 99 quiet_features) = 15 /\
  calculateMLThreatScore (with_urlLength 101 quiet_features) = 25 /\
  ~ (calculateMLThreatScore (with_urlLength 101 quiet_features) >=
     calculateMLThreatScore (with_urlLength 99 quiet_features) + 25) /\
  calculateMLThreatScore (with_urlLength 74 every_rule_fires) = 100 /\
  calculateMLThreatScore (with_urlLength 76 every_rule_fires) = 100 /\
  ~ (calculateMLThreatScore (with_urlLength 76 every_rule_fires) >=
     calculateMLThreatScore (with_urlLength 74 every_rule_fires) + 15).
Proof.
  assert (H0 : rule_sum (with_urlLength 0 every_rule_fires) = 120).
  { unfold rule_sum, every_rule_fires; simpl.
    rewrite (num_gt_true (x:=5) (y:=4.5)) by lra. reflexivity. }
  assert (H1 : rule_sum (with_urlLength 0 quiet_features) = 0).
  { unfold rule_sum, quiet_features; simpl.
    rewrite (num_gt_false (x:=0) (y:=4.5)) by lra. reflexivity. }
  rewrite !score_unclamped.
  rewrite (@score_with_urlLength_low 74) by lia.
  rewrite (@score_with_urlLength_mid 76) by lia.
  rewrite (@score_with_urlLength_mid 99) by lia.
  rewrite (@score_with_urlLength_high 101) by lia.
  rewrite H0, H1. simpl. repeat split; lia.
Qed.

(** C8, amended: with all other features fixed, going from length 74 to 76
    turns a score s into min(100, s + 15); going from 99 to 101 turns a
    score s into min(100, s + 10), the first length rule having fired at 99
    already; relative to length 74 the two length rules together turn s into
    min(100, s + 25) at length 101.  The unclamped sums grow by exactly 15,
    10 and 25, and the score never decreases. *)
Theorem length_step_up_to_clamp (f : MLFeatures) :
  rule_sum (with_urlLength 76 f) = rule_sum (with_urlLength 74 f) + 15 /\
  rule_sum (with_urlLength 101 f) = rule_sum (with_urlLength 99 f) + 10 /\
  rule_sum (with_urlLength 101 f) = rule_sum (with_urlLength 74 f) + 25 /\
  calculateMLThreatScore (with_urlLength 76 f) =
    Z.min 100 (calculateMLThreatScore (with_urlLength 74 f) + 15) /\
  calculateMLThreatScore (with_urlLength 101 f) =
    Z.min 100 (calculateMLThreatScore (with_urlLength 99 f) + 10) /\
  calculateMLThreatScore (with_urlLength 101 f) =
    Z.min 100 (calculateMLThreatScore (with_urlLength 74 f) + 25) /\
  calculateMLThreatScore (with_urlLength 74 f) <=
    calculateMLThreatScore (with_urlLength 76 f) /\
  calculateMLThreatScore (with_urlLength 99 f) <=
    calculateMLThreatScore (with_urlLength 101 f).
Proof.
  rewrite !score_unclamped.
  rewrite (@score_with_urlLength_low 74) by lia.
  rewrite (@score_with_urlLength_mid 76) by lia.
  rewrite (@score_with_urlLength_mid 99) by lia.
  rewrite (@score_with_urlLength_high 101) by lia.
  pose proof (rule_sum_nonneg (with_urlLength 0 f)). lia.
Qed.

(** ** Categories *)

Lemma push_step (b : bool) (cats : list string) (label : string) :
  (if b then cats ++ [label] else cats) = cats ++ labelled b label.
Proof. destruct b; simpl; [reflexivity | now rewrite app_nil_r]. Qed.

Lemma initialCategories_push_order (f : MLFeatures) :
  initialCategories f = push_order_categories f.
Proof.
  unfold initialCategories, push_order_categories.
  rewrite !push_step. simpl. now rewrite <- !app_assoc.
Qed.

Lemma push_table_permutation (f : MLFeatures) :
  Permutation (push_order_categories f) (table_order_categories f).
Proof.
  unfold push_order_categories, table_order_categories.
  set (A := labelled (hasIpAddress f) _).
  set (B := labelled (hasSuspiciousKeywords f) _).
  set (C := labelled (urlLength f >? 100) _).
  set (D := labelled (subdomainCount f >? 3) _).
  set (E := labelled (num_gt (entropyScore f) 4.5) _).
  apply Permutation_trans with (((A ++ B) ++ C) ++ (D ++ E));
    [rewrite <- !app_assoc; apply Permutation_refl |].
  apply Permutation_trans with ((C ++ (A ++ B)) ++ (E ++ D));
    [| rewrite <- !app_assoc; apply Permutation_refl].
  apply Permutation_app; apply Permutation_app_comm.
Qed.

Lemma In_labelled (b : bool) (label x : string) :
  In x (labelled b label) <-> b = true /\ x = label.
Proof.
  destruct b; simpl; split; intros H.
  - destruct H as [H | []]. now split.
  - destruct H as [_ H]. now left.
  - destruct H.
  - destruct H as [H _]. discriminate.
Qed.

(** C4, as stated, fails on the order: for an IP-based URL longer than 100
    characters the scorer lists "IP-based URL" first, the table order lists
    "Abnormally long URL" first. *)
Lemma categories_not_in_table_order :
  initialCategories long_ip_features = ["IP-based URL"; "Abnormally long URL"] /\
  table_order_categories long_ip_features = ["Abnormally long URL"; "IP-based URL"] /\
  initialCategories long_ip_features <> table_order_categories long_ip_features.
Proof.
  assert (H : num_gt (entropyScore long_ip_features) 4.5 = false).
  { apply num_gt_false. simpl. lra. }
  unfold initialCategories, table_order_categories. rewrite H. simpl.
  repeat split. discriminate.
Qed.

(** C4, amended: the category sequence holds exactly the labels of the
    labelled rules that fired, each once, and nothing for the unlabelled
    rules; their order is the order of the push statements: "IP-based URL",
    "Suspicious keywords", "Abnormally long URL", "Excessive subdomains",
    "High entropy". *)
Theorem categories_in_push_order (f : MLFeatures) :
  initialCategories f = push_order_categories f /\
  Permutation (initialCategories f) (table_order_categories f) /\
  (forall label : string,
     In label (initialCategories f) <->
     (hasIpAddress f = true /\ label = "IP-based URL") \/
     (hasSuspiciousKeywords f = true /\ label = "Suspicious keywords") \/
     (urlLength f > 100 /\ label = "Abnormally long URL") \/
     (subdomainCount f > 3 /\ label = "Excessive subdomains") \/
     ((entropyScore f > 4.5)%R /\ label = "High entropy")).
Proof.
  split; [apply initialCategories_push_order |].
  split.
  - rewrite initialCategories_push_order. apply push_table_permutation.
  - intros label. rewrite initialCategories_push_order.
    unfold push_order_categories. rewrite !in_app_iff, !In_labelled.
    rewrite num_gt_iff.
    rewrite !Z.gtb_ltb, !Z.ltb_lt. 
    assert (forall a b : Z, a > b <-> b < a) as Hgt by (intros; lia).
    rewrite !Hgt. tauto.
Qed.

(** ** The store collaborator *)

Lemma checkHistoricalPatterns_eq ilike (domain : string) (w : Store) :
  checkHistoricalPatterns ilike domain w =
  (Normal (historical ilike domain w), after_request w).
Proof.
  unfold checkHistoricalPatterns, historical, after_request, try_catch,
    await_select, bind, next_fault, first_fault, ret, throw.
  destruct w as [rows logs fs nid clk]; simpl.
  destruct fs as [| [ | | ] fs]; reflexivity.
Qed.

(** A [try] whose handler cannot throw completes normally. *)
Lemma try_catch_normal {A} (body handler : M A) (w : Store) :
  (forall w1, exists a w2, handler w1 = (Normal a, w2)) ->
  exists a w', try_catch body handler w = (Normal a, w').
Proof.
  intros Hh. unfold try_catch.
  destruct (body w) as [[a |] w1]; [now exists a, w1 | apply Hh].
Qed.

Lemma ret_normal {A} (a : A) (w : Store) : exists b w', ret a w = (Normal b, w').
Proof. now exists a, w. Qed.

(** Every path through [updateMLPatterns] completes normally. *)
Lemma updateMLPatterns_normal (domain : string) (feat : MLFeatures) (p : R) (w : Store) :
  fst (updateMLPatterns domain feat p w) = Normal tt.
Proof.
  unfold updateMLPatterns.
  match goal with
  | |- fst (try_catch ?body ?handler w) = _ =>
      destruct (@try_catch_normal _ body handler w (ret_normal tt))
        as ([] & w' & ->)
  end.
  reflexivity.
Qed.

Lemma classification_body_eq ilike (feat : MLFeatures) (domain : string) (w : Store) :
  fst (classification_body ilike feat domain w) =
  Normal (blend (IZR (calculateMLThreatScore feat) / 100)
            (initialCategories feat) (historical ilike domain w)).
Proof.
  unfold classification_body, bind. rewrite checkHistoricalPatterns_eq.
  match goal with
  | |- context [updateMLPatterns ?d ?f ?p ?s] =>
      pose proof (updateMLPatterns_normal d f p s) as Hu;
      destruct (updateMLPatterns d f p s) as [[[] |] w']; simpl in Hu; try discriminate
  end.
  unfold blend, ret; simpl.
  destruct (historical ilike domain w) as [h |]; [| reflexivity].
  rewrite Math_min_confidence.
  destruct (is_phishing_type (pattern_type h)); rewrite ?app_nil_r; reflexivity.
Qed.

Lemma performMLClassification_eq URL_hostname ilike (url domain : string) (w : Store) :
  fst (performMLClassification URL_hostname ilike url domain w) =
  Normal (blend (IZR (calculateMLThreatScore (extractMLFeatures URL_hostname url)) / 100)
            (initialCategories (extractMLFeatures URL_hostname url))
            (historical ilike domain w)).
Proof.
  unfold performMLClassification, try_catch.
  pose proof (classification_body_eq ilike (extractMLFeatures URL_hostname url) domain w) as H.
  cbv zeta.
  destruct (classification_body ilike (extractMLFeatures URL_hostname url) domain w)
    as [[a |] w']; simpl in *; [assumption | discriminate].
Qed.

Lemma top_confidence_In (rows : list PatternRow) (r : PatternRow) :
  In r (top_confidence rows) -> In r rows.
Proof.
  induction rows as [| x rest IH]; simpl; [tauto |].
  destruct (top_confidence rest) as [| b bs] eqn:E.
  - simpl. tauto.
  - destruct (Rlt_dec (confidence_score x) (confidence_score b)); simpl.
    + intros [<- | []]. right. apply IH. now left.
    + tauto.
Qed.

Lemma maybeSingle_Some (rows : list PatternRow) (r : PatternRow) :
  maybeSingle rows = Some r <-> rows = [r].
Proof.
  destruct rows as [| x [| y rest]]; simpl; split; intros H;
    try discriminate; congruence.
Qed.

Lemma historical_query_In ilike (domain : string) (rows : list PatternRow) (r : PatternRow) :
  historical_query ilike domain rows = Some r -> In r rows.
Proof.
  unfold historical_query. intros H. apply maybeSingle_Some in H.
  assert (Hin : In r (top_confidence
            (filter (fun x => ilike (url_pattern x) ("%" ++ domain ++ "%")%string) rows)))
    by (rewrite H; now left).
  apply top_confidence_In in Hin. now apply filter_In in Hin.
Qed.

Lemma historical_In ilike (domain : string) (w : Store) (h : PatternRow) :
  historical ilike domain w = Some h -> In h (ml_patterns w).
Proof.
  unfold historical. destruct (first_fault w); try discriminate.
  apply historical_query_In.
Qed.

Lemma historical_absent_on_fault ilike (domain : string) (w : Store) :
  first_fault w <> Succeeds -> historical ilike domain w = None.
Proof. unfold historical. destruct (first_fault w); congruence. Qed.

Lemma raw_probability_range (f : MLFeatures) :
  (0 <= IZR (calculateMLThreatScore f) / 100 <= 1)%R.
Proof.
  pose proof (rule_sum_nonneg f) as H. rewrite score_unclamped.
  assert (H1 : 0 <= Z.min 100 (rule_sum f) <= 100) by lia.
  destruct H1 as [Hlo Hhi]. apply IZR_le in Hlo, Hhi. lra.
Qed.

Lemma classification_body_normal ilike (feat : MLFeatures) (domain : string) (w : Store) :
  exists a w', classification_body ilike feat domain w = (Normal a, w').
Proof.
  pose proof (classification_body_eq ilike feat domain w) as H.
  destruct (classification_body ilike feat domain w) as [[a |] w']; simpl in H;
    [now exists a, w' | discriminate].
Qed.

(** The outer handler is never entered. *)
Lemma performMLClassification_body URL_hostname ilike (url domain : string) (w : Store) :
  performMLClassification URL_hostname ilike url domain w =
  classification_body ilike (extractMLFeatures URL_hostname url) domain w.
Proof.
  unfold performMLClassification, try_catch. cbv zeta.
  destruct (classification_body_normal ilike (extractMLFeatures URL_hostname url) domain w)
    as (a & w' & ->).
  reflexivity.
Qed.

(** C2: the classifier runs its body on the features of the input, and for
    every feature set the body blends the raw probability p (the score over
    100) with what the lookup returned: without a record the assessment has
    probability p and confidence 0.75; with a record it has probability
    (p + confidence_score) / 2, confidence 0.90 (= min(0.95, 0.75 + 0.15)),
    and "Known phishing pattern" appended exactly when the record's type is
    phishing; isPhishing holds exactly when the blended probability is
    strictly above 0.5, so 0.5 itself gives false. *)
Theorem blending_law URL_hostname ilike (feat : MLFeatures) (url domain : string) (w : Store) :
  let p := (IZR (calculateMLThreatScore feat) / 100)%R in
  performMLClassification URL_hostname ilike url domain w =
    classification_body ilike (extractMLFeatures URL_hostname url) domain w /\
  exists a w',
    classification_body ilike feat domain w = (Normal a, w') /\
    match fst (checkHistoricalPatterns ilike domain w) with
    | Normal None =>
        threatProbability a = p /\ confidence a = 0.75%R /\
        predictedCategories a = initialCategories feat
    | Normal (Some h) =>
        threatProbability a = ((p + confidence_score h) / 2)%R /\
        confidence a = 0.9%R /\ Math_min 0.95 (0.75 + 0.15) = 0.9%R /\
        predictedCategories a =
          initialCategories feat ++
          (if is_phishing_type (pattern_type h) then ["Known phishing pattern"] else []) /\
        (is_phishing_type (pattern_type h) = true <-> pattern_type h = phishing)
    | Throw => False
    end /\
    (isPhishing a = true <-> (threatProbability a > 0.5)%R) /\
    (threatProbability a = 0.5%R -> isPhishing a = false).
Proof.
  intros p. split; [apply performMLClassification_body |].
  pose proof (classification_body_eq ilike feat domain w) as H.
  destruct (classification_body ilike feat domain w) as [c w'].
  simpl in H. subst c. fold p.
  eexists; exists w'. split; [reflexivity |].
  rewrite checkHistoricalPatterns_eq; simpl.
  destruct (historical ilike domain w) as [h |]; simpl.
  - split; [| split].
    + repeat split; try apply Math_min_confidence.
      * destruct (pattern_type h); simpl; congruence.
      * intros ->. reflexivity.
    + apply num_gt_iff.
    + intros ->. apply num_gt_false. lra.
  - split; [| split].
    + repeat split.
    + apply num_gt_iff.
    + intros ->. apply num_gt_false. lra.
Qed.

Lemma historical_with_script ilike (domain : string) (w : Store) (rest : list Fault) :
  historical ilike domain (with_script (first_fault w :: rest) w) =
  historical ilike domain w.
Proof. reflexivity. Qed.

(** *** The CHECK constraint is an invariant *)

Lemma keeps_ret {A} (a : A) (Q : A -> Prop) : Q a -> keeps_check (ret a) Q.
Proof. intros HQ w Hw. split; [assumption |]. simpl. intros b [= <-]. exact HQ. Qed.

Lemma keeps_throw {A} (Q : A -> Prop) : keeps_check (@throw A) Q.
Proof. intros w Hw. split; [assumption |]. simpl. discriminate. Qed.

Lemma keeps_bind {A B} (c : M A) (k : A -> M B) (Q : A -> Prop) (Q' : B -> Prop) :
  keeps_check c Q -> (forall a, Q a -> keeps_check (k a) Q') ->
  keeps_check (bind c k) Q'.
Proof.
  intros Hc Hk w Hw. unfold bind. destruct (Hc w Hw) as [Hw1 Ha].
  destruct (c w) as [[a |] w1]; simpl in *.
  - apply (Hk a (Ha a eq_refl) w1 Hw1).
  - split; [assumption | discriminate].
Qed.

Lemma keeps_try_catch {A} (body handler : M A) (Q : A -> Prop) :
  keeps_check body Q -> keeps_check handler Q ->
  keeps_check (try_catch body handler) Q.
Proof.
  intros Hb Hh w Hw. unfold try_catch. destruct (Hb w Hw) as [Hw1 Ha].
  destruct (body w) as [[a |] w1]; simpl in *.
  - split; [assumption |]. intros b [= <-]. now apply Ha.
  - apply (Hh w1 Hw1).
Qed.

Lemma keeps_weaken {A} (c : M A) (Q Q' : A -> Prop) :
  keeps_check c Q -> (forall a, Q a -> Q' a) -> keeps_check c Q'.
Proof.
  intros Hc HQ w Hw. destruct (Hc w Hw) as [Hw1 Ha].
  split; [assumption |]. intros a E. apply HQ, Ha, E.
Qed.

Lemma keeps_next_fault : keeps_check next_fault (fun _ => True).
Proof.
  intros w Hw. unfold next_fault.
  destruct (script w); simpl; split; trivial.
Qed.

Lemma keeps_await_select (query : list PatternRow -> option PatternRow) :
  (forall rows r, query rows = Some r -> In r rows) ->
  keeps_check (await_select query)
    (fun o => forall r, o = Some r -> (0 <= confidence_score r <= 1)%R).
Proof.
  intros Hq. unfold await_select.
  apply keeps_bind with (Q := fun _ => True); [apply keeps_next_fault |].
  intros [ | | ] _.
  - intros w Hw. simpl. split; [assumption |].
    intros o [= <-] r Hr. apply Hq in Hr.
    unfold store_checked in Hw. rewrite Forall_forall in Hw. now apply Hw.
  - apply keeps_ret. discriminate.
  - apply keeps_throw.
Qed.

Lemma keeps_await_write (change : Store -> Store) :
  (forall w, store_checked w -> store_checked (change w)) ->
  keeps_check (await_write change) (fun _ => True).
Proof.
  intros Hch. unfold await_write.
  apply keeps_bind with (Q := fun _ => True); [apply keeps_next_fault |].
  intros [ | | ] _.
  - intros w Hw. simpl. split; [now apply Hch | trivial].
  - now apply keeps_ret.
  - apply keeps_throw.
Qed.

Lemma db_update_checked (r : PatternRow) (count now : Z) (conf : R) (feat : MLFeatures) (w : Store) :
  (0 <= conf <= 1)%R -> store_checked w ->
  store_checked (db_update r count now conf feat w).
Proof.
  unfold store_checked, db_update; simpl. intros Hc Hw.
  rewrite Forall_forall in *. intros x Hx. apply in_map_iff in Hx.
  destruct Hx as (y & <- & Hy). destruct (N.eqb (id y) (id r)); simpl; auto.
Qed.

Lemma db_insert_checked (domain : string) (ty : PatternType) (conf : R) (count : Z)
    (feat : MLFeatures) (w : Store) :
  (0 <= conf <= 1)%R -> store_checked w ->
  store_checked (db_insert domain ty conf count feat w).
Proof.
  unfold store_checked, db_insert; simpl. intros Hc Hw.
  apply Forall_app. split; [assumption |].
  constructor; [simpl; lra | constructor].
Qed.

Lemma existing_query_In (domain : string) (rows : list PatternRow) (r : PatternRow) :
  existing_query domain rows = Some r -> In r rows.
Proof.
  unfold existing_query. intros H. apply maybeSingle_Some in H.
  assert (Hin : In r (filter (fun x => string_eqb (url_pattern x) domain) rows))
    by (rewrite H; now left).
  now apply filter_In in Hin.
Qed.

Lemma updateMLPatterns_keeps_check (domain : string) (feat : MLFeatures) (p : R) :
  (0 <= p <= 1)%R ->
  keeps_check (updateMLPatterns domain feat p) (fun _ => True).
Proof.
  intros Hp. unfold updateMLPatterns.
  apply keeps_try_catch; [| now apply keeps_ret].
  eapply keeps_bind; [apply keeps_await_select, existing_query_In |].
  intros existing Hex.
  apply keeps_bind with (Q := fun _ => True).
  - destruct existing as [e |].
    + specialize (Hex e eq_refl).
      apply keeps_bind with (Q := fun _ => True).
      * intros w Hw. simpl. split; trivial.
      * intros now _. apply keeps_await_write. intros w Hw.
        apply db_update_checked; [lra | assumption].
    + apply keeps_await_write. intros w Hw. now apply db_insert_checked.
  - intros _ _. apply keeps_await_write. intros w Hw. exact Hw.
Qed.

Lemma performMLClassification_keeps_check URL_hostname ilike (url domain : string) :
  keeps_check (performMLClassification URL_hostname ilike url domain) (fun _ => True).
Proof.
  unfold performMLClassification. cbv zeta.
  apply keeps_try_catch; [| now apply keeps_ret].
  unfold classification_body.
  pose proof (raw_probability_range (extractMLFeatures URL_hostname url)) as Hp.
  eapply keeps_bind.
  - unfold checkHistoricalPatterns. apply keeps_try_catch.
    + eapply keeps_bind; [apply keeps_await_select, historical_query_In |].
      intros data Hd. apply keeps_ret. exact Hd.
    + apply keeps_ret. discriminate.
  - intros h Hh. cbv beta.
    apply keeps_bind with (Q := fun _ => True); [| intros; now apply keeps_ret].
    apply updateMLPatterns_keeps_check.
    destruct h as [h |]; [specialize (Hh h eq_refl); lra | assumption].
Qed.

(** C9: the classifier never raises.  Whatever the input, the store and the
    fate of its requests, it returns an assessment; the score is in [0,100],
    the confidence in [0,1], and the probability in [0,1] when the stored
    confidences respect the column's CHECK constraint.  A lookup that fails
    or rejects is taken as "no record": the raw probability and the
    confidence 0.75 are returned.  The fate of the requests of the update
    never changes the assessment, and the store left behind respects the
    CHECK constraint again. *)
Theorem classification_never_raises URL_hostname ilike (url domain : string) (w : Store) :
  store_checked w ->
  let feat := extractMLFeatures URL_hostname url in
  let p := (IZR (calculateMLThreatScore feat) / 100)%R in
  exists a w',
    performMLClassification URL_hostname ilike url domain w = (Normal a, w') /\
    0 <= calculateMLThreatScore feat <= 100 /\
    (0 <= threatProbability a <= 1)%R /\
    (0 <= confidence a <= 1)%R /\
    (first_fault w <> Succeeds ->
     fst (checkHistoricalPatterns ilike domain w) = Normal None /\
     a = {| isPhishing := num_gt p 0.5; confidence := 0.75%R;
            threatProbability := p;
            predictedCategories := initialCategories feat |}) /\
    (forall rest : list Fault,
       fst (performMLClassification URL_hostname ilike url domain
              (with_script (first_fault w :: rest) w)) = Normal a) /\
    store_checked w'.
Proof.
  intros Hck feat p.
  pose proof (performMLClassification_eq URL_hostname ilike url domain w) as H.
  destruct (performMLClassification_keeps_check URL_hostname ilike url domain Hck)
    as [Hck' _].
  destruct (performMLClassification URL_hostname ilike url domain w) as [c w'].
  simpl in H, Hck'. subst c. fold feat in p. fold feat. fold p.
  eexists; exists w'. split; [reflexivity |].
  pose proof (raw_probability_range feat) as Hp. fold p in Hp.
  pose proof (rule_sum_nonneg feat) as Hs.
  split; [rewrite score_unclamped; lia |].
  split; [| split; [| split]].
  - unfold blend. destruct (historical ilike domain w) as [h |] eqn:Hh; simpl.
    + apply historical_In in Hh.
      unfold store_checked in Hck. rewrite Forall_forall in Hck.
      specialize (Hck h Hh). lra.
    + lra.
  - unfold blend. destruct (historical ilike domain w); simpl; lra.
  - intros Hf. rewrite checkHistoricalPatterns_eq; simpl.
    rewrite (historical_absent_on_fault ilike domain w Hf). split; reflexivity.
  - split; [| exact Hck'].
    intros rest. rewrite performMLClassification_eq.
    rewrite historical_with_script. reflexivity.
Qed.

Lemma store_checked_first_scan : store_checked first_scan_store.
Proof.
  unfold store_checked, first_scan_store; simpl.
  constructor; [simpl; lra | constructor].
Qed.

(** C10: the dot count is computed by the extractor (the number of dots of
    the raw string) but changing it alone changes neither the score, nor the
    categories, nor the assessment returned, hence not the phishing
    decision. *)
Theorem numDots_never_used URL_hostname ilike (f : MLFeatures) (d : Z)
    (url domain : string) (w : Store) :
  numDots (extractMLFeatures URL_hostname url) = count_matches cls_dot url /\
  calculateMLThreatScore (with_numDots d f) = calculateMLThreatScore f /\
  initialCategories (with_numDots d f) = initialCategories f /\
  fst (classification_body ilike (with_numDots d f) domain w) =
    fst (classification_body ilike f domain w).
Proof.
  split; [reflexivity |]. split; [reflexivity |]. split; [reflexivity |].
  rewrite !classification_body_eq. reflexivity.
Qed.

(** ** The upsert *)


Lemma updateMLPatterns_all_succeed (domain : string) (feat : MLFeatures) (b : R) (w : Store) :
  script w = [] ->
  snd (updateMLPatterns domain feat b w) =
  db_log {| log_url := domain; log_pattern_type := derive_patternType b;
            log_threat_probability := b; log_features := feat |}
    match existing_query domain (ml_patterns w) with
    | Some r =>
        db_update r (detection_count r + 1) (clock w)
          ((confidence_score r + b) / 2) feat w
    | None => db_insert domain (derive_patternType b) b 1 feat w
    end.
Proof.
  destruct w as [rows logs fs nid clk]; simpl. intros ->.
  unfold updateMLPatterns, try_catch, bind, await_select, await_write,
    next_fault, Date_now, ret; simpl.
  destruct (existing_query domain rows); reflexivity.
Qed.



Lemma existing_query_several (domain : string) (rows : list PatternRow) :
  (2 <= List.length (filter (fun r => string_eqb (url_pattern r) domain) rows))%nat ->
  existing_query domain rows = None.
Proof.
  unfold existing_query. intros H.
  destruct (filter _ rows) as [| x [| y l]]; simpl in *; try lia. reflexivity.
Qed.




(** ** Strings *)

Lemma append_assoc (a b c : string) : ((a ++ b) ++ c = a ++ (b ++ c))%string.
Proof. induction a as [| x a IH]; simpl; [reflexivity | now rewrite IH]. Qed.

Lemma append_nil_r (a : string) : (a ++ "")%string = a.
Proof. induction a as [| x a IH]; simpl; [reflexivity | now rewrite IH]. Qed.

Lemma append_eq_nil (a b : string) : (a ++ b)%string = EmptyString -> a = EmptyString /\ b = EmptyString.
Proof. destruct a; simpl; intros H; [now split | discriminate]. Qed.

Lemma count_matches_app (cls : ascii -> bool) (a b : string) :
  count_matches cls (a ++ b) = count_matches cls a + count_matches cls b.
Proof. induction a as [| x a IH]; simpl; [reflexivity | rewrite IH; lia]. Qed.

Lemma count_matches_nonneg (cls : ascii -> bool) (s : string) : 0 <= count_matches cls s.
Proof. induction s as [| x s IH]; simpl; [lia | destruct (cls x); lia]. Qed.

Lemma split_not_nil (sep : ascii) (s : string) : split sep s <> [].
Proof.
  destruct s as [| c s]; simpl; [discriminate |].
  destruct (Ascii.eqb c sep); [discriminate |].
  destruct (split sep s); discriminate.
Qed.

(** [split] yields one more piece than there are separators. *)
Lemma split_length (sep : ascii) (s : string) :
  Z.of_nat (List.length (split sep s)) =
  count_matches (fun c => Ascii.eqb c sep) s + 1.
Proof.
  induction s as [| c s IH]; [reflexivity |].
  cbn [split count_matches].
  destruct (Ascii.eqb c sep).
  - cbn [List.length]. rewrite Nat2Z.inj_succ, IH. lia.
  - pose proof (split_not_nil sep s) as Hne.
    destruct (split sep s) as [| p ps]; [congruence |].
    cbn [List.length] in *. cbv iota. lia.
Qed.

(** The first piece is the part of the string before the first separator. *)
Lemma split_hd (sep : ascii) (s : string) :
  exists rest : string,
    s = (hd EmptyString (split sep s) ++ rest)%string /\
    count_matches (fun c => Ascii.eqb c sep) (hd EmptyString (split sep s)) = 0 /\
    (rest = EmptyString \/ exists r, rest = String sep r).
Proof.
  induction s as [| c s (rest & Hs & Hc & Hr)].
  - exists EmptyString. simpl. repeat split. now left.
  - cbn [split]. destruct (Ascii.eqb c sep) eqn:E.
    + exists (String c s). simpl. repeat split. right. exists s.
      apply Ascii.eqb_eq in E. now subst.
    + pose proof (split_not_nil sep s) as Hne.
      destruct (split sep s) as [| p ps]; [congruence |].
      simpl in *. exists rest. rewrite E. repeat split; try assumption.
      now rewrite <- Hs.
Qed.

(** ** Depth features *)

(** C7, as stated, fails for the path depth: the pieces of the whole raw
    input are counted, scheme and host included.  For
    "https://example.com/a/b/c" the code answers 3; the path "/a/b/c" left
    after removing scheme and host has 4 pieces between slashes and 3
    segments, so the claim's formula gives 2 or 1. *)
Lemma pathDepth_counterexample :
  pathDepth (extractMLFeatures example_URL_hostname "https://example.com/a/b/c") = 3 /\
  path_pieces "https://example.com/a/b/c" = [""; "a"; "b"; "c"] /\
  path_segments "https://example.com/a/b/c" = ["a"; "b"; "c"] /\
  pathDepth (extractMLFeatures example_URL_hostname "https://example.com/a/b/c") <>
    Z.max 0 (Z.of_nat (List.length (path_pieces "https://example.com/a/b/c")) - 2) /\
  pathDepth (extractMLFeatures example_URL_hostname "https://example.com/a/b/c") <>
    Z.max 0 (Z.of_nat (List.length (path_segments "https://example.com/a/b/c")) - 2).
Proof. repeat split; try reflexivity; simpl; discriminate. Qed.

(** C7, amended: pathDepth is max(0, k - 2) where k is the number of "/"
    in the whole raw input (that is, the pieces of the raw input minus 3),
    scheme and host not removed: for an input "scheme://rest" the two
    slashes of the scheme are counted, and pathDepth is the number of "/"
    in the rest plus those in the scheme.  subdomainCount is max(0, number
    of dot-separated labels of the host - 2). *)
Theorem depth_features URL_hostname (url : string) :
  pathDepth (extractMLFeatures URL_hostname url) =
    Z.max 0 (Z.of_nat (List.length (split "/" url)) - 3) /\
  pathDepth (extractMLFeatures URL_hostname url) =
    Z.max 0 (count_matches is_slash url - 2) /\
  (forall scheme rest : string,
     pathDepth (extractMLFeatures URL_hostname (scheme ++ "://" ++ rest)%string) =
       Z.max 0 (count_matches is_slash scheme + count_matches is_slash rest)) /\
  subdomainCount (extractMLFeatures URL_hostname url) =
    Z.max 0 (Z.of_nat (List.length (split "." (hostname_of URL_hostname url))) - 2) /\
  subdomainCount (extractMLFeatures URL_hostname url) =
    Z.max 0 (count_matches cls_dot (hostname_of URL_hostname url) - 1).
Proof.
  assert (Hd : forall u, pathDepth (extractMLFeatures URL_hostname u) =
                         Z.max 0 (count_matches is_slash u - 2)).
  { intros u. change (pathDepth (extractMLFeatures URL_hostname u))
      with (Z.max 0 (Z.of_nat (List.length (split "/" u)) - 3)).
    rewrite split_length. unfold is_slash. f_equal. lia. }
  split; [reflexivity |]. split; [apply Hd |]. split.
  - intros scheme rest. rewrite Hd, !count_matches_app.
    change (count_matches is_slash "://") with 2. f_equal. lia.
  - split; [reflexivity |].
    change (subdomainCount (extractMLFeatures URL_hostname url))
      with (Z.max 0 (Z.of_nat (List.length (split "." (hostname_of URL_hostname url))) - 2)).
    rewrite split_length. unfold cls_dot. f_equal. lia.
Qed.

(** ** The pattern matcher *)

Lemma lang_void_inv (s : string) : lang Void s -> False.
Proof. intros H. inversion H. Qed.

Lemma lang_eps_inv (s : string) : lang Eps s -> s = EmptyString.
Proof. intros H. now inversion H. Qed.

Lemma lang_class_inv (cls : ascii -> bool) (s : string) :
  lang (Class cls) s -> exists c, s = String c EmptyString /\ cls c = true.
Proof. intros H. inversion H; subst. eauto. Qed.

Lemma lang_seq_inv (r1 r2 : regex) (s : string) :
  lang (Seq r1 r2) s ->
  exists s1 s2, s = (s1 ++ s2)%string /\ lang r1 s1 /\ lang r2 s2.
Proof. intros H. inversion H; subst. eauto. Qed.

Lemma lang_alt_inv (r1 r2 : regex) (s : string) :
  lang (Alt r1 r2) s -> lang r1 s \/ lang r2 s.
Proof. intros H. inversion H; subst; tauto. Qed.

Lemma nullable_lang (r : regex) : nullable r = true <-> lang r EmptyString.
Proof.
  induction r as [| | cls | r1 IH1 r2 IH2 | r1 IH1 r2 IH2]; simpl.
  - split; [discriminate | intros H; destruct (lang_void_inv H)].
  - split; [constructor | reflexivity].
  - split; [discriminate |].
    intros H. apply lang_class_inv in H. destruct H as (c & Hc & _). discriminate.
  - rewrite andb_true_iff, IH1, IH2. split.
    + intros [H1 H2]. apply (lang_seq H1 H2).
    + intros H. apply lang_seq_inv in H. destruct H as (s1 & s2 & Hs & H1 & H2).
      symmetry in Hs. apply append_eq_nil in Hs. destruct Hs; subst. now split.
  - rewrite orb_true_iff, IH1, IH2. split.
    + intros [H | H]; [now apply lang_alt_l | now apply lang_alt_r].
    + apply lang_alt_inv.
Qed.

Lemma deriv_lang (c : ascii) (r : regex) :
  forall s, lang (deriv c r) s <-> lang r (String c s).
Proof.
  induction r as [| | cls | r1 IH1 r2 IH2 | r1 IH1 r2 IH2]; intros s; simpl.
  - split; intros H; destruct (lang_void_inv H).
  - split; intros H; [destruct (lang_void_inv H) |].
    apply lang_eps_inv in H. discriminate.
  - destruct (cls c) eqn:E; split; intros H.
    + apply lang_eps_inv in H. subst. now constructor.
    + apply lang_class_inv in H. destruct H as (c' & Hc & _).
      injection Hc as _ ->. constructor.
    + destruct (lang_void_inv H).
    + apply lang_class_inv in H. destruct H as (c' & Hc & Hcls).
      injection Hc as -> _. congruence.
  - assert (Hleft : forall t, lang (Seq (deriv c r1) r2) t -> lang (Seq r1 r2) (String c t)).
    { intros t H. apply lang_seq_inv in H. destruct H as (s1 & s2 & -> & H1 & H2).
      apply IH1 in H1. apply (lang_seq H1 H2). }
    assert (Hback : lang (Seq r1 r2) (String c s) ->
                    lang (Seq (deriv c r1) r2) s \/
                    (nullable r1 = true /\ lang (deriv c r2) s)).
    { intros H. apply lang_seq_inv in H. destruct H as (s1 & s2 & Hs & H1 & H2).
      destruct s1 as [| c1 s1]; simpl in Hs.
      - right. subst s2. split; [now apply nullable_lang | now apply IH2].
      - left. injection Hs as -> ->. apply lang_seq; [now apply IH1 | assumption]. }
    destruct (nullable r1) eqn:E; split; intros H.
    + apply lang_alt_inv in H. destruct H as [H | H]; [now apply Hleft |].
      apply IH2 in H. apply nullable_lang in E.
      apply (lang_seq E H).
    + destruct (Hback H) as [H' | [_ H']]; [now apply lang_alt_l | now apply lang_alt_r].
    + now apply Hleft.
    + destruct (Hback H) as [H' | [H' _]]; [assumption | discriminate].
  - split; intros H.
    + apply lang_alt_inv in H.
      destruct H as [H | H]; [apply lang_alt_l, IH1 | apply lang_alt_r, IH2]; assumption.
    + apply lang_alt_inv in H.
      destruct H as [H | H]; [apply lang_alt_l, IH1 | apply lang_alt_r, IH2]; assumption.
Qed.

Lemma match_here_spec (s : string) :
  forall r, match_here r s = true <->
            exists m post, s = (m ++ post)%string /\ lang r m.
Proof.
  induction s as [| c s IH]; intros r; simpl.
  - rewrite orb_false_r, nullable_lang. split.
    + intros H. now exists EmptyString, EmptyString.
    + intros (m & post & Hs & H). symmetry in Hs. apply append_eq_nil in Hs.
      destruct Hs; now subst.
  - rewrite orb_true_iff, nullable_lang, IH. split.
    + intros [H | (m & post & -> & H)].
      * now exists EmptyString, (String c s).
      * exists (String c m), post. split; [reflexivity | now apply deriv_lang].
    + intros (m & post & Hs & H). destruct m as [| c' m]; [now left |].
      right. simpl in Hs. injection Hs as <- ->.
      exists m, post. split; [reflexivity | now apply deriv_lang].
Qed.

(** [test] succeeds exactly when some substring is in the language. *)
Lemma regex_test_spec (r : regex) (s : string) :
  regex_test r s = true <->
  exists pre m post, s = (pre ++ m ++ post)%string /\ lang r m.
Proof.
  induction s as [| c s IH]; cbn [regex_test].
  - rewrite orb_false_r, match_here_spec. split.
    + intros (m & post & Hs & H). now exists EmptyString, m, post.
    + intros (pre & m & post & Hs & H).
      symmetry in Hs. apply append_eq_nil in Hs. destruct Hs as [-> Hs].
      exists m, post. now split.
  - rewrite orb_true_iff, match_here_spec, IH. split.
    + intros [(m & post & Hs & H) | (pre & m & post & -> & H)].
      * now exists EmptyString, m, post.
      * now exists (String c pre), m, post.
    + intros (pre & m & post & Hs & H). destruct pre as [| c' pre]; simpl in Hs.
      * left. now exists m, post.
      * right. injection Hs as <- ->. now exists pre, m, post.
Qed.

Lemma lang_digit_inv (s : string) :
  lang (Class is_digit) s -> exists c, s = String c EmptyString /\ is_digit c = true.
Proof. apply lang_class_inv. Qed.

Lemma lang_re_digits (a : string) : lang re_digits a <-> digits_1_3 a.
Proof.
  unfold re_digits, rep_1_3, digits_1_3. split.
  - intros H. apply lang_seq_inv in H. destruct H as (s1 & s2 & -> & H1 & H2).
    apply lang_digit_inv in H1. destruct H1 as (c1 & -> & E1).
    apply lang_alt_inv in H2. destruct H2 as [H2 | H2].
    + apply lang_eps_inv in H2. subst. simpl. rewrite E1. split; [lia | reflexivity].
    + apply lang_seq_inv in H2. destruct H2 as (s3 & s4 & -> & H3 & H4).
      apply lang_digit_inv in H3. destruct H3 as (c2 & -> & E2).
      apply lang_alt_inv in H4. destruct H4 as [H4 | H4].
      * apply lang_eps_inv in H4. subst. simpl. rewrite E1, E2. split; [lia | reflexivity].
      * apply lang_digit_inv in H4. destruct H4 as (c3 & -> & E3).
        simpl. rewrite E1, E2, E3. split; [lia | reflexivity].
  - intros [Hlen Hd].
    destruct a as [| c1 [| c2 [| c3 [| c4 a]]]]; simpl in Hlen; try lia; simpl in Hd;
      repeat (apply andb_true_iff in Hd; destruct Hd as [? Hd]).
    + apply (lang_seq (s1:=String c1 "") (s2:="")); [now constructor |].
      apply lang_alt_l. constructor.
    + apply (lang_seq (s1:=String c1 "") (s2:=String c2 "")); [now constructor |].
      apply lang_alt_r.
      apply (lang_seq (s1:=String c2 "") (s2:="")); [now constructor |].
      apply lang_alt_l. constructor.
    + apply (lang_seq (s1:=String c1 "") (s2:=String c2 (String c3 ""))); [now constructor |].
      apply lang_alt_r.
      apply (lang_seq (s1:=String c2 "") (s2:=String c3 "")); [now constructor |].
      apply lang_alt_r. now constructor.
Qed.

Lemma lang_re_dot (s : string) : lang re_dot s <-> s = ".".
Proof.
  unfold re_dot. split.
  - intros H. apply lang_class_inv in H. destruct H as (c & -> & E).
    unfold cls_dot in E. apply Ascii.eqb_eq in E. now subst.
  - intros ->. now constructor.
Qed.

Lemma lang_ip_regex (m : string) : lang ip_regex m <-> dotted_quad m.
Proof.
  unfold ip_regex, dotted_quad. split.
  - intros H.
    apply lang_seq_inv in H. destruct H as (a & t1 & -> & Ha & H).
    apply lang_seq_inv in H. destruct H as (d1 & t2 & -> & Hd1 & H).
    apply lang_seq_inv in H. destruct H as (b & t3 & -> & Hb & H).
    apply lang_seq_inv in H. destruct H as (d2 & t4 & -> & Hd2 & H).
    apply lang_seq_inv in H. destruct H as (c & t5 & -> & Hc & H).
    apply lang_seq_inv in H. destruct H as (d3 & d & -> & Hd3 & Hd).
    apply lang_re_dot in Hd1, Hd2, Hd3. subst.
    apply lang_re_digits in Ha, Hb, Hc, Hd.
    now exists a, b, c, d.
  - intros (a & b & c & d & -> & Ha & Hb & Hc & Hd).
    apply lang_re_digits in Ha, Hb, Hc, Hd.
    repeat (apply lang_seq; [assumption || now apply lang_re_dot |]).
    assumption.
Qed.

Lemma regex_test_ip (s : string) :
  regex_test ip_regex s = true <-> contains_dotted_quad s.
Proof.
  rewrite regex_test_spec. unfold contains_dotted_quad.
  split; intros (pre & m & post & Hs & H); exists pre, m, post;
    (split; [assumption | now apply lang_ip_regex]).
Qed.

(** ** Host and IP features *)

(** C6, as stated, fails.  The IP test runs on the whole raw string: for
    "https://example.com/1.2.3.4" the host is "example.com", which is no
    dotted quad, and hasIpAddress is true.  And for "1.2.3.4 a.b.c", whose
    prefixed form the parser rejects, the fallback host is the whole string:
    subdomainCount is 4 and hasIpAddress is true. *)
Lemma ip_outside_host_counterexample :
  hostname_of example_URL_hostname "https://example.com/1.2.3.4" = "example.com" /\
  host_matches_ipv4 "example.com" = false /\
  hasIpAddress (extractMLFeatures example_URL_hostname "https://example.com/1.2.3.4") = true /\
  example_URL_hostname "https://1.2.3.4 a.b.c" = None /\
  hostname_of example_URL_hostname "1.2.3.4 a.b.c" = "1.2.3.4 a.b.c" /\
  subdomainCount (extractMLFeatures example_URL_hostname "1.2.3.4 a.b.c") = 4 /\
  hasIpAddress (extractMLFeatures example_URL_hostname "1.2.3.4 a.b.c") = true /\
  ~ (hasIpAddress (extractMLFeatures example_URL_hostname "https://example.com/1.2.3.4") = true <->
     host_matches_ipv4
       (hostname_of example_URL_hostname "https://example.com/1.2.3.4") = true).
Proof.
  repeat split; try reflexivity.
  intros [H _]. specialize (H eq_refl). discriminate.
Qed.

(** C6, amended: the host is what the parser returns for the input, prefixed
    with "https://" when the input does not start with "http", and, when the
    parser fails, the part of the input before its first "/".  hasIpAddress
    is true exactly when the whole raw input contains a dotted quad
    somewhere, in the host or after it, whatever the parser answers.  The
    extractor is total; when the parser fails, subdomainCount is max(0,
    number of dot-separated labels of the fallback host - 2). *)
Theorem host_and_ip_features URL_hostname (url : string) :
  let href := if startsWith url "http" then url else ("https://" ++ url)%string in
  let fallback := hd EmptyString (split "/" url) in
  hostname_of URL_hostname url =
    match URL_hostname href with Some h => h | None => fallback end /\
  (exists rest : string,
     url = (fallback ++ rest)%string /\
     count_matches is_slash fallback = 0 /\
     (rest = EmptyString \/ exists r, rest = String "/" r)) /\
  (hasIpAddress (extractMLFeatures URL_hostname url) = true <->
   contains_dotted_quad url) /\
  (forall other_parser : string -> option string,
     hasIpAddress (extractMLFeatures other_parser url) =
     hasIpAddress (extractMLFeatures URL_hostname url)) /\
  (URL_hostname href = None ->
   subdomainCount (extractMLFeatures URL_hostname url) =
     Z.max 0 (Z.of_nat (List.length (split "." fallback)) - 2) /\
   hasIpAddress (extractMLFeatures URL_hostname url) = regex_test ip_regex url).
Proof.
  intros href fallback.
  split; [reflexivity |].
  split; [apply (split_hd "/" url) |].
  split; [apply regex_test_ip |].
  split; [reflexivity |].
  intros Hfail. split; [| reflexivity].
  change (subdomainCount (extractMLFeatures URL_hostname url))
    with (Z.max 0 (Z.of_nat (List.length (split "." (hostname_of URL_hostname url))) - 2)).
  unfold hostname_of. fold href. rewrite Hfail. reflexivity.
Qed.

(** The input of the counterexample whose parse fails: the fallback host is
    the whole string, with six labels. *)
Lemma host_and_ip_features_witness :
  example_URL_hostname "https://1.2.3.4 a.b.c" = None /\
  subdomainCount (extractMLFeatures example_URL_hostname "1.2.3.4 a.b.c") = 4 /\
  contains_dotted_quad "1.2.3.4 a.b.c".
Proof.
  split; [reflexivity |].
  destruct (host_and_ip_features example_URL_hostname "1.2.3.4 a.b.c")
    as (_ & _ & Hip & _ & Hfail).
  split.
  - destruct (Hfail eq_refl) as [Hsub _]. rewrite Hsub. reflexivity.
  - apply Hip. reflexivity.
Defined.

(** The classifier on the store of the first scan: its one row respects the
    CHECK constraint, so the assessment is well formed. *)
Lemma classification_never_raises_witness :
  store_checked first_scan_store /\
  exists a w',
    performMLClassification example_URL_hostname example_ilike
      "https://example.com" "example.com" first_scan_store = (Normal a, w') /\
    (0 <= threatProbability a <= 1)%R /\
    (0 <= confidence a <= 1)%R.
Proof.
  split; [exact store_checked_first_scan |].
  destruct (classification_never_raises example_URL_hostname example_ilike
              "https://example.com" "example.com" store_checked_first_scan)
    as (a & w' & Hrun & _ & Hp & Hc & _).
  exists a, w'. repeat split; try assumption; apply Hp || apply Hc.
Defined.

(** The classifier on the empty store and a feature set of score 50 (IP
    host, over-long URL): no record, so the raw probability 0.5 and the
    confidence 0.75 are returned, and 0.5 is not phishing. *)
Lemma blending_law_witness :
  exists a w',
    classification_body example_ilike long_ip_features "example.com"
      {| ml_patterns := []; blockchain_logs := []; script := [];
         next_id := 0; clock := 0 |} = (Normal a, w') /\
    confidence a = 0.75%R /\
    threatProbability a = (IZR (calculateMLThreatScore long_ip_features) / 100)%R /\
    (threatProbability a = 0.5%R -> isPhishing a = false).
Proof.
  destruct (blending_law example_URL_hostname example_ilike long_ip_features
              "https://example.com" "example.com"
              {| ml_patterns := []; blockchain_logs := []; script := [];
                 next_id := 0; clock := 0 |})
    as (_ & a & w' & Hrun & Hblend & _ & Hhalf).
  exists a, w'. split; [exact Hrun |].
  simpl in Hblend. destruct Hblend as (Hp & Hc & _).
  split; [exact Hc |]. split; [exact Hp | exact Hhalf].
Defined.

(** ** Entropy *)

(** *** The frequency table *)

Lemma freq_get_set (t : freq_table) (c c' : ascii) (v : Z) :
  freq_get (freq_set t c v) c' =
  if Ascii.eqb c c' then Some v else freq_get t c'.
Proof.
  induction t as [| [k n] t IH]; simpl.
  - destruct (Ascii.eqb c c'); reflexivity.
  - destruct (Ascii.eqb k c) eqn:Ekc; simpl.
    + apply Ascii.eqb_eq in Ekc. subst k.
      destruct (Ascii.eqb c c'); reflexivity.
    + rewrite IH. destruct (Ascii.eqb k c') eqn:Ekc'; [| reflexivity].
      apply Ascii.eqb_eq in Ekc'. subst k. now rewrite Ascii.eqb_sym, Ekc.
Qed.

Lemma freq_get_None (t : freq_table) (c : ascii) :
  freq_get t c = None <-> ~ In c (map fst t).
Proof.
  induction t as [| [k n] t IH]; simpl; [tauto |].
  destruct (Ascii.eqb k c) eqn:E.
  - apply Ascii.eqb_eq in E. split; [discriminate | tauto].
  - apply Ascii.eqb_neq in E. rewrite IH. tauto.
Qed.

Lemma freq_keys_set (t : freq_table) (c : ascii) (v : Z) :
  map fst (freq_set t c v) =
  match freq_get t c with
  | Some _ => map fst t
  | None => map fst t ++ [c]
  end.
Proof.
  induction t as [| [k n] t IH]; simpl; [reflexivity |].
  destruct (Ascii.eqb k c) eqn:E; simpl; [reflexivity |].
  rewrite IH. destruct (freq_get t c); reflexivity.
Qed.

Lemma freq_set_NoDup (t : freq_table) (c : ascii) (v : Z) :
  NoDup (map fst t) -> NoDup (map fst (freq_set t c v)).
Proof.
  intros H. rewrite freq_keys_set. destruct (freq_get t c) eqn:E; [assumption |].
  apply freq_get_None in E.
  apply NoDup_app; [assumption | repeat constructor; simpl; tauto |].
  intros x Hx [<- | []]. contradiction.
Qed.

Lemma freq_In_get (t : freq_table) (c : ascii) (n : Z) :
  NoDup (map fst t) -> (In (c, n) t <-> freq_get t c = Some n).
Proof.
  induction t as [| [k m] t IH]; simpl; intros Hnd.
  - split; [tauto | discriminate].
  - inversion Hnd as [| ? ? Hnotin Hnd']; subst.
    destruct (Ascii.eqb k c) eqn:E.
    + apply Ascii.eqb_eq in E. subst k. split.
      * intros [H | H]; [congruence |].
        exfalso. apply Hnotin. apply (in_map fst) in H. exact H.
      * intros H. left. congruence.
    + apply Ascii.eqb_neq in E. rewrite <- (IH Hnd'). split.
      * intros [H | H]; [congruence | assumption].
      * tauto.
Qed.

Lemma occurrences_nonneg (c : ascii) (s : string) : 0 <= occurrences c s.
Proof. apply count_matches_nonneg. Qed.

Lemma count_loop_get (s : string) :
  forall (t : freq_table) (c : ascii),
    freq_get (count_loop s t) c =
    match freq_get t c with
    | Some n => Some (n + occurrences c s)
    | None => if occurrences c s =? 0 then None else Some (occurrences c s)
    end.
Proof.
  induction s as [| x s IH]; intros t c.
  - simpl. destruct (freq_get t c); [f_equal; unfold occurrences; simpl; lia | reflexivity].
  - cbn [count_loop]. rewrite IH. unfold freq_bump. rewrite freq_get_set.
    unfold occurrences. cbn [count_matches]. fold (occurrences c s).
    pose proof (occurrences_nonneg c s) as Hnn.
    destruct (Ascii.eqb x c) eqn:E.
    + apply Ascii.eqb_eq in E. subst x.
      destruct (freq_get t c) as [n |].
      * f_equal. lia.
      * replace (1 + occurrences c s =? 0) with false by (symmetry; apply Z.eqb_neq; lia).
        f_equal; lia.
    + reflexivity.
Qed.

Lemma count_loop_NoDup (s : string) :
  forall t : freq_table, NoDup (map fst t) -> NoDup (map fst (count_loop s t)).
Proof.
  induction s as [| x s IH]; intros t H; simpl; [assumption |].
  apply IH. unfold freq_bump. now apply freq_set_NoDup.
Qed.

(** *** The distinct characters *)

Lemma distinct_chars_In (s : string) (c : ascii) :
  In c (distinct_chars s) <-> 0 < occurrences c s.
Proof.
  induction s as [| x s IH]; unfold occurrences in *; simpl.
  - lia.
  - rewrite filter_In, IH. pose proof (count_matches_nonneg (fun y => Ascii.eqb y c) s).
    destruct (Ascii.eqb x c) eqn:E.
    + apply Ascii.eqb_eq in E. split; [lia | now left].
    + rewrite Ascii.eqb_sym, E. simpl. apply Ascii.eqb_neq in E.
      split; [intros [H1 | [H1 _]]; [contradiction | lia] | intros H1; right; split; [lia | reflexivity]].
Qed.

Lemma distinct_chars_NoDup (s : string) : NoDup (distinct_chars s).
Proof.
  induction s as [| x s IH]; simpl; constructor.
  - rewrite filter_In, Ascii.eqb_refl. simpl. intros [_ H]. discriminate.
  - now apply NoDup_filter.
Qed.

(** The table the first loop builds lists every distinct character with its
    number of occurrences. *)
Lemma count_loop_table (s : string) :
  Permutation (count_loop s [])
    (map (fun c => (c, occurrences c s)) (distinct_chars s)).
Proof.
  assert (Hk : NoDup (map fst (count_loop s []))) by (apply count_loop_NoDup; constructor).
  apply NoDup_Permutation.
  - now apply NoDup_map_inv in Hk.
  - apply Finite.Injective_map_NoDup; [| apply distinct_chars_NoDup].
    intros a b H. now injection H.
  - intros [c n]. rewrite (@freq_In_get _ c n Hk), count_loop_get. simpl.
    rewrite in_map_iff. pose proof (occurrences_nonneg c s) as Hnn. split.
    + destruct (occurrences c s =? 0) eqn:E; [discriminate |].
      apply Z.eqb_neq in E. intros H. injection H as <-.
      exists c. split; [reflexivity | apply distinct_chars_In; lia].
    + intros (c' & H & Hin). injection H as -> <-.
      apply distinct_chars_In in Hin.
      replace (occurrences c s =? 0) with false by (symmetry; apply Z.eqb_neq; lia).
      reflexivity.
Qed.

(** *** Sums of reals *)

Lemma sumR_app (l1 l2 : list R) : sumR (l1 ++ l2) = (sumR l1 + sumR l2)%R.
Proof. induction l1 as [| x l1 IH]; simpl; [lra | rewrite IH; lra]. Qed.

Lemma sumR_perm (l1 l2 : list R) : Permutation l1 l2 -> sumR l1 = sumR l2.
Proof. induction 1; simpl; lra. Qed.

Lemma sumR_nonpos (l : list R) :
  Forall (fun x => (x <= 0)%R) l -> (sumR l <= 0)%R.
Proof. induction 1; simpl; lra. Qed.

Lemma sumR_nonneg (l : list R) :
  Forall (fun x => (0 <= x)%R) l -> (0 <= sumR l)%R.
Proof. induction 1; simpl; lra. Qed.

Lemma sumR_pos (l : list R) (x : R) :
  Forall (fun y => (0 <= y)%R) l -> In x l -> (0 < x)%R -> (0 < sumR l)%R.
Proof.
  induction 1 as [| y l Hy Hl IH]; simpl; [tauto |].
  pose proof (sumR_nonneg Hl).
  intros [-> | Hin] Hx; [lra |]. specialize (IH Hin Hx). lra.
Qed.

(** The second loop subtracts one term per entry of the table. *)
Lemma entropy_loop (len : Z) (t : freq_table) (acc : R) :
  fold_left (entropy_step len) t acc =
  (acc - sumR (map (fun kv => IZR (snd kv) / IZR len * Math_log2 (IZR (snd kv) / IZR len)) t))%R.
Proof.
  revert acc. induction t as [| kv t IH]; intros acc; simpl; [lra |].
  rewrite IH. unfold entropy_step. lra.
Qed.

Lemma calculateEntropy_shannon (s : string) : calculateEntropy s = shannon s.
Proof.
  unfold calculateEntropy, shannon. rewrite entropy_loop.
  rewrite (sumR_perm (Permutation_map _ (count_loop_table s))).
  rewrite map_map. simpl. unfold frequency. lra.
Qed.

(** *** Occurrences add up to the length *)

Lemma filter_other_id (x : ascii) (l : list ascii) :
  ~ In x l -> filter (fun y => negb (Ascii.eqb y x)) l = l.
Proof.
  induction l as [| y l IH]; simpl; [reflexivity |].
  intros H. destruct (Ascii.eqb y x) eqn:E; simpl.
  - apply Ascii.eqb_eq in E. tauto.
  - rewrite IH; tauto.
Qed.

Lemma sumR_filter_other (f : ascii -> R) (x : ascii) (l : list ascii) :
  NoDup l -> In x l ->
  sumR (map f l) = (f x + sumR (map f (filter (fun y => negb (Ascii.eqb y x)) l)))%R.
Proof.
  induction 1 as [| y l Hnotin Hnd IH]; simpl; [tauto |].
  intros [-> | Hin].
  - rewrite Ascii.eqb_refl. simpl. now rewrite filter_other_id.
  - destruct (Ascii.eqb y x) eqn:E.
    + apply Ascii.eqb_eq in E. subst. contradiction.
    + simpl. rewrite (IH Hin). lra.
Qed.

Lemma occurrences_cons_other (x c : ascii) (s : string) :
  Ascii.eqb c x = false -> occurrences c (String x s) = occurrences c s.
Proof.
  intros E. unfold occurrences. simpl. rewrite Ascii.eqb_sym, E. reflexivity.
Qed.

Lemma occurrences_cons_same (x : ascii) (s : string) :
  occurrences x (String x s) = 1 + occurrences x s.
Proof. unfold occurrences. simpl. now rewrite Ascii.eqb_refl. Qed.

Lemma map_filter_other (f g : ascii -> R) (x : ascii) (l : list ascii) :
  (forall c, Ascii.eqb c x = false -> f c = g c) ->
  map f (filter (fun y => negb (Ascii.eqb y x)) l) =
  map g (filter (fun y => negb (Ascii.eqb y x)) l).
Proof.
  intros H. induction l as [| y l IH]; simpl; [reflexivity |].
  destruct (Ascii.eqb y x) eqn:E; simpl; [assumption |].
  now rewrite IH, (H y E).
Qed.

Lemma occurrences_total (s : string) :
  sumR (map (fun c => IZR (occurrences c s)) (distinct_chars s)) =
  IZR (Z.of_nat (String.length s)).
Proof.
  induction s as [| x s IH].
  - reflexivity.
  - cbn [distinct_chars String.length map sumR fold_right].
    rewrite Nat2Z.inj_succ, succ_IZR, <- IH, occurrences_cons_same, plus_IZR.
    rewrite (@map_filter_other (fun c => IZR (occurrences c (String x s)))
               (fun c => IZR (occurrences c s)))
      by (intros c E; now rewrite occurrences_cons_other).
    fold (sumR (map (fun c => IZR (occurrences c s))
                  (filter (fun y => negb (Ascii.eqb y x)) (distinct_chars s)))).
    destruct (Z.eq_dec (occurrences x s) 0) as [E0 | Hpos].
    + rewrite E0. rewrite filter_other_id; [lra |].
      rewrite distinct_chars_In. lia.
    + pose proof (occurrences_nonneg x s).
      rewrite (@sumR_filter_other (fun c => IZR (occurrences c s)) x (distinct_chars s));
        [lra | apply distinct_chars_NoDup | apply distinct_chars_In; lia].
Qed.

Lemma occurrences_le_length (c : ascii) (s : string) :
  occurrences c s <= Z.of_nat (String.length s).
Proof.
  unfold occurrences. induction s as [| x s IH]; simpl String.length; simpl count_matches; [lia |].
  rewrite Nat2Z.inj_succ. destruct (Ascii.eqb x c); lia.
Qed.

(** *** Bounds *)

Lemma ln2_pos : (0 < ln 2)%R.
Proof. pose proof ln_lt_2. lra. Qed.

Lemma ln_nonneg (x : R) : (1 <= x)%R -> (0 <= ln x)%R.
Proof.
  intros [H | <-]; [| rewrite ln_1; lra].
  rewrite <- ln_1. left. apply ln_increasing; lra.
Qed.

Lemma ln_nonpos (x : R) : (0 < x <= 1)%R -> (ln x <= 0)%R.
Proof.
  intros [H0 [H | ->]]; [| rewrite ln_1; lra].
  rewrite <- ln_1. left. now apply ln_increasing.
Qed.

Lemma term_nonpos (n N : Z) :
  0 < n <= N ->
  (IZR n / IZR N * Math_log2 (IZR n / IZR N) <= 0)%R.
Proof.
  intros [Hn HN].
  assert (Hn' : (0 < IZR n)%R) by now apply IZR_lt.
  assert (HN' : (IZR n <= IZR N)%R) by now apply IZR_le.
  assert (Hp : (0 < IZR n / IZR N <= 1)%R).
  { split.
    - apply Rdiv_lt_0_compat; lra.
    - apply Rmult_le_reg_r with (IZR N); [lra |].
      unfold Rdiv. rewrite Rmult_assoc, Rinv_l by lra. lra. }
  pose proof (ln_nonpos Hp) as Hln. pose proof ln2_pos as H2.
  pose proof (Rinv_0_lt_compat _ H2) as Hi.
  unfold Math_log2. unfold Rdiv at 2.
  destruct Hp as [Hp0 _].
  assert (Hq : (ln (IZR n / IZR N) * / ln 2 <= 0)%R) by nra.
  nra.
Qed.

Lemma term_split (n N : Z) :
  0 < n -> 0 < N ->
  (IZR n / IZR N * Math_log2 (IZR n / IZR N) =
   (IZR n * ln (IZR n) - ln (IZR N) * IZR n) / (IZR N * ln 2))%R.
Proof.
  intros Hn HN.
  assert (Hn' : (0 < IZR n)%R) by now apply IZR_lt.
  assert (HN' : (0 < IZR N)%R) by now apply IZR_lt.
  pose proof ln2_pos as H2.
  unfold Math_log2, Rdiv.
  rewrite ln_mult, ln_Rinv by (try apply Rinv_0_lt_compat; assumption).
  field. split; lra.
Qed.

Lemma shannon_split (s : string) (l : list ascii) :
  (forall c, In c l -> 0 < occurrences c s) ->
  sumR (map (fun c => frequency s c * Math_log2 (frequency s c))%R l) =
  ((sumR (map (fun c => IZR (occurrences c s) * ln (IZR (occurrences c s))) l) -
    ln (IZR (Z.of_nat (String.length s))) * sumR (map (fun c => IZR (occurrences c s)) l)) /
   (IZR (Z.of_nat (String.length s)) * ln 2))%R.
Proof.
  induction l as [| c l IH]; intros Hl; simpl.
  - unfold Rdiv. lra.
  - assert (Hc : 0 < occurrences c s) by (apply Hl; now left).
    pose proof (occurrences_le_length c s) as Hle.
    rewrite IH by (intros c' Hc'; apply Hl; now right).
    unfold frequency at 1 2. rewrite term_split by lia.
    unfold Rdiv. lra.
Qed.

(** The entropy is log2 of the length minus the weight of the repetitions. *)
Lemma shannon_closed_form (s : string) :
  s <> EmptyString ->
  shannon s =
  (Math_log2 (IZR (Z.of_nat (String.length s))) -
   sumR (map (fun c => IZR (occurrences c s) * ln (IZR (occurrences c s))) (distinct_chars s)) /
   (IZR (Z.of_nat (String.length s)) * ln 2))%R.
Proof.
  intros Hne. unfold shannon.
  rewrite shannon_split by (intros c Hc; now apply distinct_chars_In).
  rewrite occurrences_total.
  assert (HN : (0 < IZR (Z.of_nat (String.length s)))%R).
  { apply IZR_lt. destruct s; [congruence | simpl String.length; lia]. }
  pose proof ln2_pos. unfold Math_log2. field. split; lra.
Qed.

Lemma repetition_weight_nonneg (s : string) :
  Forall (fun y => (0 <= y)%R)
    (map (fun c => IZR (occurrences c s) * ln (IZR (occurrences c s)))%R (distinct_chars s)).
Proof.
  apply Forall_forall. intros y Hy. apply in_map_iff in Hy.
  destruct Hy as (c & <- & Hc). apply distinct_chars_In in Hc.
  assert (H1 : (1 <= IZR (occurrences c s))%R) by (apply IZR_le; lia).
  pose proof (ln_nonneg H1). apply Rmult_le_pos; lra.
Qed.

Lemma shannon_nonneg (s : string) : (0 <= shannon s)%R.
Proof.
  unfold shannon.
  assert (H : (sumR (map (fun c => frequency s c * Math_log2 (frequency s c))
                       (distinct_chars s)) <= 0)%R); [| lra].
  apply sumR_nonpos, Forall_forall. intros y Hy. apply in_map_iff in Hy.
  destruct Hy as (c & <- & Hc). apply distinct_chars_In in Hc.
  pose proof (occurrences_le_length c s). unfold frequency.
  apply term_nonpos. lia.
Qed.

Lemma shannon_below_log2_length (s : string) :
  has_repeated_char s ->
  (shannon s < Math_log2 (IZR (Z.of_nat (String.length s))))%R.
Proof.
  intros (c & Hc).
  assert (Hne : s <> EmptyString).
  { intros ->. unfold occurrences in Hc. simpl in Hc. lia. }
  rewrite (shannon_closed_form Hne).
  assert (HN : (0 < IZR (Z.of_nat (String.length s)))%R).
  { apply IZR_lt. destruct s; [congruence | simpl String.length; lia]. }
  pose proof ln2_pos as H2.
  assert (Hw : (0 < sumR (map (fun c => IZR (occurrences c s) * ln (IZR (occurrences c s)))
                        (distinct_chars s)))%R).
  { apply sumR_pos with (x := (IZR (occurrences c s) * ln (IZR (occurrences c s)))%R).
    - apply repetition_weight_nonneg.
    - apply in_map_iff. exists c. split; [reflexivity |].
      apply distinct_chars_In. lia.
    - assert (H2' : (2 <= IZR (occurrences c s))%R) by (apply IZR_le; lia).
      apply Rmult_lt_0_compat; [lra |].
      rewrite <- ln_1. apply ln_increasing; lra. }
  assert (Hq : (0 < sumR (map (fun c => IZR (occurrences c s) * ln (IZR (occurrences c s)))
                        (distinct_chars s)) /
                    (IZR (Z.of_nat (String.length s)) * ln 2))%R).
  { apply Rdiv_lt_0_compat; [assumption | apply Rmult_lt_0_compat; assumption]. }
  lra.
Qed.

(** C5: the entropy the code computes is the Shannon entropy in bits,
    -sum p(c) log2 p(c) over the distinct characters of the whole input
    string (the extractor passes the raw input, scheme and path included);
    it is 0 for the empty string, never negative, and strictly below
    log2(length) for a string with a repeated character. *)
Theorem entropy_is_shannon (s : string) :
  calculateEntropy s = shannon s /\
  (forall URL_hostname, entropyScore (extractMLFeatures URL_hostname s) = shannon s) /\
  calculateEntropy EmptyString = 0%R /\
  (0 <= calculateEntropy s)%R /\
  (has_repeated_char s ->
   s <> EmptyString /\
   (calculateEntropy s < Math_log2 (IZR (Z.of_nat (String.length s))))%R).
Proof.
  split; [apply calculateEntropy_shannon |].
  split; [intros URL_hostname; apply calculateEntropy_shannon |].
  split; [reflexivity |].
  split; [rewrite calculateEntropy_shannon; apply shannon_nonneg |].
  intros Hrep. split.
  - destruct Hrep as (c & Hc). intros ->. unfold occurrences in Hc. simpl in Hc. lia.
  - rewrite calculateEntropy_shannon. now apply shannon_below_log2_length.
Qed.

(** "aa" repeats a character: its entropy is below log2 2. *)
Lemma entropy_is_shannon_witness :
  has_repeated_char "aa" /\
  (calculateEntropy "aa" < Math_log2 (IZR (Z.of_nat (String.length "aa"))))%R.
Proof.
  assert (H : has_repeated_char "aa").
  { exists "a"%char. unfold occurrences. simpl. lia. }
  split; [exact H |].
  destruct (entropy_is_shannon "aa") as (_ & _ & _ & _ & Hlt).
  apply (Hlt H).
Defined.

(** * Further properties of the classification unit *)

(** ** The counting features *)

Lemma bool_classes_partition (c : ascii) :
  (if cls_dot c then 1 else 0) + (if cls_hyphen c then 1 else 0) +
  (if is_digit c then 1 else 0) + (if cls_special c then 1 else 0) +
  (if is_letter c then 1 else 0) = 1.
Proof.
  destruct c as [[] [] [] [] [] [] [] []]; vm_compute; reflexivity.
Qed.

Lemma count_partition (s : string) :
  count_matches cls_dot s + count_matches cls_hyphen s +
  count_matches is_digit s + count_matches cls_special s +
  count_matches is_letter s = Z.of_nat (String.length s).
Proof.
  induction s as [| c s IH]; [reflexivity |].
  cbn [count_matches String.length]. rewrite Nat2Z.inj_succ.
  pose proof (bool_classes_partition c). lia.
Qed.

(** X1: every character of the input is counted by exactly one of the four
    counting features or is an ASCII letter: the four counts are
    non-negative and, with the number of letters, add up to the length. *)
Theorem counts_partition_the_input URL_hostname (url : string) :
  let f := extractMLFeatures URL_hostname url in
  0 <= numDots f /\ 0 <= numHyphens f /\ 0 <= numDigits f /\
  0 <= numSpecialChars f /\
  numDots f + numHyphens f + numDigits f + numSpecialChars f +
    count_matches is_letter url = urlLength f /\
  numDots f + numHyphens f + numDigits f + numSpecialChars f <= urlLength f.
Proof.
  cbv zeta.
  change (numDots (extractMLFeatures URL_hostname url)) with (count_matches cls_dot url).
  change (numHyphens (extractMLFeatures URL_hostname url)) with (count_matches cls_hyphen url).
  change (numDigits (extractMLFeatures URL_hostname url)) with (count_matches is_digit url).
  change (numSpecialChars (extractMLFeatures URL_hostname url))
    with (count_matches cls_special url).
  change (urlLength (extractMLFeatures URL_hostname url)) with (Z.of_nat (String.length url)).
  pose proof (count_partition url).
  pose proof (count_matches_nonneg cls_dot url).
  pose proof (count_matches_nonneg cls_hyphen url).
  pose proof (count_matches_nonneg is_digit url).
  pose proof (count_matches_nonneg cls_special url).
  pose proof (count_matches_nonneg is_letter url).
  lia.
Qed.

Lemma length_append (a b : string) :
  String.length (a ++ b) = (String.length a + String.length b)%nat.
Proof. induction a as [| x a IH]; simpl; [reflexivity | now rewrite IH]. Qed.

Lemma all_digits_count (a : string) :
  all_digits a = true -> count_matches is_digit a = Z.of_nat (String.length a).
Proof.
  induction a as [| x a IH]; [reflexivity |].
  cbn [all_digits count_matches String.length]. rewrite Nat2Z.inj_succ.
  intros H. apply andb_true_iff in H. destruct H as [Hx Ha].
  rewrite Hx, (IH Ha). lia.
Qed.

Lemma dotted_quad_counts (m : string) :
  dotted_quad m ->
  3 <= count_matches cls_dot m /\ 4 <= count_matches is_digit m /\
  (7 <= String.length m)%nat.
Proof.
  intros (a & b & c & d & -> & [La Da] & [Lb Db] & [Lc Dc] & [Ld Dd]).
  rewrite !count_matches_app, !length_append.
  pose proof (all_digits_count a Da). pose proof (all_digits_count b Db).
  pose proof (all_digits_count c Dc). pose proof (all_digits_count d Dd).
  pose proof (count_matches_nonneg cls_dot a). pose proof (count_matches_nonneg cls_dot b).
  pose proof (count_matches_nonneg cls_dot c). pose proof (count_matches_nonneg cls_dot d).
  change (count_matches cls_dot ".") with 1.
  change (count_matches is_digit ".") with 0.
  change (String.length ".") with 1%nat.
  repeat split; lia.
Qed.

(** X2: when the IP rule fires the raw input has at least three dots, four
    digits and seven characters. *)
Theorem ip_flag_needs_dots_and_digits URL_hostname (url : string) :
  hasIpAddress (extractMLFeatures URL_hostname url) = true ->
  3 <= numDots (extractMLFeatures URL_hostname url) /\
  4 <= numDigits (extractMLFeatures URL_hostname url) /\
  7 <= urlLength (extractMLFeatures URL_hostname url).
Proof.
  intros H.
  change (regex_test ip_regex url = true) in H.
  apply regex_test_ip in H. destruct H as (pre & m & post & -> & Hm).
  apply dotted_quad_counts in Hm. destruct Hm as (Hd & Hg & Hl).
  change (numDots (extractMLFeatures URL_hostname (pre ++ m ++ post)))
    with (count_matches cls_dot (pre ++ m ++ post)).
  change (numDigits (extractMLFeatures URL_hostname (pre ++ m ++ post)))
    with (count_matches is_digit (pre ++ m ++ post)).
  change (urlLength (extractMLFeatures URL_hostname (pre ++ m ++ post)))
    with (Z.of_nat (String.length (pre ++ m ++ post))).
  rewrite !count_matches_app, !length_append.
  pose proof (count_matches_nonneg cls_dot pre). pose proof (count_matches_nonneg cls_dot post).
  pose proof (count_matches_nonneg is_digit pre). pose proof (count_matches_nonneg is_digit post).
  repeat split; lia.
Qed.

Lemma ip_flag_needs_dots_and_digits_witness :
  hasIpAddress (extractMLFeatures example_URL_hostname "https://example.com/1.2.3.4") = true /\
  3 <= numDots (extractMLFeatures example_URL_hostname "https://example.com/1.2.3.4").
Proof.
  split; [reflexivity |].
  apply (ip_flag_needs_dots_and_digits example_URL_hostname "https://example.com/1.2.3.4").
  reflexivity.
Defined.

(** ** Keywords *)

Lemma startsWith_spec (s p : string) :
  startsWith s p = true <-> exists rest, s = (p ++ rest)%string.
Proof.
  revert s. induction p as [| a p IH]; intros s.
  - split; [intros _; now exists s | intros _; destruct s; reflexivity].
  - destruct s as [| b s]; simpl.
    + split; [discriminate | intros (rest & H); discriminate].
    + rewrite andb_true_iff, IH. split.
      * intros (E & rest & ->). apply Ascii.eqb_eq in E. subst. now exists rest.
      * intros (rest & H). injection H as -> ->. rewrite Ascii.eqb_refl. split; [reflexivity | now exists rest].
Qed.

Lemma includes_spec (s k : string) :
  includes s k = true <-> exists pre post, s = (pre ++ k ++ post)%string.
Proof.
  induction s as [| c s IH]; cbn [includes].
  - rewrite orb_false_r, startsWith_spec. split.
    + intros (rest & H). now exists EmptyString, rest.
    + intros (pre & post & H). symmetry in H. apply append_eq_nil in H.
      destruct H as [-> H]. now exists post.
  - rewrite orb_true_iff, startsWith_spec, IH. split.
    + intros [(rest & H) | (pre & post & ->)].
      * now exists EmptyString, rest.
      * now exists (String c pre), post.
    + intros (pre & post & H). destruct pre as [| c' pre]; simpl in H.
      * left. now exists post.
      * right. injection H as <- ->. now exists pre, post.
Qed.

Lemma char_toLowerCase_idem (c : ascii) :
  char_toLowerCase (char_toLowerCase c) = char_toLowerCase c.
Proof. destruct c as [[] [] [] [] [] [] [] []]; vm_compute; reflexivity. Qed.

Lemma toLowerCase_idem (s : string) : toLowerCase (toLowerCase s) = toLowerCase s.
Proof.
  induction s as [| c s IH]; simpl; [reflexivity |].
  now rewrite char_toLowerCase_idem, IH.
Qed.

(** X3: the keyword flag is set exactly when the lower-cased input contains
    one of the eleven keywords as a substring; it does not change when the
    input is lower-cased first. *)
Theorem keyword_flag_is_case_insensitive_substring URL_hostname (url : string) :
  (hasSuspiciousKeywords (extractMLFeatures URL_hostname url) = true <->
   exists k pre post,
     In k suspiciousKeywords /\ toLowerCase url = (pre ++ k ++ post)%string) /\
  hasSuspiciousKeywords (extractMLFeatures URL_hostname (toLowerCase url)) =
  hasSuspiciousKeywords (extractMLFeatures URL_hostname url).
Proof.
  change (hasSuspiciousKeywords (extractMLFeatures URL_hostname url))
    with (existsb (fun k => includes (toLowerCase url) k) suspiciousKeywords).
  change (hasSuspiciousKeywords (extractMLFeatures URL_hostname (toLowerCase url)))
    with (existsb (fun k => includes (toLowerCase (toLowerCase url)) k) suspiciousKeywords).
  split.
  - rewrite existsb_exists. split.
    + intros (k & Hin & Hk). apply includes_spec in Hk.
      destruct Hk as (pre & post & Hk). now exists k, pre, post.
    + intros (k & pre & post & Hin & Hk). exists k. split; [assumption |].
      apply includes_spec. now exists pre, post.
  - now rewrite toLowerCase_idem.
Qed.

(** ** The score *)

(** X4: the threat score is a multiple of 5, so the raw probability is a
    multiple of 0.05. *)
Theorem score_is_multiple_of_5 (f : MLFeatures) :
  exists k : Z, 0 <= k <= 20 /\ calculateMLThreatScore f = 5 * k /\
                (IZR (calculateMLThreatScore f) / 100 = IZR k * 0.05)%R.
Proof.
  assert (Hp : forall b n, pts b (5 * n) = 5 * pts b n) by (intros [] n; reflexivity).
  pose proof (rule_sum_nonneg f) as Hr.
  assert (Hs : rule_sum f = 5 * (rule_sum f / 5)).
  { unfold rule_sum in *.
    change 15 with (5 * 3); change 10 with (5 * 2);
      change 25 with (5 * 5); change 20 with (5 * 4).
    rewrite !Hp.
    match goal with
    | |- ?lhs = _ => set (x := lhs)
    end.
    assert (Hx : exists m, x = 5 * m) by (eexists; unfold x; rewrite <- !Z.mul_add_distr_l; reflexivity).
    destruct Hx as (m & ->). rewrite Z.mul_comm, Z.div_mul by lia. lia. }
  exists (Z.min 20 (rule_sum f / 5)).
  assert (Hq : 0 <= rule_sum f / 5) by (apply Z.div_pos; lia).
  split; [lia |].
  assert (Hk : calculateMLThreatScore f = 5 * Z.min 20 (rule_sum f / 5)).
  { rewrite score_unclamped. lia. }
  split; [exact Hk |].
  rewrite Hk, mult_IZR. lra.
Qed.

(** ** Entropy and length *)

Lemma ln_22_below : (ln 22 < 4.5 * ln 2)%R.
Proof.
  assert (H1 : (ln (22 * 22) = ln 22 + ln 22)%R) by (apply ln_mult; lra).
  assert (H2 : (ln (2 ^ 9) = INR 9 * ln 2)%R) by (apply ln_pow; lra).
  assert (H3 : (ln (22 * 22) < ln (2 ^ 9))%R) by (apply ln_increasing; simpl; lra).
  simpl INR in H2. lra.
Qed.

Lemma ln_le_mono (x y : R) : (0 < x)%R -> (x <= y)%R -> (ln x <= ln y)%R.
Proof.
  intros Hx [H | ->]; [left; now apply ln_increasing | lra].
Qed.

(** X5: an input of at most 22 characters never triggers the entropy rule:
    the entropy is not above 4.5, so the rule adds nothing to the score and
    "High entropy" is not among the categories. *)
Theorem short_input_entropy_rule_silent URL_hostname (s : string) :
  (String.length s <= 22)%nat ->
  num_gt (entropyScore (extractMLFeatures URL_hostname s)) 4.5 = false /\
  ~ In "High entropy" (initialCategories (extractMLFeatures URL_hostname s)).
Proof.
  intros Hlen.
  assert (Hng : num_gt (calculateEntropy s) 4.5 = false).
  { apply num_gt_false. destruct s as [| c s'] eqn:Es.
    - unfold calculateEntropy; simpl. lra.
    - rewrite <- Es in *.
      assert (Hne : s <> EmptyString) by (rewrite Es; discriminate).
      assert (HN1 : (1 <= IZR (Z.of_nat (String.length s)))%R).
      { apply IZR_le. rewrite Es. simpl String.length. lia. }
      assert (HN2 : (IZR (Z.of_nat (String.length s)) <= 22)%R).
      { apply IZR_le. lia. }
      assert (Hln : (ln (IZR (Z.of_nat (String.length s))) <= ln 22)%R)
        by (apply ln_le_mono; lra).
      pose proof ln_22_below as H22. pose proof ln2_pos as H2.
      assert (Hlog : (Math_log2 (IZR (Z.of_nat (String.length s))) < 4.5)%R).
      { unfold Math_log2. apply Rmult_lt_reg_r with (ln 2); [assumption |].
        unfold Rdiv. rewrite Rmult_assoc, Rinv_l by lra. lra. }
      assert (Hbound : (calculateEntropy s <=
                        Math_log2 (IZR (Z.of_nat (String.length s))))%R).
      { rewrite calculateEntropy_shannon, (shannon_closed_form Hne).
        pose proof (sumR_nonneg (repetition_weight_nonneg s)) as Hw.
        assert (Hd : (0 < IZR (Z.of_nat (String.length s)) * ln 2)%R)
          by (apply Rmult_lt_0_compat; lra).
        pose proof (Rinv_0_lt_compat _ Hd) as Hi.
        match goal with
        | |- (_ - ?W / ?D <= _)%R =>
            assert (Hq : (0 <= W / D)%R) by (unfold Rdiv; apply Rmult_le_pos; lra)
        end.
        lra. }
      lra. }
  split; [exact Hng |].
  rewrite initialCategories_push_order. unfold push_order_categories.
  rewrite !in_app_iff, !In_labelled.
  change (entropyScore (extractMLFeatures URL_hostname s)) with (calculateEntropy s).
  rewrite Hng.
  intros [[_ H] | [[_ H] | [[_ H] | [[_ H] | [H _]]]]]; discriminate.
Qed.

Lemma short_input_entropy_rule_silent_witness :
  (String.length "https://example.com" <= 22)%nat /\
  num_gt (entropyScore (extractMLFeatures example_URL_hostname "https://example.com")) 4.5 = false.
Proof.
  assert (H : (String.length "https://example.com" <= 22)%nat) by (simpl; lia).
  split; [exact H |].
  apply (short_input_entropy_rule_silent example_URL_hostname "https://example.com" H).
Defined.

(** ** The upsert under duplicates and faults *)

Lemma rows_for_app (domain : string) (w : Store) (rows extra : list PatternRow) :
  ml_patterns w = rows ++ extra ->
  rows_for domain w =
  filter (fun r => string_eqb (url_pattern r) domain) rows ++
  filter (fun r => string_eqb (url_pattern r) domain) extra.
Proof. intros H. unfold rows_for. rewrite H. apply filter_app. Qed.

(** X6: the unique key is not enforced.  Once two or more rows carry the
    domain, [maybeSingle] answers null and an upsert whose requests all
    succeed appends one more row for the domain (detection_count 1,
    confidence b) and leaves every existing row as it was. *)
Theorem upsert_with_several_rows_appends (domain : string) (feat : MLFeatures)
    (b : R) (w : Store) :
  script w = [] ->
  (2 <= List.length (rows_for domain w))%nat ->
  let w' := snd (updateMLPatterns domain feat b w) in
  let fresh :=
    {| id := next_id w; url_pattern := domain;
       pattern_type := derive_patternType b;
       confidence_score := b; detection_count := 1;
       last_detected := clock w; features := feat |} in
  ml_patterns w' = ml_patterns w ++ [fresh] /\
  rows_for domain w' = rows_for domain w ++ [fresh] /\
  (List.length (rows_for domain w') = S (List.length (rows_for domain w)))%nat.
Proof.
  intros Hs Hn w' fresh.
  assert (Hrows : ml_patterns w' = ml_patterns w ++ [fresh]).
  { unfold w'. rewrite (updateMLPatterns_all_succeed domain feat b w Hs).
    rewrite (existing_query_several domain (ml_patterns w) Hn). reflexivity. }
  assert (Hfor : rows_for domain w' = rows_for domain w ++ [fresh]).
  { rewrite (@rows_for_app domain w' _ _ Hrows). unfold rows_for. f_equal.
    simpl. unfold string_eqb. now rewrite String.eqb_refl. }
  split; [exact Hrows |]. split; [exact Hfor |].
  rewrite Hfor, length_app. simpl. lia.
Qed.

Lemma upsert_with_several_rows_appends_witness :
  script duplicated_store = [] /\
  (2 <= List.length (rows_for "example.com" duplicated_store))%nat /\
  List.length (rows_for "example.com"
                 (snd (updateMLPatterns "example.com" quiet_features 0.4
                         duplicated_store))) = 3%nat.
Proof.
  assert (Hs : script duplicated_store = []) by reflexivity.
  assert (Hn : (2 <= List.length (rows_for "example.com" duplicated_store))%nat)
    by (simpl; lia).
  split; [exact Hs |]. split; [exact Hn |].
  destruct (upsert_with_several_rows_appends "example.com" quiet_features 0.4
              duplicated_store Hs Hn) as (_ & _ & Hlen).
  rewrite Hlen. reflexivity.
Defined.

Lemma updateMLPatterns_select_error (domain : string) (feat : MLFeatures) (b : R) (w : Store) :
  script w = [AnswersError] ->
  snd (updateMLPatterns domain feat b w) =
  db_log {| log_url := domain; log_pattern_type := derive_patternType b;
            log_threat_probability := b; log_features := feat |}
    (db_insert domain (derive_patternType b) b 1 feat (with_script [] w)).
Proof.
  destruct w as [rows logs fs nid clk]; simpl. intros ->. reflexivity.
Qed.

(** X7: when the existence check answers with an error (and the later
    requests succeed), the upsert takes the domain for new: it appends a row
    with detection_count 1 even if a row for the domain is stored, which is
    then neither updated nor unique any more. *)
Theorem upsert_after_failed_check_duplicates (domain : string) (feat : MLFeatures)
    (b : R) (w : Store) :
  script w = [AnswersError] ->
  let w' := snd (updateMLPatterns domain feat b w) in
  let fresh :=
    {| id := next_id w; url_pattern := domain;
       pattern_type := derive_patternType b;
       confidence_score := b; detection_count := 1;
       last_detected := clock w; features := feat |} in
  ml_patterns w' = ml_patterns w ++ [fresh] /\
  rows_for domain w' = rows_for domain w ++ [fresh] /\
  (forall r, rows_for domain w = [r] ->
             existing_query domain (ml_patterns w') = None).
Proof.
  intros Hs w' fresh.
  assert (Hrows : ml_patterns w' = ml_patterns w ++ [fresh]).
  { unfold w'. rewrite (updateMLPatterns_select_error domain feat b w Hs). reflexivity. }
  assert (Hfor : rows_for domain w' = rows_for domain w ++ [fresh]).
  { rewrite (@rows_for_app domain w' _ _ Hrows). unfold rows_for. f_equal.
    simpl. unfold string_eqb. now rewrite String.eqb_refl. }
  split; [exact Hrows |]. split; [exact Hfor |].
  intros r Hr. apply existing_query_several.
  fold (rows_for domain w'). rewrite Hfor, Hr. simpl. lia.
Qed.

Lemma upsert_after_failed_check_duplicates_witness :
  let w := with_script [AnswersError] first_scan_store in
  script w = [AnswersError] /\
  rows_for "example.com" (snd (updateMLPatterns "example.com" quiet_features 0.4 w)) =
    [first_scan_row;
     {| id := 8; url_pattern := "example.com";
        pattern_type := derive_patternType 0.4;
        confidence_score := 0.4; detection_count := 1;
        last_detected := 2000; features := quiet_features |}].
Proof.
  intros w.
  assert (Hs : script w = [AnswersError]) by reflexivity.
  split; [exact Hs |].
  destruct (upsert_after_failed_check_duplicates "example.com" quiet_features 0.4 w Hs)
    as (_ & Hfor & _).
  rewrite Hfor. reflexivity.
Defined.

Lemma updateMLPatterns_rejected (domain : string) (feat : MLFeatures) (b : R)
    (w : Store) (rest : list Fault) :
  script w = Rejects :: rest \/ script w = Succeeds :: Rejects :: rest ->
  snd (updateMLPatterns domain feat b w) = with_script rest w.
Proof.
  destruct w as [rows logs fs nid clk]; simpl. intros [-> | ->].
  - reflexivity.
  - unfold updateMLPatterns, try_catch, bind, await_select, await_write,
      next_fault, Date_now, ret, throw, with_script; simpl.
    destruct (existing_query domain rows); reflexivity.
Qed.

(** X8: a rejected request leaves no trace.  If the existence check
    rejects, or it succeeds and the row write rejects, the upsert returns
    normally with both tables unchanged: no row is written and no
    'pattern_learned' log entry either. *)
Theorem upsert_rejection_leaves_tables (domain : string) (feat : MLFeatures) (b : R)
    (w : Store) (rest : list Fault) :
  script w = Rejects :: rest \/ script w = Succeeds :: Rejects :: rest ->
  fst (updateMLPatterns domain feat b w) = Normal tt /\
  ml_patterns (snd (updateMLPatterns domain feat b w)) = ml_patterns w /\
  blockchain_logs (snd (updateMLPatterns domain feat b w)) = blockchain_logs w.
Proof.
  intros Hs. split; [apply updateMLPatterns_normal |].
  rewrite (updateMLPatterns_rejected domain feat b w Hs). split; reflexivity.
Qed.

Lemma upsert_rejection_leaves_tables_witness :
  let w := with_script [Succeeds; Rejects] first_scan_store in
  (script w = Rejects :: [] \/ script w = Succeeds :: Rejects :: []) /\
  ml_patterns (snd (updateMLPatterns "example.com" quiet_features 0.4 w)) = [first_scan_row].
Proof.
  intros w.
  assert (Hs : script w = Rejects :: [] \/ script w = Succeeds :: Rejects :: [])
    by (right; reflexivity).
  split; [exact Hs |].
  destruct (upsert_rejection_leaves_tables "example.com" quiet_features 0.4 w Hs)
    as (_ & Hrows & _).
  rewrite Hrows. reflexivity.
Defined.

(** ** Scans in sequence *)

Lemma existing_query_none (domain : string) (w : Store) :
  rows_for domain w = [] -> existing_query domain (ml_patterns w) = None.
Proof. unfold rows_for, existing_query. now intros ->. Qed.

Lemma existing_query_one (domain : string) (w : Store) (r : PatternRow) :
  rows_for domain w = [r] -> existing_query domain (ml_patterns w) = Some r.
Proof. unfold rows_for, existing_query. now intros ->. Qed.

Lemma map_update_fresh (key : N) (g : PatternRow -> PatternRow) (rows : list PatternRow) :
  ~ In key (map id rows) ->
  map (fun r => if N.eqb (id r) key then g r else r) rows = rows.
Proof.
  induction rows as [| x rows IH]; simpl; [reflexivity |].
  intros H. destruct (N.eqb (id x) key) eqn:E.
  - apply N.eqb_eq in E. tauto.
  - rewrite IH; tauto.
Qed.

(** X9: two upserts in a row for a domain that had no row (all requests
    succeeding, the generated key unused): the first inserts, the second
    finds that row and updates it.  The row ends with detection_count 2, the
    mean of the two probabilities, the features of the second scan, and the
    pattern type derived at the first scan, which the update does not
    revise. *)
Theorem upsert_twice (domain : string) (f1 f2 : MLFeatures) (b1 b2 : R) (w : Store) :
  script w = [] ->
  rows_for domain w = [] ->
  ~ In (next_id w) (map id (ml_patterns w)) ->
  let w1 := snd (updateMLPatterns domain f1 b1 w) in
  let w2 := snd (updateMLPatterns domain f2 b2 w1) in
  existing_query domain (ml_patterns w1) =
    Some {| id := next_id w; url_pattern := domain;
            pattern_type := derive_patternType b1;
            confidence_score := b1; detection_count := 1;
            last_detected := clock w; features := f1 |} /\
  ml_patterns w2 =
    ml_patterns w ++
    [{| id := next_id w; url_pattern := domain;
        pattern_type := derive_patternType b1;
        confidence_score := (b1 + b2) / 2; detection_count := 2;
        last_detected := clock w; features := f2 |}].
Proof.
  intros Hs Hnone Hfresh w1 w2.
  set (fresh := {| id := next_id w; url_pattern := domain;
                   pattern_type := derive_patternType b1;
                   confidence_score := b1; detection_count := 1;
                   last_detected := clock w; features := f1 |}).
  assert (Hw1 : w1 = db_log {| log_url := domain; log_pattern_type := derive_patternType b1;
                               log_threat_probability := b1; log_features := f1 |}
                       (db_insert domain (derive_patternType b1) b1 1 f1 w)).
  { unfold w1. rewrite (updateMLPatterns_all_succeed domain f1 b1 w Hs).
    now rewrite (existing_query_none domain w Hnone). }
  assert (Hrows1 : ml_patterns w1 = ml_patterns w ++ [fresh]) by (rewrite Hw1; reflexivity).
  assert (Hfor1 : rows_for domain w1 = [fresh]).
  { rewrite (@rows_for_app domain w1 _ _ Hrows1). fold (rows_for domain w).
    rewrite Hnone. simpl. unfold string_eqb. now rewrite String.eqb_refl. }
  assert (Hs1 : script w1 = []) by (rewrite Hw1; simpl; exact Hs).
  assert (Hc1 : clock w1 = clock w) by (rewrite Hw1; reflexivity).
  split; [now apply existing_query_one |].
  unfold w2. rewrite (updateMLPatterns_all_succeed domain f2 b2 w1 Hs1).
  rewrite (existing_query_one domain w1 Hfor1).
  cbn [db_log ml_patterns db_update set_patterns].
  rewrite Hrows1, map_app, Hc1.
  change (id fresh) with (next_id w).
  rewrite (map_update_fresh (next_id w)
             (fun r => {| id := id r; url_pattern := url_pattern r;
                          pattern_type := pattern_type r;
                          confidence_score := (confidence_score fresh + b2) / 2;
                          detection_count := detection_count fresh + 1;
                          last_detected := clock w; features := f2 |})
             (ml_patterns w) Hfresh).
  simpl. now rewrite N.eqb_refl.
Qed.

Lemma upsert_twice_witness :
  script empty_store = [] /\ rows_for "example.com" empty_store = [] /\
  ~ In (next_id empty_store) (map id (ml_patterns empty_store)) /\
  ml_patterns
    (snd (updateMLPatterns "example.com" long_ip_features 0.4
            (snd (updateMLPatterns "example.com" quiet_features 0.3 empty_store)))) =
    [{| id := 0; url_pattern := "example.com";
        pattern_type := derive_patternType 0.3;
        confidence_score := (0.3 + 0.4) / 2; detection_count := 2;
        last_detected := 0; features := long_ip_features |}].
Proof.
  assert (Hs : script empty_store = []) by reflexivity.
  assert (Hn : rows_for "example.com" empty_store = []) by reflexivity.
  assert (Hf : ~ In (next_id empty_store) (map id (ml_patterns empty_store)))
    by (simpl; tauto).
  split; [exact Hs |]. split; [exact Hn |]. split; [exact Hf |].
  destruct (upsert_twice "example.com" quiet_features long_ip_features 0.3 0.4
              empty_store Hs Hn Hf) as [_ H].
  rewrite H. reflexivity.
Defined.

Lemma classification_body_store ilike (feat : MLFeatures) (domain : string) (w : Store) :
  snd (classification_body ilike feat domain w) =
  snd (updateMLPatterns domain feat
         (threatProbability
            (blend (IZR (calculateMLThreatScore feat) / 100)
               (initialCategories feat) (historical ilike domain w)))
         (after_request w)).
Proof.
  unfold classification_body, bind. rewrite checkHistoricalPatterns_eq.
  assert (Hp : threatProbability
                 (blend (IZR (calculateMLThreatScore feat) / 100)
                    (initialCategories feat) (historical ilike domain w)) =
               match historical ilike domain w with
               | Some h => ((IZR (calculateMLThreatScore feat) / 100 + confidence_score h) / 2)%R
               | None => (IZR (calculateMLThreatScore feat) / 100)%R
               end).
  { unfold blend. destruct (historical ilike domain w); reflexivity. }
  rewrite Hp.
  match goal with
  | |- context [updateMLPatterns ?d ?f ?p ?s] =>
      pose proof (updateMLPatterns_normal d f p s) as Hu;
      destruct (updateMLPatterns d f p s) as [[[] |] w']; simpl in Hu; try discriminate
  end.
  reflexivity.
Qed.

Lemma top_confidence_nonempty (rows : list PatternRow) :
  rows <> [] -> exists b, top_confidence rows = [b].
Proof.
  induction rows as [| r rest IH]; [congruence |]. intros _. simpl.
  destruct rest as [| r' rest'].
  - now exists r.
  - destruct IH as (b & Hb); [discriminate |]. rewrite Hb.
    destruct (Rlt_dec (confidence_score r) (confidence_score b)); eauto.
Qed.

Lemma upsert_leaves_a_row (domain : string) (feat : MLFeatures) (b : R) (w : Store) :
  script w = [] ->
  exists x, In x (ml_patterns (snd (updateMLPatterns domain feat b w))) /\
            url_pattern x = domain.
Proof.
  intros Hs. rewrite (updateMLPatterns_all_succeed domain feat b w Hs).
  destruct (existing_query domain (ml_patterns w)) as [r |] eqn:E.
  - pose proof (existing_query_In _ _ E) as Hin.
    unfold existing_query in E. apply maybeSingle_Some in E.
    assert (Hr : In r (filter (fun x => string_eqb (url_pattern x) domain) (ml_patterns w)))
      by (rewrite E; now left).
    apply filter_In in Hr. destruct Hr as [_ Hr].
    unfold string_eqb in Hr. apply String.eqb_eq in Hr.
    cbn [db_log ml_patterns db_update set_patterns].
    eexists. split.
    + apply in_map_iff. exists r. split; [reflexivity | exact Hin].
    + simpl. destruct (N.eqb (id r) (id r)); simpl; exact Hr.
  - cbn [db_log ml_patterns db_insert]. eexists. split.
    + apply in_or_app. right. now left.
    + reflexivity.
Qed.

(** X10: the feedback loop.  When the lookup pattern matches the domain
    itself and all requests succeed, a classification leaves a row for the
    domain behind, so the next classification for the same domain finds a
    historical record and reports confidence 0.9. *)
Theorem second_scan_has_history URL_hostname ilike (url1 url2 domain : string) (w : Store) :
  script w = [] ->
  ilike domain ("%" ++ domain ++ "%")%string = true ->
  let w1 := snd (performMLClassification URL_hostname ilike url1 domain w) in
  rows_for domain w1 <> [] /\
  exists h a2 w2,
    fst (checkHistoricalPatterns ilike domain w1) = Normal (Some h) /\
    performMLClassification URL_hostname ilike url2 domain w1 = (Normal a2, w2) /\
    confidence a2 = 0.9%R /\
    threatProbability a2 =
      ((IZR (calculateMLThreatScore (extractMLFeatures URL_hostname url2)) / 100 +
        confidence_score h) / 2)%R.
Proof.
  intros Hs Hlike w1.
  assert (Hw1 : w1 = snd (updateMLPatterns domain (extractMLFeatures URL_hostname url1)
                            (threatProbability
                               (blend (IZR (calculateMLThreatScore
                                              (extractMLFeatures URL_hostname url1)) / 100)
                                  (initialCategories (extractMLFeatures URL_hostname url1))
                                  (historical ilike domain w)))
                            (after_request w))).
  { unfold w1. rewrite performMLClassification_body. apply classification_body_store. }
  assert (Hs' : script (after_request w) = []) by (simpl; now rewrite Hs).
  destruct (upsert_leaves_a_row domain (extractMLFeatures URL_hostname url1)
              (threatProbability
                 (blend (IZR (calculateMLThreatScore
                                (extractMLFeatures URL_hostname url1)) / 100)
                    (initialCategories (extractMLFeatures URL_hostname url1))
                    (historical ilike domain w))) (after_request w) Hs')
    as (x & Hx & Hdx).
  rewrite <- Hw1 in Hx.
  assert (Hs1 : script w1 = []).
  { rewrite Hw1, (updateMLPatterns_all_succeed _ _ _ _ Hs').
    destruct (existing_query domain (ml_patterns (after_request w))); exact Hs'. }
  split.
  - intros Hnil.
    assert (Hin : In x (rows_for domain w1)).
    { unfold rows_for. apply filter_In. split; [exact Hx |].
      unfold string_eqb. now apply String.eqb_eq. }
    rewrite Hnil in Hin. destruct Hin.
  - assert (Hne : filter (fun r => ilike (url_pattern r) ("%" ++ domain ++ "%")%string)
                    (ml_patterns w1) <> []).
    { intros Hnil.
      assert (Hin : In x (filter (fun r => ilike (url_pattern r) ("%" ++ domain ++ "%")%string)
                            (ml_patterns w1))).
      { apply filter_In. split; [exact Hx | now rewrite Hdx]. }
      rewrite Hnil in Hin. destruct Hin. }
    destruct (top_confidence_nonempty Hne) as (h & Hh).
    assert (Hhist : historical ilike domain w1 = Some h).
    { unfold historical, first_fault. rewrite Hs1. simpl.
      unfold historical_query. now rewrite Hh. }
    pose proof (performMLClassification_eq URL_hostname ilike url2 domain w1) as Hrun.
    rewrite Hhist in Hrun.
    destruct (performMLClassification URL_hostname ilike url2 domain w1) as [c w2].
    simpl in Hrun. subst c.
    eexists h, _, w2. split.
    + rewrite checkHistoricalPatterns_eq. simpl. now rewrite Hhist.
    + split; [reflexivity |]. split; reflexivity.
Qed.

Lemma second_scan_has_history_witness :
  script empty_store = [] /\
  example_ilike "example.com" "%example.com%" = true /\
  rows_for "example.com"
    (snd (performMLClassification example_URL_hostname example_ilike
            "https://example.com" "example.com" empty_store)) <> [].
Proof.
  assert (Hs : script empty_store = []) by reflexivity.
  assert (Hl : example_ilike "example.com" ("%" ++ "example.com" ++ "%")%string = true)
    by reflexivity.
  split; [exact Hs |]. split; [exact Hl |].
  destruct (second_scan_has_history example_URL_hostname example_ilike
              "https://example.com" "https://example.com" "example.com" empty_store Hs Hl)
    as [H _].
  exact H.
Defined.

(** * The safety score *)

(** ** Patterns with iteration *)

Lemma plang_void_inv (s : string) : plang PVoid s -> False.
Proof. intros H. inversion H. Qed.

Lemma plang_eps_inv (s : string) : plang PEps s -> s = EmptyString.
Proof. intros H. now inversion H. Qed.

Lemma plang_class_inv (cls : ascii -> bool) (s : string) :
  plang (PClass cls) s -> exists c, s = String c EmptyString /\ cls c = true.
Proof. intros H. inversion H; subst. eauto. Qed.

Lemma plang_seq_inv (r1 r2 : pattern) (s : string) :
  plang (PSeq r1 r2) s ->
  exists s1 s2, s = (s1 ++ s2)%string /\ plang r1 s1 /\ plang r2 s2.
Proof. intros H. inversion H; subst. eauto. Qed.

Lemma plang_alt_inv (r1 r2 : pattern) (s : string) :
  plang (PAlt r1 r2) s -> plang r1 s \/ plang r2 s.
Proof. intros H. inversion H; subst; tauto. Qed.

(** A non-empty word of an iteration starts with a non-empty word of the
    body. *)
Lemma plang_star_cons_inv (r : pattern) (c : ascii) (s : string) :
  plang (PStar r) (String c s) ->
  exists s1 s2, s = (s1 ++ s2)%string /\ plang r (String c s1) /\ plang (PStar r) s2.
Proof.
  intros H. remember (PStar r) as R eqn:ER. remember (String c s) as w eqn:Ew.
  revert c s Ew. induction H as [| | | | | | r' s1 s2 H1 _ H2 IH2]; intros a t Ew;
    try discriminate.
  injection ER as ->.
  destruct s1 as [| c1 s1]; simpl in Ew.
  - apply (IH2 eq_refl a t Ew).
  - injection Ew as -> <-. now exists s1, s2.
Qed.

Lemma pnullable_lang (r : pattern) : pnullable r = true <-> plang r EmptyString.
Proof.
  induction r as [| | cls | r1 IH1 r2 IH2 | r1 IH1 r2 IH2 | r IH]; simpl.
  - split; [discriminate | intros H; destruct (plang_void_inv H)].
  - split; [constructor | reflexivity].
  - split; [discriminate |].
    intros H. apply plang_class_inv in H. destruct H as (c & Hc & _). discriminate.
  - rewrite andb_true_iff, IH1, IH2. split.
    + intros [H1 H2]. apply (plang_seq H1 H2).
    + intros H. apply plang_seq_inv in H. destruct H as (s1 & s2 & Hs & H1 & H2).
      symmetry in Hs. apply append_eq_nil in Hs. destruct Hs; subst. now split.
  - rewrite orb_true_iff, IH1, IH2. split.
    + intros [H | H]; [now apply plang_alt_l | now apply plang_alt_r].
    + apply plang_alt_inv.
  - split; [constructor | reflexivity].
Qed.

Lemma pderiv_lang (c : ascii) (r : pattern) :
  forall s, plang (pderiv c r) s <-> plang r (String c s).
Proof.
  induction r as [| | cls | r1 IH1 r2 IH2 | r1 IH1 r2 IH2 | r IH]; intros s; simpl.
  - split; intros H; destruct (plang_void_inv H).
  - split; intros H; [destruct (plang_void_inv H) |].
    apply plang_eps_inv in H. discriminate.
  - destruct (cls c) eqn:E; split; intros H.
    + apply plang_eps_inv in H. subst. now constructor.
    + apply plang_class_inv in H. destruct H as (c' & Hc & _).
      injection Hc as _ ->. constructor.
    + destruct (plang_void_inv H).
    + apply plang_class_inv in H. destruct H as (c' & Hc & Hcls).
      injection Hc as -> _. congruence.
  - assert (Hleft : forall t, plang (PSeq (pderiv c r1) r2) t -> plang (PSeq r1 r2) (String c t)).
    { intros t H. apply plang_seq_inv in H. destruct H as (s1 & s2 & -> & H1 & H2).
      apply IH1 in H1. apply (plang_seq H1 H2). }
    assert (Hback : plang (PSeq r1 r2) (String c s) ->
                    plang (PSeq (pderiv c r1) r2) s \/
                    (pnullable r1 = true /\ plang (pderiv c r2) s)).
    { intros H. apply plang_seq_inv in H. destruct H as (s1 & s2 & Hs & H1 & H2).
      destruct s1 as [| c1 s1]; simpl in Hs.
      - right. subst s2. split; [now apply pnullable_lang | now apply IH2].
      - left. injection Hs as -> ->. apply plang_seq; [now apply IH1 | assumption]. }
    destruct (pnullable r1) eqn:E; split; intros H.
    + apply plang_alt_inv in H. destruct H as [H | H]; [now apply Hleft |].
      apply IH2 in H. apply pnullable_lang in E.
      apply (plang_seq E H).
    + destruct (Hback H) as [H' | [_ H']]; [now apply plang_alt_l | now apply plang_alt_r].
    + now apply Hleft.
    + destruct (Hback H) as [H' | [H' _]]; [assumption | discriminate].
  - split; intros H.
    + apply plang_alt_inv in H.
      destruct H as [H | H]; [apply plang_alt_l, IH1 | apply plang_alt_r, IH2]; assumption.
    + apply plang_alt_inv in H.
      destruct H as [H | H]; [apply plang_alt_l, IH1 | apply plang_alt_r, IH2]; assumption.
  - split; intros H.
    + apply plang_seq_inv in H. destruct H as (s1 & s2 & -> & H1 & H2).
      apply IH in H1. apply (plang_star_cons H1 H2).
    + apply plang_star_cons_inv in H. destruct H as (s1 & s2 & -> & H1 & H2).
      apply plang_seq; [now apply IH | assumption].
Qed.

Lemma pmatch_here_spec (s : string) :
  forall r, pmatch_here r s = true <->
            exists m post, s = (m ++ post)%string /\ plang r m.
Proof.
  induction s as [| c s IH]; intros r; cbn [pmatch_here].
  - rewrite orb_false_r, pnullable_lang. split.
    + intros H. now exists EmptyString, EmptyString.
    + intros (m & post & Hs & H). symmetry in Hs. apply append_eq_nil in Hs.
      destruct Hs; now subst.
  - rewrite orb_true_iff, pnullable_lang, IH. split.
    + intros [H | (m & post & -> & H)].
      * now exists EmptyString, (String c s).
      * exists (String c m), post. split; [reflexivity | now apply pderiv_lang].
    + intros (m & post & Hs & H). destruct m as [| c' m]; [now left |].
      right. simpl in Hs. injection Hs as <- ->.
      exists m, post. split; [reflexivity | now apply pderiv_lang].
Qed.

Lemma pattern_test_spec (r : pattern) (s : string) :
  pattern_test r s = true <->
  exists pre m post, s = (pre ++ m ++ post)%string /\ plang r m.
Proof.
  induction s as [| c s IH]; cbn [pattern_test].
  - rewrite orb_false_r, pmatch_here_spec. split.
    + intros (m & post & Hs & H). now exists EmptyString, m, post.
    + intros (pre & m & post & Hs & H).
      symmetry in Hs. apply append_eq_nil in Hs. destruct Hs as [-> Hs].
      exists m, post. now split.
  - rewrite orb_true_iff, pmatch_here_spec, IH. split.
    + intros [(m & post & Hs & H) | (pre & m & post & -> & H)].
      * now exists EmptyString, m, post.
      * now exists (String c pre), m, post.
    + intros (pre & m & post & Hs & H). destruct pre as [| c' pre]; simpl in Hs.
      * left. now exists m, post.
      * right. injection Hs as <- ->. now exists pre, m, post.
Qed.

Lemma of_regex_nullable (r : regex) : pnullable (of_regex r) = nullable r.
Proof. induction r; simpl; congruence. Qed.

Lemma of_regex_deriv (c : ascii) (r : regex) :
  pderiv c (of_regex r) = of_regex (deriv c r).
Proof.
  induction r as [| | cls | r1 IH1 r2 IH2 | r1 IH1 r2 IH2]; simpl; try reflexivity.
  - destruct (cls c); reflexivity.
  - rewrite of_regex_nullable. destruct (nullable r1); simpl; congruence.
  - congruence.
Qed.

Lemma of_regex_match_here (s : string) :
  forall r, pmatch_here (of_regex r) s = match_here r s.
Proof.
  induction s as [| c s IH]; intros r; simpl.
  - now rewrite of_regex_nullable.
  - now rewrite of_regex_nullable, of_regex_deriv, IH.
Qed.

Lemma of_regex_test (r : regex) (s : string) :
  pattern_test (of_regex r) s = regex_test r s.
Proof.
  induction s as [| c s IH]; cbn [pattern_test regex_test].
  - now rewrite of_regex_match_here.
  - now rewrite of_regex_match_here, IH.
Qed.

(** ** What the four patterns match *)

Lemma plang_star_class (cls : ascii -> bool) (m : string) :
  plang (PStar (PClass cls)) m <-> all_in cls m = true.
Proof.
  induction m as [| c m IH]; simpl.
  - split; [reflexivity | constructor].
  - rewrite andb_true_iff. split.
    + intros H. apply plang_star_cons_inv in H.
      destruct H as (s1 & s2 & -> & H1 & H2).
      apply plang_class_inv in H1. destruct H1 as (c' & Hc & Hcls).
      injection Hc as -> ->. simpl in IH. split; [assumption | now apply IH].
    + intros [Hc Hm].
      apply (plang_star_cons (s1 := String c EmptyString) (s2 := m));
        [now constructor | now apply IH].
Qed.

Lemma all_in_app (cls : ascii -> bool) (a b : string) :
  all_in cls (a ++ b) = all_in cls a && all_in cls b.
Proof.
  induction a as [| x a IH]; simpl; [reflexivity |].
  now rewrite IH, andb_assoc.
Qed.

Lemma plang_prepeat_class (cls : ascii -> bool) (n : nat) :
  forall m, plang (prepeat n (PClass cls)) m <->
            String.length m = n /\ all_in cls m = true.
Proof.
  induction n as [| n IH]; intros m; simpl.
  - split.
    + intros H. apply plang_eps_inv in H. now subst.
    + intros [H _]. destruct m; [constructor | discriminate].
  - split.
    + intros H. apply plang_seq_inv in H. destruct H as (s1 & s2 & -> & H1 & H2).
      apply plang_class_inv in H1. destruct H1 as (c & -> & Hc).
      apply IH in H2. destruct H2 as [Hl Ha]. simpl. rewrite Hc, Hl, Ha. now split.
    + intros [Hl Ha]. destruct m as [| c m]; [discriminate |].
      simpl in Hl, Ha. apply andb_true_iff in Ha. destruct Ha as [Hc Ha].
      apply (plang_seq (s1 := String c EmptyString) (s2 := m));
        [now constructor |].
      apply IH. split; [lia | assumption].
Qed.

Lemma split_at (cls : ascii -> bool) (n : nat) :
  forall m, (n <= String.length m)%nat -> all_in cls m = true ->
            exists m1 m2, m = (m1 ++ m2)%string /\ String.length m1 = n /\
                          all_in cls m1 = true /\ all_in cls m2 = true.
Proof.
  induction n as [| n IH]; intros m Hl Ha.
  - now exists EmptyString, m.
  - destruct m as [| c m]; simpl in Hl; [lia |].
    simpl in Ha. apply andb_true_iff in Ha. destruct Ha as [Hc Ha].
    destruct (IH m) as (m1 & m2 & -> & Hl1 & Ha1 & Ha2); [lia | assumption |].
    exists (String c m1), m2. simpl. rewrite Hc, Ha1, Hl1. now repeat split.
Qed.

Lemma plang_long_token (m : string) :
  plang pattern_long_token m <->
  (20 <= String.length m)%nat /\ all_in cls_lower_alnum m = true.
Proof.
  unfold pattern_long_token, at_least. split.
  - intros H. apply plang_seq_inv in H. destruct H as (s1 & s2 & -> & H1 & H2).
    apply plang_prepeat_class in H1. destruct H1 as [Hl Ha].
    apply plang_star_class in H2.
    rewrite length_append, all_in_app, Ha, H2. split; [lia | reflexivity].
  - intros [Hl Ha].
    destruct (@split_at cls_lower_alnum 20%nat m Hl Ha) as (m1 & m2 & -> & Hl1 & Ha1 & Ha2).
    apply plang_seq; [apply plang_prepeat_class; now split | now apply plang_star_class].
Qed.

Lemma toLowerCase_app (a b : string) :
  toLowerCase (a ++ b) = (toLowerCase a ++ toLowerCase b)%string.
Proof. induction a as [| x a IH]; simpl; [reflexivity | now rewrite IH]. Qed.

Lemma toLowerCase_split (s : string) :
  forall a b, toLowerCase s = (a ++ b)%string ->
              exists s1 s2, s = (s1 ++ s2)%string /\
                            toLowerCase s1 = a /\ toLowerCase s2 = b.
Proof.
  induction s as [| c s IH]; intros a b H; simpl in H.
  - symmetry in H. apply append_eq_nil in H. destruct H as [-> ->].
    now exists EmptyString, EmptyString.
  - destruct a as [| x a]; simpl in H.
    + exists EmptyString, (String c s). now repeat split.
    + injection H as Hx Hs. destruct (IH a b Hs) as (s1 & s2 & -> & H1 & H2).
      exists (String c s1), s2. simpl. rewrite Hx, H1. now repeat split.
Qed.

Lemma plang_literal_i (k : string) :
  forall m, plang (literal_i k) m <-> toLowerCase m = toLowerCase k.
Proof.
  induction k as [| c k IH]; intros m; simpl.
  - split.
    + intros H. apply plang_eps_inv in H. now subst.
    + intros H. destruct m; [constructor | discriminate].
  - split.
    + intros H. apply plang_seq_inv in H. destruct H as (s1 & s2 & -> & H1 & H2).
      apply plang_class_inv in H1. destruct H1 as (x & -> & Hx).
      apply Ascii.eqb_eq in Hx. apply IH in H2. simpl. now rewrite Hx, H2.
    + intros H. destruct m as [| x m]; [discriminate |].
      simpl in H. injection H as Hx Hm.
      apply (plang_seq (s1 := String x EmptyString) (s2 := m)).
      * constructor. now apply Ascii.eqb_eq.
      * now apply IH.
Qed.

Lemma pattern_test_literal_i (k url : string) :
  toLowerCase k = k ->
  (pattern_test (literal_i k) url = true <-> includes (toLowerCase url) k = true).
Proof.
  intros Hk. rewrite pattern_test_spec, includes_spec. split.
  - intros (pre & m & post & -> & H). apply plang_literal_i in H.
    exists (toLowerCase pre), (toLowerCase post).
    rewrite !toLowerCase_app, H, Hk. reflexivity.
  - intros (pre & post & H).
    destruct (toLowerCase_split _ _ _ H) as (s1 & s23 & -> & H1 & H23).
    destruct (toLowerCase_split _ _ _ H23) as (s2 & s3 & -> & H2 & H3).
    exists s1, s2, s3. split; [reflexivity |].
    apply plang_literal_i. now rewrite H2, Hk.
Qed.

Lemma pattern_test_alt (r1 r2 : pattern) (s : string) :
  pattern_test (PAlt r1 r2) s = pattern_test r1 s || pattern_test r2 s.
Proof.
  apply eq_true_iff_eq. rewrite orb_true_iff, !pattern_test_spec. split.
  - intros (pre & m & post & Hs & H). apply plang_alt_inv in H.
    destruct H as [H | H]; [left | right]; now exists pre, m, post.
  - intros [(pre & m & post & Hs & H) | (pre & m & post & Hs & H)];
      exists pre, m, post; (split; [assumption |]);
      [now apply plang_alt_l | now apply plang_alt_r].
Qed.

Lemma pattern_keywords_includes (url : string) :
  pattern_test pattern_keywords url =
  existsb (fun k => includes (toLowerCase url) k) safety_keywords.
Proof.
  assert (H : forall k, toLowerCase k = k ->
                        pattern_test (literal_i k) url = includes (toLowerCase url) k).
  { intros k Hk. apply eq_true_iff_eq. now apply pattern_test_literal_i. }
  unfold pattern_keywords, safety_keywords. rewrite !pattern_test_alt.
  rewrite !H by reflexivity. cbn [existsb]. now rewrite orb_false_r.
Qed.

Lemma plang_hyphens (m : string) :
  plang pattern_hyphens m <->
  exists b c, m = ("-" ++ b ++ "-" ++ c ++ "-")%string /\
              all_in cls_any b = true /\ all_in cls_any c = true.
Proof.
  assert (Hh : forall s, plang (PClass cls_hyphen) s <-> s = "-").
  { intros s. split.
    - intros H. apply plang_class_inv in H. destruct H as (x & -> & Hx).
      unfold cls_hyphen in Hx. apply Ascii.eqb_eq in Hx. now subst.
    - intros ->. now constructor. }
  unfold pattern_hyphens. split.
  - intros H.
    apply plang_seq_inv in H. destruct H as (h1 & t1 & -> & H1 & H).
    apply plang_seq_inv in H. destruct H as (b & t2 & -> & Hb & H).
    apply plang_seq_inv in H. destruct H as (h2 & t3 & -> & H2 & H).
    apply plang_seq_inv in H. destruct H as (c & h3 & -> & Hc & H3).
    apply Hh in H1, H2, H3. subst. apply plang_star_class in Hb, Hc.
    now exists b, c.
  - intros (b & c & -> & Hb & Hc).
    apply plang_seq; [now apply Hh |].
    apply plang_seq; [now apply plang_star_class |].
    apply plang_seq; [now apply Hh |].
    apply plang_seq; [now apply plang_star_class | now apply Hh].
Qed.

(** X11: what the four URL-structure patterns of the safety score match.
    The IP pattern fires exactly when the classifier's hasIpAddress does
    (a dotted quad anywhere); the long-token pattern when 20 or more
    consecutive characters are lower-case letters or digits; the keyword
    pattern when the lower-cased url contains "secure", "login", "verify",
    "update" or "confirm", in which case the classifier's keyword flag is
    set too; the hyphen pattern when three hyphens occur with no line break
    between them, in which case the classifier's hyphen rule (more than 2
    hyphens) fires too. *)
Theorem safety_patterns_meaning URL_hostname (url : string) :
  pattern_test pattern_ip url = hasIpAddress (extractMLFeatures URL_hostname url) /\
  (pattern_test pattern_long_token url = true <->
   exists pre m post, url = (pre ++ m ++ post)%string /\
                      (20 <= String.length m)%nat /\ all_in cls_lower_alnum m = true) /\
  (pattern_test pattern_keywords url = true <->
   exists k pre post, In k safety_keywords /\
                      toLowerCase url = (pre ++ k ++ post)%string) /\
  (pattern_test pattern_keywords url = true ->
   hasSuspiciousKeywords (extractMLFeatures URL_hostname url) = true) /\
  (pattern_test pattern_hyphens url = true <->
   exists a b c d, url = (a ++ "-" ++ b ++ "-" ++ c ++ "-" ++ d)%string /\
                   all_in cls_any b = true /\ all_in cls_any c = true) /\
  (pattern_test pattern_hyphens url = true ->
   numHyphens (extractMLFeatures URL_hostname url) > 2).
Proof.
  assert (Hhy : pattern_test pattern_hyphens url = true <->
                exists a b c d, url = (a ++ "-" ++ b ++ "-" ++ c ++ "-" ++ d)%string /\
                                all_in cls_any b = true /\ all_in cls_any c = true).
  { rewrite pattern_test_spec. split.
    - intros (pre & m & post & -> & H). apply plang_hyphens in H.
      destruct H as (b & c & -> & Hb & Hc). exists pre, b, c, post.
      split; [| now split]. now rewrite !append_assoc.
    - intros (a & b & c & d & -> & Hb & Hc).
      exists a, ("-" ++ b ++ "-" ++ c ++ "-")%string, d.
      split; [now rewrite !append_assoc |].
      apply plang_hyphens. now exists b, c. }
  split; [apply of_regex_test |].
  split.
  { rewrite pattern_test_spec. split.
    - intros (pre & m & post & Hs & H). apply plang_long_token in H.
      now exists pre, m, post.
    - intros (pre & m & post & Hs & H). exists pre, m, post.
      split; [assumption | now apply plang_long_token]. }
  split.
  { rewrite pattern_keywords_includes, existsb_exists. split.
    - intros (k & Hin & Hk). apply includes_spec in Hk.
      destruct Hk as (pre & post & Hk). now exists k, pre, post.
    - intros (k & pre & post & Hin & Hk). exists k. split; [assumption |].
      apply includes_spec. now exists pre, post. }
  split.
  { rewrite pattern_keywords_includes.
    change (hasSuspiciousKeywords (extractMLFeatures URL_hostname url))
      with (existsb (fun k => includes (toLowerCase url) k) suspiciousKeywords).
    rewrite !existsb_exists. intros (k & Hin & Hk). exists k. split; [| assumption].
    unfold safety_keywords in Hin. unfold suspiciousKeywords. simpl in *.
    intuition. }
  split; [exact Hhy |].
  intros H. apply Hhy in H. destruct H as (a & b & c & d & -> & _ & _).
  change (numHyphens (extractMLFeatures URL_hostname
                        (a ++ "-" ++ b ++ "-" ++ c ++ "-" ++ d)))
    with (count_matches cls_hyphen (a ++ "-" ++ b ++ "-" ++ c ++ "-" ++ d)).
  rewrite !count_matches_app. change (count_matches cls_hyphen "-") with 1.
  pose proof (count_matches_nonneg cls_hyphen a).
  pose proof (count_matches_nonneg cls_hyphen b).
  pose proof (count_matches_nonneg cls_hyphen c).
  pose proof (count_matches_nonneg cls_hyphen d).
  lia.
Qed.

Lemma safety_patterns_meaning_witness :
  pattern_test pattern_hyphens "a-b-c-d e" = true /\
  numHyphens (extractMLFeatures example_URL_hostname "a-b-c-d e") > 2.
Proof.
  assert (H : pattern_test pattern_hyphens "a-b-c-d e" = true) by reflexivity.
  split; [exact H |].
  destruct (safety_patterns_meaning example_URL_hostname "a-b-c-d e")
    as (_ & _ & _ & _ & _ & Hh).
  apply (Hh H).
Defined.

(** ** calculateSafetyScore *)

Lemma safety_fold (url : string) (score : Z) :
  fold_left (fun score pattern => if pattern_test pattern url then score - 4 else score)
    suspiciousPatterns score = score - 4 * matched_patterns url.
Proof.
  unfold matched_patterns, suspiciousPatterns. cbn [fold_left fold_right].
  destruct (pattern_test pattern_ip url), (pattern_test pattern_long_token url),
    (pattern_test pattern_keywords url), (pattern_test pattern_hyphens url); lia.
Qed.

Lemma matched_patterns_range (url : string) : 0 <= matched_patterns url <= 4.
Proof.
  unfold matched_patterns, suspiciousPatterns. cbn [fold_left fold_right].
  destruct (pattern_test pattern_ip url), (pattern_test pattern_long_token url),
    (pattern_test pattern_keywords url), (pattern_test pattern_hyphens url); lia.
Qed.

Ltac safety_cases ssl domain threats url :=
  unfold calculateSafetyScore; cbv zeta; rewrite safety_fold;
  pose proof (matched_patterns_range url);
  destruct (isValid ssl); cbn [negb];
  destruct (String.eqb (grade ssl) "F"), (String.eqb (grade ssl) "C"),
    (String.eqb (grade ssl) "D"); cbn [orb];
  destruct (int_lt (ageDays domain) 30) eqn:?, (int_lt (ageDays domain) 365) eqn:?,
    (int_lt (ageDays domain) 730) eqn:?;
  destruct (Z.gtb_spec (maliciousCount threats) 0),
    (Z.gtb_spec (suspiciousCount threats) 3),
    (Z.gtb_spec (suspiciousCount threats) 1).

(** X12: the safety score lies in [0,100] and single findings cap it: a
    positive malicious count caps it at 60 and an invalid certificate on a
    domain younger than 730 days at 65, both below the safe threshold 70; a
    score of 70 or more needs a non-positive malicious count and, with an
    invalid certificate, a domain of 730 days or more (or of unknown age),
    at most one suspicious report and at most one matching pattern.  With
    the default certificate and domain data (both lookups failed) the score
    is at most 55. *)
Theorem safety_score_caps (ssl : SSLData) (domain : DomainData)
    (threats : ThreatData) (url : string) :
  let s := calculateSafetyScore ssl domain threats url in
  0 <= s <= 100 /\
  (maliciousCount threats > 0 -> s <= 60) /\
  (isValid ssl = false -> int_lt (ageDays domain) 730 = true -> s <= 65) /\
  (70 <= s ->
   maliciousCount threats <= 0 /\
   (isValid ssl = false ->
    int_lt (ageDays domain) 730 = false /\ suspiciousCount threats <= 1 /\
    matched_patterns url <= 1)) /\
  calculateSafetyScore getDefaultSSL getDefaultDomain threats url <= 55.
Proof.
  cbv zeta. split; [| split; [| split; [| split]]].
  - safety_cases ssl domain threats url; lia.
  - intros Hm. safety_cases ssl domain threats url; lia.
  - intros Hv Ha.
    assert (Hs : calculateSafetyScore ssl domain threats url <=
                 100 - 25 - 10).
    { unfold calculateSafetyScore; cbv zeta; rewrite safety_fold.
      pose proof (matched_patterns_range url).
      rewrite Hv; cbn [negb].
      destruct (int_lt (ageDays domain) 30), (int_lt (ageDays domain) 365);
        rewrite ?Ha;
        destruct (Z.gtb_spec (maliciousCount threats) 0),
          (Z.gtb_spec (suspiciousCount threats) 3),
          (Z.gtb_spec (suspiciousCount threats) 1); lia. }
    lia.
  - intros Hs. split.
    + revert Hs. safety_cases ssl domain threats url; lia.
    + intros Hv. revert Hs.
      unfold calculateSafetyScore; cbv zeta; rewrite safety_fold.
      pose proof (matched_patterns_range url).
      rewrite Hv; cbn [negb].
      destruct (int_lt (ageDays domain) 30), (int_lt (ageDays domain) 365),
        (int_lt (ageDays domain) 730);
        destruct (Z.gtb_spec (maliciousCount threats) 0),
          (Z.gtb_spec (suspiciousCount threats) 3),
          (Z.gtb_spec (suspiciousCount threats) 1);
        intros Hs; repeat split; try reflexivity; lia.
  - unfold calculateSafetyScore; cbv zeta; rewrite safety_fold.
    pose proof (matched_patterns_range url).
    change (isValid getDefaultSSL) with false.
    change (ageDays getDefaultDomain) with (Int 0).
    cbn [negb int_lt]. change (0 <? 30) with true. cbv iota.
    destruct (Z.gtb_spec (maliciousCount threats) 0),
      (Z.gtb_spec (suspiciousCount threats) 3),
      (Z.gtb_spec (suspiciousCount threats) 1); lia.
Qed.

Lemma safety_score_caps_witness :
  let threats := {| categories := []; threat_confidence := Num 0.75;
                    maliciousCount := 1; suspiciousCount := 1 |} in
  let ssl := {| isValid := true; issuer := "R3"; expiresAt := None; grade := "A" |} in
  let domain := {| ageDays := Int 4000; registrar := "x"; country := "y" |} in
  maliciousCount threats > 0 /\
  calculateSafetyScore ssl domain threats "https://example.com" <= 60.
Proof.
  intros threats ssl domain.
  assert (H : maliciousCount threats > 0) by (simpl; lia).
  split; [exact H |].
  destruct (safety_score_caps ssl domain threats "https://example.com") as (_ & Hm & _).
  apply (Hm H).
Defined.

(** X13: the floor of the safety score.  The sum of all deductions is at
    most 101, so the clamp at 0 only ever turns -1 into 0: the score is 0
    exactly when the certificate is invalid, the domain is younger than 30
    days, the malicious count is positive and all four patterns match;
    otherwise it is at least 3. *)
Theorem safety_score_floor (ssl : SSLData) (domain : DomainData)
    (threats : ThreatData) (url : string) :
  let s := calculateSafetyScore ssl domain threats url in
  (s = 0 <->
   isValid ssl = false /\ int_lt (ageDays domain) 30 = true /\
   maliciousCount threats > 0 /\ matched_patterns url = 4) /\
  (s = 0 \/ 3 <= s).
Proof.
  cbv zeta. split; [split |].
  - safety_cases ssl domain threats url; intros Hs;
      repeat split; try reflexivity; lia.
  - intros (Hv & Ha & Hm & Hp).
    unfold calculateSafetyScore; cbv zeta; rewrite safety_fold.
    rewrite Hv, Ha, Hp; cbn [negb].
    destruct (Z.gtb_spec (maliciousCount threats) 0); lia.
  - safety_cases ssl domain threats url; lia.
Qed.

(** * Threat intelligence and the scan *)

Lemma performMLClassification_run URL_hostname ilike (url domain : string) (w : Store) :
  performMLClassification URL_hostname ilike url domain w =
  (Normal (ml_assessment URL_hostname ilike url domain w),
   snd (performMLClassification URL_hostname ilike url domain w)).
Proof.
  pose proof (performMLClassification_eq URL_hostname ilike url domain w) as H.
  destruct (performMLClassification URL_hostname ilike url domain w) as [c w1].
  simpl in *. now subst.
Qed.

Lemma submitUrlForAnalysis_run (vt : VirusTotal) (w : Store) :
  submitUrlForAnalysis vt w = (Normal tt, w).
Proof.
  unfold submitUrlForAnalysis, try_catch. destruct (vt_submit_rejects vt); reflexivity.
Qed.

Lemma ml_assessment_isPhishing URL_hostname ilike (url domain : string) (w : Store) :
  isPhishing (ml_assessment URL_hostname ilike url domain w) =
  num_gt (threatProbability (ml_assessment URL_hostname ilike url domain w)) 0.5.
Proof.
  unfold ml_assessment, blend. destruct (historical ilike domain w); reflexivity.
Qed.

(** X14: without a VirusTotal key, or when the report request is answered
    with a non-OK status (a 404 also triggers a submission, whose failure
    is swallowed), the threat data are the classifier's own: its categories
    and confidence, and a malicious and a suspicious count that are both 1
    when the blended probability exceeds 0.5 and both 0 otherwise.  The
    store is left as the classification left it. *)
Theorem threat_intelligence_ml_only URL_hostname ilike (vt : VirusTotal)
    (url domain : string) (w : Store) :
  key_missing (vt_key vt) = true \/
  (exists response_status body, vt_answer vt = VTResponse false response_status body) ->
  let a := ml_assessment URL_hostname ilike url domain w in
  checkThreatIntelligence URL_hostname ilike vt url domain w =
    (Normal {| categories := predictedCategories a;
               threat_confidence := Num (confidence a);
               maliciousCount := if isPhishing a then 1 else 0;
               suspiciousCount := if isPhishing a then 1 else 0 |},
     snd (performMLClassification URL_hostname ilike url domain w)) /\
  (isPhishing a = true <-> (threatProbability a > 0.5)%R).
Proof.
  intros Hcase a. split.
  - unfold checkThreatIntelligence, try_catch, bind.
    rewrite performMLClassification_run. fold a.
    assert (Hml : ml_only a =
                  {| categories := predictedCategories a;
                     threat_confidence := Num (confidence a);
                     maliciousCount := if isPhishing a then 1 else 0;
                     suspiciousCount := if isPhishing a then 1 else 0 |}).
    { unfold ml_only, a. rewrite <- ml_assessment_isPhishing. reflexivity. }
    destruct (key_missing (vt_key vt)) eqn:Ek.
    + unfold ret. now rewrite Hml.
    + destruct Hcase as [Hk | (st & body & Hans)]; [discriminate |].
      rewrite Hans. cbn [negb].
      destruct (st =? 404).
      * rewrite submitUrlForAnalysis_run. unfold ret. now rewrite Hml.
      * unfold ret. now rewrite Hml.
  - unfold a. rewrite ml_assessment_isPhishing. apply num_gt_iff.
Qed.

Lemma threat_intelligence_ml_only_witness :
  (key_missing (vt_key no_vt_key) = true \/
   exists response_status body, vt_answer no_vt_key = VTResponse false response_status body) /\
  categories
    (match fst (checkThreatIntelligence example_URL_hostname example_ilike no_vt_key
                  "https://example.com" "example.com" empty_store) with
     | Normal t => t
     | Throw => getDefaultThreats
     end) =
  predictedCategories
    (ml_assessment example_URL_hostname example_ilike
       "https://example.com" "example.com" empty_store).
Proof.
  assert (H : key_missing (vt_key no_vt_key) = true \/
              exists response_status body,
                vt_answer no_vt_key = VTResponse false response_status body)
    by (left; reflexivity).
  split; [exact H |].
  destruct (threat_intelligence_ml_only example_URL_hostname example_ilike no_vt_key
              "https://example.com" "example.com" empty_store H) as [Hrun _].
  rewrite Hrun. reflexivity.
Defined.

(** X15: with a key configured, a report request that rejects, or an OK
    response whose body cannot be read, discards the classifier's verdict:
    the default threat data are returned (no categories, confidence 0, both
    counts 0), although the classification has run and left its pattern in
    the store. *)
Theorem threat_intelligence_drops_verdict URL_hostname ilike (vt : VirusTotal)
    (url domain : string) (w : Store) :
  key_missing (vt_key vt) = false ->
  vt_answer vt = VTRejects \/
  (exists response_status, vt_answer vt = VTResponse true response_status None) ->
  checkThreatIntelligence URL_hostname ilike vt url domain w =
    (Normal {| categories := []; threat_confidence := Num 0;
               maliciousCount := 0; suspiciousCount := 0 |},
     snd (performMLClassification URL_hostname ilike url domain w)).
Proof.
  intros Hk Hans.
  unfold checkThreatIntelligence, try_catch, bind.
  rewrite performMLClassification_run, Hk.
  destruct Hans as [-> | (st & ->)]; reflexivity.
Qed.

Lemma threat_intelligence_drops_verdict_witness :
  key_missing (vt_key vt_unreachable) = false /\
  (vt_answer vt_unreachable = VTRejects \/
   exists response_status, vt_answer vt_unreachable = VTResponse true response_status None) /\
  fst (checkThreatIntelligence example_URL_hostname example_ilike vt_unreachable
         "https://example.com" "example.com" empty_store) = Normal getDefaultThreats.
Proof.
  assert (Hk : key_missing (vt_key vt_unreachable) = false) by reflexivity.
  assert (Ha : vt_answer vt_unreachable = VTRejects \/
               exists response_status,
                 vt_answer vt_unreachable = VTResponse true response_status None)
    by (left; reflexivity).
  split; [exact Hk |]. split; [exact Ha |].
  rewrite (threat_intelligence_drops_verdict example_URL_hostname example_ilike
             vt_unreachable "https://example.com" "example.com" empty_store Hk Ha).
  reflexivity.
Defined.

Lemma Set_of_NoDup_aux (l : list string) :
  forall acc, NoDup (acc ++ l) ->
              fold_left (fun acc x => if existsb (String.eqb x) acc then acc else acc ++ [x])
                l acc = acc ++ l.
Proof.
  induction l as [| x l IH]; intros acc Hnd; simpl.
  - now rewrite app_nil_r.
  - assert (Hx : existsb (String.eqb x) acc = false).
    { apply not_true_is_false. intros H. apply existsb_exists in H.
      destruct H as (y & Hy & E). apply String.eqb_eq in E. subst y.
      apply NoDup_remove_2 in Hnd. apply Hnd. apply in_or_app. now left. }
    rewrite Hx. rewrite IH; rewrite <- app_assoc; simpl; [reflexivity | assumption].
Qed.

(** A list without repetitions goes through [new Set] unchanged. *)
Lemma Set_of_NoDup (l : list string) : NoDup l -> Set_of l = l.
Proof. intros H. unfold Set_of. now rewrite Set_of_NoDup_aux. Qed.

Lemma ml_categories_NoDup URL_hostname ilike (url domain : string) (w : Store) :
  NoDup (predictedCategories (ml_assessment URL_hostname ilike url domain w)).
Proof.
  assert (H : forall f, NoDup (push_order_categories f ++ ["Known phishing pattern"])).
  { intros f. unfold push_order_categories, labelled.
    destruct (hasIpAddress f), (hasSuspiciousKeywords f), (urlLength f >? 100),
      (subdomainCount f >? 3), (num_gt (entropyScore f) 4.5); simpl;
      repeat constructor; simpl; intuition discriminate. }
  unfold ml_assessment, blend.
  specialize (H (extractMLFeatures URL_hostname url)).
  rewrite initialCategories_push_order.
  destruct (historical ilike domain w) as [h |]; simpl.
  - destruct (is_phishing_type (pattern_type h)); [exact H |].
    rewrite app_nil_r. now apply NoDup_app_remove_r in H.
  - now apply NoDup_app_remove_r in H.
Qed.

Lemma ml_confidence_values URL_hostname ilike (url domain : string) (w : Store) :
  confidence (ml_assessment URL_hostname ilike url domain w) = 0.75%R \/
  confidence (ml_assessment URL_hostname ilike url domain w) = 0.9%R.
Proof.
  unfold ml_assessment, blend. destruct (historical ilike domain w); simpl; auto.
Qed.

(** X16: with a key and a readable OK report, the categories are the
    classifier's categories (which never repeat, so the [Set] changes
    nothing) followed by the labels the report triggers, where "phishing"
    and "malware" can each appear twice; the counts are the report's, 0
    when a count is missing; the confidence is the mean of the classifier's
    confidence and min((malicious + suspicious) / 10, 1), which lies in
    [0.375, 0.95] for non-negative counts and is NaN when a count is
    missing. *)
Theorem threat_intelligence_merges_report URL_hostname ilike (vt : VirusTotal)
    (url domain : string) (w : Store) (response_status : Z) (data : VTBody) :
  key_missing (vt_key vt) = false ->
  vt_answer vt = VTResponse true response_status (Some data) ->
  let a := ml_assessment URL_hostname ilike url domain w in
  exists t,
    fst (checkThreatIntelligence URL_hostname ilike vt url domain w) = Normal t /\
    categories t = predictedCategories a ++ vt_labels data /\
    (undef_gt (stat_suspicious data) 2 = true -> cat_phishing data = true ->
     ~ NoDup (categories t)) /\
    maliciousCount t = or_zero (stat_malicious data) /\
    suspiciousCount t = or_zero (stat_suspicious data) /\
    (forall m s, stat_malicious data = Some m -> stat_suspicious data = Some s ->
       threat_confidence t = Num ((confidence a + Math_min (IZR (m + s) / 10) 1) / 2) /\
       (0 <= m + s ->
        (0.375 <= (confidence a + Math_min (IZR (m + s) / 10) 1) / 2 <= 0.95)%R)) /\
    (stat_malicious data = None \/ stat_suspicious data = None ->
     threat_confidence t = NaN).
Proof.
  intros Hk Hans a.
  assert (Hcats :
    forall c0,
      (let c1 := if undef_gt (stat_malicious data) 0 then c0 ++ ["malware"] else c0 in
       let c2 := if undef_gt (stat_suspicious data) 2 then c1 ++ ["phishing"] else c1 in
       let c3 := if cat_phishing data then c2 ++ ["phishing"] else c2 in
       if cat_malware data then c3 ++ ["malware"] else c3) = c0 ++ vt_labels data).
  { intros c0. unfold vt_labels. cbv zeta.
    destruct (undef_gt (stat_malicious data) 0), (undef_gt (stat_suspicious data) 2),
      (cat_phishing data), (cat_malware data); simpl;
      rewrite <- ?app_assoc; simpl; rewrite ?app_nil_r; reflexivity. }
  assert (Hrun :
    fst (checkThreatIntelligence URL_hostname ilike vt url domain w) =
    Normal {| categories := predictedCategories a ++ vt_labels data;
              threat_confidence :=
                combinedConfidence (confidence a) (stat_malicious data)
                  (stat_suspicious data);
              maliciousCount := or_zero (stat_malicious data);
              suspiciousCount := or_zero (stat_suspicious data) |}).
  { unfold checkThreatIntelligence, try_catch, bind.
    rewrite performMLClassification_run, Hk, Hans. cbn [negb]. unfold ret. cbn [fst].
    rewrite (Set_of_NoDup (ml_categories_NoDup URL_hostname ilike url domain w)).
    fold a. f_equal. f_equal. apply (Hcats (predictedCategories a)). }
  eexists. split; [exact Hrun |].
  cbn [categories threat_confidence maliciousCount suspiciousCount].
  - split; [reflexivity |]. split.
    + intros Hs Hp Hnd. apply NoDup_app_remove_l in Hnd.
      unfold vt_labels in Hnd. rewrite Hs, Hp in Hnd.
      apply NoDup_app_remove_l in Hnd. simpl in Hnd.
      inversion Hnd as [| ? ? Hnotin _]; subst. apply Hnotin. now left.
    + split; [reflexivity |]. split; [reflexivity |]. split.
      * intros m s Hm Hs. rewrite Hm, Hs. split; [reflexivity |].
        intros Hpos.
        assert (Hq : (0 <= IZR (m + s) / 10)%R).
        { apply IZR_le in Hpos. lra. }
        assert (Hmin : (0 <= Math_min (IZR (m + s) / 10) 1 <= 1)%R).
        { unfold Math_min. destruct (Rle_dec (IZR (m + s) / 10) 1); lra. }
        destruct (ml_confidence_values URL_hostname ilike url domain w) as [Hc' | Hc'];
          fold a in Hc'; rewrite Hc'; lra.
      * intros [Hn | Hn]; rewrite Hn; unfold combinedConfidence;
          [reflexivity | destruct (stat_malicious data); reflexivity].
Qed.

Lemma threat_intelligence_merges_report_witness :
  key_missing (vt_key vt_partial) = false /\
  vt_answer vt_partial = VTResponse true 200 (Some partial_report) /\
  exists t,
    fst (checkThreatIntelligence example_URL_hostname example_ilike vt_partial
           "https://example.com" "example.com" empty_store) = Normal t /\
    threat_confidence t = NaN /\ maliciousCount t = 0.
Proof.
  assert (Hk : key_missing (vt_key vt_partial) = false) by reflexivity.
  assert (Ha : vt_answer vt_partial = VTResponse true 200 (Some partial_report))
    by reflexivity.
  split; [exact Hk |]. split; [exact Ha |].
  destruct (threat_intelligence_merges_report example_URL_hostname example_ilike
              vt_partial "https://example.com" "example.com" empty_store Hk Ha)
    as (t & Hrun & _ & _ & Hm & _ & _ & Hnan).
  exists t. split; [exact Hrun |]. split.
  - apply Hnan. left. reflexivity.
  - rewrite Hm. reflexivity.
Defined.

(** ** performScan *)

Lemma next_fault_run (w : Store) :
  next_fault w = (Normal (first_fault w), after_request w).
Proof.
  destruct w as [rows logs fs nid clk]. unfold next_fault, first_fault, after_request.
  simpl. destruct fs; reflexivity.
Qed.

Lemma await_scan_update_run (scans : list ScanRow) (scanId : N)
    (change : ScanRow -> ScanRow) (w : Store) :
  await_scan_update scans scanId change w =
  match first_fault w with
  | Succeeds => (Normal (scans_with scanId change scans), after_request w)
  | AnswersError => (Normal scans, after_request w)
  | Rejects => (Throw, after_request w)
  end.
Proof.
  unfold await_scan_update, bind. rewrite next_fault_run.
  destruct (first_fault w); reflexivity.
Qed.

Lemma checkThreatIntelligence_run URL_hostname ilike (vt : VirusTotal)
    (url domain : string) (w : Store) :
  checkThreatIntelligence URL_hostname ilike vt url domain w =
  (Normal (threat_data URL_hostname ilike vt url domain w),
   snd (performMLClassification URL_hostname ilike url domain w)).
Proof.
  unfold threat_data, checkThreatIntelligence, try_catch, bind.
  rewrite performMLClassification_run.
  destruct (key_missing (vt_key vt)); [reflexivity |].
  destruct (vt_answer vt) as [| ok st [data |]]; try reflexivity.
  - destruct ok; cbn [negb]; [reflexivity |].
    destruct (st =? 404); [rewrite submitUrlForAnalysis_run |]; reflexivity.
  - destruct ok; cbn [negb]; [reflexivity |].
    destruct (st =? 404); [rewrite submitUrlForAnalysis_run |]; reflexivity.
Qed.

Lemma performScan_parsed URL_hostname ilike checkSSLCertificate getDomainInfo getIPInfo
    (vt : VirusTotal) (scans : list ScanRow) (scanId : N) (url domain : string) (w : Store) :
  URL_hostname url = Some domain ->
  let ssl := settled_or getDefaultSSL (checkSSLCertificate domain) in
  let domainInfo := settled_or getDefaultDomain (getDomainInfo domain) in
  let ipInfo := settled_or getDefaultIP (getIPInfo domain) in
  let threats := threat_data URL_hostname ilike vt url domain w in
  let s := calculateSafetyScore ssl domainInfo threats url in
  performScan URL_hostname ilike checkSSLCertificate getDomainInfo getIPInfo vt
    scans scanId url w =
  try_catch
    (await_scan_update scans scanId
       (completed_update s (s >=? 70) ssl domainInfo ipInfo threats))
    (await_scan_update scans scanId failed_update)
    (snd (performMLClassification URL_hostname ilike url domain w)).
Proof.
  intros Hurl. cbv zeta. unfold performScan. rewrite Hurl.
  unfold try_catch, bind, settle.
  rewrite checkThreatIntelligence_run. reflexivity.
Qed.

Lemma performMLClassification_script URL_hostname ilike (url domain : string)
    (w : Store) (rest : list Fault) :
  script w = [] /\ rest = [] \/
  script w = Succeeds :: Succeeds :: Succeeds :: Succeeds :: rest ->
  script (snd (performMLClassification URL_hostname ilike url domain w)) = rest.
Proof.
  intros Hs. rewrite performMLClassification_body, classification_body_store.
  match goal with
  | |- script (snd (updateMLPatterns ?d ?f ?p ?s)) = _ => generalize p; intros q
  end.
  destruct w as [rows logs fs nid clk]; simpl in Hs.
  unfold after_request; simpl.
  unfold updateMLPatterns, try_catch, bind, await_select, await_write,
    next_fault, Date_now, ret; simpl.
  destruct Hs as [[-> ->] | ->]; simpl;
    destruct (existing_query domain rows); reflexivity.
Qed.

(** X17: a url the runtime cannot parse is never classified.  performScan
    makes a single store request, the update that marks the scan 'failed':
    when it succeeds the row has status 'failed' and its result columns
    untouched, when it is answered with an error the row stays as it was,
    and when it rejects performScan itself rejects.  The pattern table and
    the log are unchanged in all three cases. *)
Theorem scan_of_unparsable_url URL_hostname ilike checkSSLCertificate getDomainInfo
    getIPInfo (vt : VirusTotal) (scans : list ScanRow) (scanId : N) (url : string)
    (w : Store) :
  URL_hostname url = None ->
  let run := performScan URL_hostname ilike checkSSLCertificate getDomainInfo
               getIPInfo vt scans scanId url w in
  fst run =
    match first_fault w with
    | Succeeds => Normal (scans_with scanId failed_update scans)
    | AnswersError => Normal scans
    | Rejects => Throw
    end /\
  snd run = after_request w /\
  ml_patterns (snd run) = ml_patterns w /\
  blockchain_logs (snd run) = blockchain_logs w /\
  (forall row, In row (scans_with scanId failed_update scans) ->
     scan_id row = scanId -> status row = "failed") /\
  (forall row, In row scans ->
     safety_score (failed_update row) = safety_score row /\
     is_safe (failed_update row) = is_safe row).
Proof.
  intros Hurl run.
  assert (Hrun : run = match first_fault w with
                       | Succeeds => (Normal (scans_with scanId failed_update scans),
                                      after_request w)
                       | AnswersError => (Normal scans, after_request w)
                       | Rejects => (Throw, after_request w)
                       end).
  { unfold run, performScan. rewrite Hurl. unfold try_catch, throw.
    apply await_scan_update_run. }
  rewrite Hrun. split; [destruct (first_fault w); reflexivity |].
  split; [destruct (first_fault w); reflexivity |].
  split; [destruct (first_fault w); reflexivity |].
  split; [destruct (first_fault w); reflexivity |].
  split.
  - intros row Hin Hid. unfold scans_with in Hin. apply in_map_iff in Hin.
    destruct Hin as (r & <- & _).
    destruct (N.eqb (scan_id r) scanId) eqn:E; [reflexivity |].
    apply N.eqb_neq in E. contradiction.
  - intros row _. split; reflexivity.
Qed.

Lemma scan_of_unparsable_url_witness :
  example_URL_hostname "not a url" = None /\
  fst (performScan example_URL_hostname example_ilike no_ssl no_domain no_ip no_vt_key
         [pending_scan] 1 "not a url" empty_store) =
  Normal [failed_update pending_scan].
Proof.
  assert (H : example_URL_hostname "not a url" = None) by reflexivity.
  split; [exact H |].
  destruct (scan_of_unparsable_url example_URL_hostname example_ilike no_ssl no_domain
              no_ip no_vt_key [pending_scan] 1 "not a url" empty_store H) as [Hrun _].
  rewrite Hrun. reflexivity.
Defined.

Lemma first_fault_nil (w : Store) : script w = [] -> first_fault w = Succeeds.
Proof. unfold first_fault. now intros ->. Qed.

Lemma geb_false_below (s : Z) : s < 70 -> (s >=? 70) = false.
Proof. intros H. rewrite Z.geb_leb. apply Z.leb_gt. lia. Qed.

Lemma safety_score_facts (ssl : SSLData) (domain : DomainData)
    (threats : ThreatData) (url : string) :
  0 <= calculateSafetyScore ssl domain threats url <= 100 /\
  (maliciousCount threats > 0 -> calculateSafetyScore ssl domain threats url <= 60) /\
  (isValid ssl = false -> int_lt (ageDays domain) 30 = true ->
   calculateSafetyScore ssl domain threats url <= 55).
Proof.
  split; [| split].
  - safety_cases ssl domain threats url; lia.
  - intros Hm. safety_cases ssl domain threats url; lia.
  - intros Hv Ha. unfold calculateSafetyScore; cbv zeta; rewrite safety_fold.
    pose proof (matched_patterns_range url).
    rewrite Hv, Ha; cbn [negb].
    destruct (Z.gtb_spec (maliciousCount threats) 0),
      (Z.gtb_spec (suspiciousCount threats) 3),
      (Z.gtb_spec (suspiciousCount threats) 1); lia.
Qed.

Lemma threat_data_without_key URL_hostname ilike (vt : VirusTotal)
    (url domain : string) (w : Store) :
  key_missing (vt_key vt) = true ->
  threat_data URL_hostname ilike vt url domain w =
  ml_only (ml_assessment URL_hostname ilike url domain w).
Proof.
  intros Hk. unfold threat_data, checkThreatIntelligence, try_catch, bind.
  rewrite performMLClassification_run, Hk. reflexivity.
Qed.

(** X18: a scan of a parsable url whose store requests all succeed ends
    'completed': the row gets the safety score computed from the settled
    lookups (defaults for the rejected ones) and the threat data, a score
    in [0,100], and is_safe exactly when the score is at least 70; a
    positive malicious count in the threat data makes is_safe false. *)
Theorem scan_completes URL_hostname ilike checkSSLCertificate getDomainInfo
    getIPInfo (vt : VirusTotal) (scans : list ScanRow) (scanId : N)
    (url domain : string) (w : Store) :
  URL_hostname url = Some domain ->
  script w = [] ->
  let ssl := settled_or getDefaultSSL (checkSSLCertificate domain) in
  let domainInfo := settled_or getDefaultDomain (getDomainInfo domain) in
  let ipInfo := settled_or getDefaultIP (getIPInfo domain) in
  let threats := threat_data URL_hostname ilike vt url domain w in
  let s := calculateSafetyScore ssl domainInfo threats url in
  fst (performScan URL_hostname ilike checkSSLCertificate getDomainInfo getIPInfo vt
         scans scanId url w) =
    Normal (scans_with scanId
              (completed_update s (s >=? 70) ssl domainInfo ipInfo threats) scans) /\
  0 <= s <= 100 /\
  ((s >=? 70) = true <-> 70 <= s) /\
  (maliciousCount threats > 0 -> (s >=? 70) = false) /\
  (forall row,
     In row (scans_with scanId
               (completed_update s (s >=? 70) ssl domainInfo ipInfo threats) scans) ->
     scan_id row = scanId ->
     status row = "completed" /\ safety_score row = Some s /\
     is_safe row = Some (s >=? 70)).
Proof.
  intros Hurl Hs ssl domainInfo ipInfo threats s.
  assert (Hscript : script (snd (performMLClassification URL_hostname ilike url domain w)) = []).
  { apply performMLClassification_script. left. now split. }
  split.
  - rewrite (@performScan_parsed URL_hostname ilike checkSSLCertificate getDomainInfo
               getIPInfo vt scans scanId url domain w Hurl).
    fold ssl domainInfo ipInfo threats s.
    unfold try_catch. rewrite await_scan_update_run, (first_fault_nil _ Hscript).
    reflexivity.
  - assert (Hrange : 0 <= s <= 100 /\ (maliciousCount threats > 0 -> s <= 60)).
    { destruct (safety_score_facts ssl domainInfo threats url) as (H1 & H2 & _).
      now split. }
    destruct Hrange as [Hr Hm].
    split; [exact Hr |]. split; [| split].
    + rewrite Z.geb_leb. apply Z.leb_le.
    + intros Hpos. apply geb_false_below. specialize (Hm Hpos). lia.
    + intros row Hin Hid. unfold scans_with in Hin. apply in_map_iff in Hin.
      destruct Hin as (r & <- & _).
      destruct (N.eqb (scan_id r) scanId) eqn:E.
      * repeat split.
      * apply N.eqb_neq in E. contradiction.
Qed.

Lemma scan_completes_witness :
  example_URL_hostname "https://example.com" = Some "example.com" /\
  script empty_store = [] /\
  exists s,
    0 <= s <= 100 /\
    fst (performScan example_URL_hostname example_ilike no_ssl no_domain no_ip no_vt_key
           [pending_scan] 1 "https://example.com" empty_store) =
    Normal [completed_update s (s >=? 70) getDefaultSSL getDefaultDomain getDefaultIP
              (threat_data example_URL_hostname example_ilike no_vt_key
                 "https://example.com" "example.com" empty_store) pending_scan].
Proof.
  assert (Hu : example_URL_hostname "https://example.com" = Some "example.com")
    by reflexivity.
  assert (Hs : script empty_store = []) by reflexivity.
  split; [exact Hu |]. split; [exact Hs |].
  destruct (@scan_completes example_URL_hostname example_ilike no_ssl no_domain no_ip
              no_vt_key [pending_scan] 1%N "https://example.com" "example.com"
              empty_store Hu Hs)
    as (Hrun & Hr & _).
  eexists. split; [exact Hr |]. rewrite Hrun. reflexivity.
Defined.

Lemma scans_with_row (scanId : N) (change : ScanRow -> ScanRow)
    (scans : list ScanRow) (row : ScanRow) :
  In row (scans_with scanId change scans) -> scan_id row = scanId ->
  (forall r, scan_id (change r) = scan_id r) ->
  exists r, In r scans /\ row = change r.
Proof.
  intros Hin Hid Hkey. unfold scans_with in Hin. apply in_map_iff in Hin.
  destruct Hin as (r & Hr & Hin).
  destruct (N.eqb (scan_id r) scanId) eqn:E.
  - exists r. now split.
  - subst row. apply N.eqb_neq in E. contradiction.
Qed.

(** X19: the classifier's verdict decides the scan when no VirusTotal key
    is configured.  If the classifier reports phishing (blended probability
    above 0.5), the malicious count is 1, the safety score is at most 60
    and the completed scan is written with is_safe = false, whatever the
    certificate, domain and address lookups returned. *)
Theorem phishing_verdict_is_never_safe URL_hostname ilike checkSSLCertificate
    getDomainInfo getIPInfo (vt : VirusTotal) (scans : list ScanRow) (scanId : N)
    (url domain : string) (w : Store) :
  URL_hostname url = Some domain ->
  script w = [] ->
  key_missing (vt_key vt) = true ->
  isPhishing (ml_assessment URL_hostname ilike url domain w) = true ->
  exists rows,
    fst (performScan URL_hostname ilike checkSSLCertificate getDomainInfo getIPInfo vt
           scans scanId url w) = Normal rows /\
    forall row, In row rows -> scan_id row = scanId ->
      status row = "completed" /\ is_safe row = Some false /\
      exists s, safety_score row = Some s /\ 0 <= s <= 60.
Proof.
  intros Hurl Hs Hk Hph.
  assert (Hscript : script (snd (performMLClassification URL_hostname ilike url domain w)) = []).
  { apply performMLClassification_script. left. now split. }
  eexists. split.
  - rewrite (@performScan_parsed URL_hostname ilike checkSSLCertificate getDomainInfo
               getIPInfo vt scans scanId url domain w Hurl).
    unfold try_catch. rewrite await_scan_update_run, (first_fault_nil _ Hscript).
    reflexivity.
  - intros row Hin Hid.
    apply scans_with_row in Hin; [| assumption | reflexivity].
    destruct Hin as (r & _ & ->).
    match goal with
    | |- context [completed_update ?s _ ?ssl ?d ?ip ?t r] =>
        destruct (safety_score_facts ssl d t url) as (Hr & Hm & _);
        assert (Hmal : maliciousCount t > 0)
    end.
    { rewrite threat_data_without_key by assumption.
      unfold ml_only; simpl. rewrite Hph. lia. }
    specialize (Hm Hmal). cbn [completed_update status is_safe safety_score].
    split; [reflexivity |]. split.
    + f_equal. apply geb_false_below. lia.
    + eexists. split; [reflexivity | lia].
Qed.

Lemma score_at_least_ip (f : MLFeatures) :
  hasIpAddress f = true -> 25 <= calculateMLThreatScore f.
Proof.
  intros H. rewrite score_unclamped. unfold rule_sum. rewrite H.
  change (pts true 25) with 25.
  pose proof (pts_range (urlLength f >? 75) (k:=15)).
  pose proof (pts_range (urlLength f >? 100) (k:=10)).
  pose proof (pts_range (numHyphens f >? 2) (k:=10)).
  pose proof (pts_range (numDigits f >? 8) (k:=10)).
  pose proof (pts_range (numSpecialChars f >? 5) (k:=15)).
  pose proof (pts_range (hasSuspiciousKeywords f) (k:=20)).
  pose proof (pts_range (num_gt (entropyScore f) 4.5) (k:=15)).
  pose proof (pts_range (subdomainCount f >? 3) (k:=15)).
  pose proof (pts_range (pathDepth f >? 5) (k:=10)).
  lia.
Qed.

(** An IP-looking url on a store that remembers the domain with confidence
    1: the blended probability is at least (0.25 + 1) / 2. *)
Lemma phishing_verdict_is_never_safe_witness :
  example_URL_hostname "https://example.com/1.2.3.4" = Some "example.com" /\
  script remembering_store = [] /\
  key_missing (vt_key no_vt_key) = true /\
  isPhishing (ml_assessment example_URL_hostname example_ilike
                "https://example.com/1.2.3.4" "example.com" remembering_store) = true /\
  exists rows,
    fst (performScan example_URL_hostname example_ilike no_ssl no_domain no_ip no_vt_key
           [pending_scan] 1 "https://example.com/1.2.3.4" remembering_store) = Normal rows /\
    forall row, In row rows -> scan_id row = 1%N -> is_safe row = Some false.
Proof.
  assert (Hu : example_URL_hostname "https://example.com/1.2.3.4" = Some "example.com")
    by reflexivity.
  assert (Hs : script remembering_store = []) by reflexivity.
  assert (Hk : key_missing (vt_key no_vt_key) = true) by reflexivity.
  assert (Hp : isPhishing (ml_assessment example_URL_hostname example_ilike
                             "https://example.com/1.2.3.4" "example.com"
                             remembering_store) = true).
  { unfold ml_assessment.
    change (historical example_ilike "example.com" remembering_store)
      with (Some remembered_row).
    unfold blend. cbn [isPhishing confidence_score remembered_row].
    apply num_gt_true.
    assert (H25 : 25 <= calculateMLThreatScore
                          (extractMLFeatures example_URL_hostname
                             "https://example.com/1.2.3.4"))
      by (apply score_at_least_ip; reflexivity).
    apply IZR_le in H25. lra. }
  split; [exact Hu |]. split; [exact Hs |]. split; [exact Hk |]. split; [exact Hp |].
  destruct (@phishing_verdict_is_never_safe example_URL_hostname example_ilike
              no_ssl no_domain no_ip no_vt_key [pending_scan] 1%N
              "https://example.com/1.2.3.4" "example.com" remembering_store
              Hu Hs Hk Hp) as (rows & Hrun & Hrows).
  exists rows. split; [exact Hrun |].
  intros row Hin Hid. destruct (Hrows row Hin Hid) as (_ & Hsafe & _). exact Hsafe.
Defined.

(** X20: a scan without certificate and registration data is never marked
    safe.  When the certificate and the domain lookups both yield their
    defaults (they rejected, or fell back themselves), the completed scan
    has a safety score of at most 55, is_safe = false and ssl_valid =
    false, whatever the url and the threat data. *)
Theorem scan_without_lookups_is_never_safe URL_hostname ilike checkSSLCertificate
    getDomainInfo getIPInfo (vt : VirusTotal) (scans : list ScanRow) (scanId : N)
    (url domain : string) (w : Store) :
  URL_hostname url = Some domain ->
  script w = [] ->
  settled_or getDefaultSSL (checkSSLCertificate domain) = getDefaultSSL ->
  settled_or getDefaultDomain (getDomainInfo domain) = getDefaultDomain ->
  exists rows,
    fst (performScan URL_hostname ilike checkSSLCertificate getDomainInfo getIPInfo vt
           scans scanId url w) = Normal rows /\
    forall row, In row rows -> scan_id row = scanId ->
      status row = "completed" /\ is_safe row = Some false /\
      ssl_valid row = Some false /\
      exists s, safety_score row = Some s /\ 0 <= s <= 55.
Proof.
  intros Hurl Hs Hssl Hdom.
  assert (Hscript : script (snd (performMLClassification URL_hostname ilike url domain w)) = []).
  { apply performMLClassification_script. left. now split. }
  eexists. split.
  - rewrite (@performScan_parsed URL_hostname ilike checkSSLCertificate getDomainInfo
               getIPInfo vt scans scanId url domain w Hurl).
    unfold try_catch. rewrite await_scan_update_run, (first_fault_nil _ Hscript).
    reflexivity.
  - intros row Hin Hid.
    apply scans_with_row in Hin; [| assumption | reflexivity].
    destruct Hin as (r & _ & ->).
    rewrite Hssl, Hdom.
    match goal with
    | |- context [completed_update ?s _ getDefaultSSL getDefaultDomain ?ip ?t r] =>
        destruct (safety_score_facts getDefaultSSL getDefaultDomain t url)
          as (Hr & _ & Hd)
    end.
    specialize (Hd eq_refl eq_refl).
    cbn [completed_update status is_safe safety_score ssl_valid].
    split; [reflexivity |]. split; [| split].
    + f_equal. apply geb_false_below. lia.
    + reflexivity.
    + eexists. split; [reflexivity | lia].
Qed.

Lemma scan_without_lookups_is_never_safe_witness :
  example_URL_hostname "https://example.com" = Some "example.com" /\
  script empty_store = [] /\
  settled_or getDefaultSSL (no_ssl "example.com") = getDefaultSSL /\
  settled_or getDefaultDomain (no_domain "example.com") = getDefaultDomain /\
  exists rows,
    fst (performScan example_URL_hostname example_ilike no_ssl no_domain no_ip no_vt_key
           [pending_scan] 1 "https://example.com" empty_store) = Normal rows /\
    forall row, In row rows -> scan_id row = 1%N -> is_safe row = Some false.
Proof.
  assert (Hu : example_URL_hostname "https://example.com" = Some "example.com")
    by reflexivity.
  assert (Hs : script empty_store = []) by reflexivity.
  assert (H1 : settled_or getDefaultSSL (no_ssl "example.com") = getDefaultSSL)
    by reflexivity.
  assert (H2 : settled_or getDefaultDomain (no_domain "example.com") = getDefaultDomain)
    by reflexivity.
  split; [exact Hu |]. split; [exact Hs |]. split; [exact H1 |]. split; [exact H2 |].
  destruct (@scan_without_lookups_is_never_safe example_URL_hostname example_ilike
              no_ssl no_domain no_ip no_vt_key [pending_scan] 1%N
              "https://example.com" "example.com" empty_store Hu Hs H1 H2)
    as (rows & Hrun & Hrows).
  exists rows. split; [exact Hrun |].
  intros row Hin Hid. destruct (Hrows row Hin Hid) as (_ & Hsafe & _). exact Hsafe.
Defined.

(** X21: the fate of the final update decides what the user sees.  After a
    classification whose four store requests succeeded (so the pattern is
    learned), a final update answered with an error leaves the scan row as
    it was (still 'pending'); a rejected one makes performScan mark the
    scan 'failed', unless that request is answered with an error (row
    unchanged) or rejects as well, in which case performScan itself
    rejects. *)
Theorem scan_final_update_fate URL_hostname ilike checkSSLCertificate
    getDomainInfo getIPInfo (vt : VirusTotal) (scans : list ScanRow) (scanId : N)
    (url domain : string) (w : Store) (final : Fault) (rest : list Fault) :
  URL_hostname url = Some domain ->
  script w = Succeeds :: Succeeds :: Succeeds :: Succeeds :: final :: rest ->
  final <> Succeeds ->
  fst (performScan URL_hostname ilike checkSSLCertificate getDomainInfo getIPInfo vt
         scans scanId url w) =
    match final, hd Succeeds rest with
    | AnswersError, _ => Normal scans
    | _, Succeeds => Normal (scans_with scanId failed_update scans)
    | _, AnswersError => Normal scans
    | _, Rejects => Throw
    end /\
  rows_for domain
    (snd (performScan URL_hostname ilike checkSSLCertificate getDomainInfo getIPInfo vt
            scans scanId url w)) <> [].
Proof.
  intros Hurl Hs Hfinal.
  assert (Hscript : script (snd (performMLClassification URL_hostname ilike url domain w)) =
                    final :: rest).
  { apply performMLClassification_script. now right. }
  set (w1 := snd (performMLClassification URL_hostname ilike url domain w)) in *.
  assert (Hf1 : first_fault w1 = final) by (unfold first_fault; now rewrite Hscript).
  assert (Hf2 : first_fault (after_request w1) = hd Succeeds rest).
  { unfold first_fault, after_request; simpl. now rewrite Hscript. }
  assert (Hrun : performScan URL_hostname ilike checkSSLCertificate getDomainInfo
                   getIPInfo vt scans scanId url w =
                 match final, hd Succeeds rest with
                 | AnswersError, _ => (Normal scans, after_request w1)
                 | _, Succeeds => (Normal (scans_with scanId failed_update scans),
                                   after_request (after_request w1))
                 | _, AnswersError => (Normal scans, after_request (after_request w1))
                 | _, Rejects => (Throw, after_request (after_request w1))
                 end).
  { rewrite (@performScan_parsed URL_hostname ilike checkSSLCertificate getDomainInfo
               getIPInfo vt scans scanId url domain w Hurl).
    fold w1. unfold try_catch. rewrite await_scan_update_run, Hf1.
    destruct final; [congruence | reflexivity |].
    rewrite await_scan_update_run, Hf2. destruct (hd Succeeds rest); reflexivity. }
  split.
  - rewrite Hrun. destruct final; [congruence | reflexivity |].
    destruct (hd Succeeds rest); reflexivity.
  - assert (Hrows : rows_for domain w1 <> []).
    { unfold w1. rewrite performMLClassification_body, classification_body_store.
      match goal with
      | |- rows_for domain (snd (updateMLPatterns ?d ?f ?p ?s)) <> [] =>
          generalize p; intros q
      end.
      destruct w as [rows logs fs nid clk]; simpl in Hs. subst fs.
      unfold after_request; simpl.
      unfold updateMLPatterns, try_catch, bind, await_select, await_write,
        next_fault, Date_now, ret; simpl.
      destruct (existing_query domain rows) as [r |] eqn:E; simpl.
      - unfold existing_query in E. apply maybeSingle_Some in E.
        unfold rows_for, db_update, set_patterns; simpl.
        assert (Hr : In r (filter (fun x => string_eqb (url_pattern x) domain) rows))
          by (rewrite E; now left).
        apply filter_In in Hr. destruct Hr as [Hin Hd].
        intros Hnil.
        assert (Hin' : In (if N.eqb (id r) (id r)
                           then {| id := id r; url_pattern := url_pattern r;
                                   pattern_type := pattern_type r;
                                   confidence_score := (confidence_score r + q) / 2;
                                   detection_count := detection_count r + 1;
                                   last_detected := clk;
                                   features := extractMLFeatures URL_hostname url |}
                           else r)
                          (filter (fun x => string_eqb (url_pattern x) domain)
                             (map (fun x => if N.eqb (id x) (id r)
                                   then {| id := id x; url_pattern := url_pattern x;
                                           pattern_type := pattern_type x;
                                           confidence_score := (confidence_score r + q) / 2;
                                           detection_count := detection_count r + 1;
                                           last_detected := clk;
                                           features := extractMLFeatures URL_hostname url |}
                                   else x) rows))).
        { apply filter_In. split.
          - apply in_map_iff. exists r. split; [reflexivity | exact Hin].
          - destruct (N.eqb (id r) (id r)); simpl; exact Hd. }
        rewrite Hnil in Hin'. destruct Hin'.
      - unfold rows_for, db_insert; simpl. rewrite filter_app. simpl.
        unfold string_eqb. rewrite String.eqb_refl.
        intros Hnil. apply app_eq_nil in Hnil. destruct Hnil as [_ Hnil]. discriminate. }
    rewrite Hrun.
    assert (Ha : forall s, rows_for domain (after_request s) = rows_for domain s)
      by reflexivity.
    destruct final; [congruence | cbn [snd]; now rewrite Ha |].
    destruct (hd Succeeds rest); cbn [snd]; now rewrite !Ha.
Qed.

Lemma scan_final_update_fate_witness :
  let w := with_script [Succeeds; Succeeds; Succeeds; Succeeds; AnswersError] empty_store in
  example_URL_hostname "https://example.com" = Some "example.com" /\
  script w = Succeeds :: Succeeds :: Succeeds :: Succeeds :: AnswersError :: [] /\
  AnswersError <> Succeeds /\
  fst (performScan example_URL_hostname example_ilike no_ssl no_domain no_ip no_vt_key
         [pending_scan] 1 "https://example.com" w) = Normal [pending_scan].
Proof.
  intros w.
  assert (Hu : example_URL_hostname "https://example.com" = Some "example.com")
    by reflexivity.
  assert (Hs : script w = Succeeds :: Succeeds :: Succeeds :: Succeeds :: AnswersError :: [])
    by reflexivity.
  assert (Hf : AnswersError <> Succeeds) by discriminate.
  split; [exact Hu |]. split; [exact Hs |]. split; [exact Hf |].
  destruct (@scan_final_update_fate example_URL_hostname example_ilike no_ssl no_domain
              no_ip no_vt_key [pending_scan] 1%N "https://example.com" "example.com"
              w AnswersError [] Hu Hs Hf) as [Hrun _].
  exact Hrun.
Defined.

(** * The client side *)

Lemma rule_sum_with_keywords (b : bool) (f : MLFeatures) :
  rule_sum (with_keywords b f) + pts (hasSuspiciousKeywords f) 20 =
  rule_sum f + pts b 20.
Proof. unfold rule_sum; simpl. lia. Qed.

(** X22: the browser's classifier and the edge function's agree up to the
    keyword list.  The two scorers are the same function; on the same url
    the two extractors return the same features except the keyword flag,
    which the browser sets whenever the edge function does (its list adds
    "click", "winner", "prize", "free", "security"); so the browser's score
    is the edge function's or up to 20 points more. *)
Theorem classifiers_agree URL_hostname (url : string) :
  let edge := extractMLFeatures URL_hostname url in
  let browser := MLURLClassifier.extractFeatures URL_hostname url in
  (forall f, MLURLClassifier.calculateThreatScore f = calculateMLThreatScore f) /\
  browser = with_keywords (hasSuspiciousKeywords browser) edge /\
  (hasSuspiciousKeywords edge = true -> hasSuspiciousKeywords browser = true) /\
  calculateMLThreatScore edge <= MLURLClassifier.calculateThreatScore browser /\
  MLURLClassifier.calculateThreatScore browser <= calculateMLThreatScore edge + 20.
Proof.
  intros edge browser.
  assert (Hshape : browser = with_keywords (hasSuspiciousKeywords browser) edge)
    by reflexivity.
  assert (Himp : hasSuspiciousKeywords edge = true -> hasSuspiciousKeywords browser = true).
  { change (hasSuspiciousKeywords edge)
      with (existsb (fun k => includes (toLowerCase url) k) suspiciousKeywords).
    change (hasSuspiciousKeywords browser)
      with (existsb (fun k => includes (toLowerCase url) k)
              MLURLClassifier.SUSPICIOUS_KEYWORDS).
    rewrite !existsb_exists. intros (k & Hin & Hk). exists k. split; [| assumption].
    unfold suspiciousKeywords in Hin. unfold MLURLClassifier.SUSPICIOUS_KEYWORDS.
    simpl in *. intuition. }
  split; [reflexivity |]. split; [exact Hshape |]. split; [exact Himp |].
  change (MLURLClassifier.calculateThreatScore browser)
    with (calculateMLThreatScore browser).
  rewrite Hshape, !score_unclamped.
  pose proof (rule_sum_with_keywords (hasSuspiciousKeywords browser) edge) as Hsum.
  pose proof (pts_range (hasSuspiciousKeywords browser) (k:=20)) as H1.
  pose proof (pts_range (hasSuspiciousKeywords edge) (k:=20)) as H2.
  assert (Hle : pts (hasSuspiciousKeywords edge) 20 <= pts (hasSuspiciousKeywords browser) 20).
  { destruct (hasSuspiciousKeywords edge) eqn:E.
    - rewrite (Himp eq_refl). lia.
    - unfold pts at 1. lia. }
  lia.
Qed.

Lemma classifiers_agree_witness :
  hasSuspiciousKeywords (extractMLFeatures example_URL_hostname "1.2.3.4 a.b.c/login") = true /\
  hasSuspiciousKeywords
    (MLURLClassifier.extractFeatures example_URL_hostname "1.2.3.4 a.b.c/login") = true.
Proof.
  assert (H : hasSuspiciousKeywords
                (extractMLFeatures example_URL_hostname "1.2.3.4 a.b.c/login") = true)
    by reflexivity.
  split; [exact H |].
  destruct (classifiers_agree example_URL_hostname "1.2.3.4 a.b.c/login")
    as (_ & _ & Himp & _).
  apply (Himp H).
Defined.

(** X23: in the browser an unparsable url never reaches the store.  When
    the runtime cannot parse the (prefixed) url, classifyURL makes no store
    request at all, neither lookup nor upsert, so the store is exactly as
    before, and it returns the raw probability with confidence 0.75 and the
    scorer's categories. *)
Theorem classifyURL_unparsable URL_hostname ilike (url : string) (w : Store) :
  MLURLClassifier.parse_domain URL_hostname url = None ->
  let feat := MLURLClassifier.extractFeatures URL_hostname url in
  let p := (IZR (MLURLClassifier.calculateThreatScore feat) / 100)%R in
  MLURLClassifier.classifyURL URL_hostname ilike url w =
  (Normal {| MLURLClassifier.isPhishing := num_gt p 0.5;
             MLURLClassifier.confidence := 0.75%R;
             MLURLClassifier.threatProbability := p;
             MLURLClassifier.predictedCategories := initialCategories feat;
             MLURLClassifier.model := "ensemble" |},
   w).
Proof.
  intros Hparse feat p.
  unfold MLURLClassifier.classifyURL, bind, MLURLClassifier.checkHistoricalPatterns,
    MLURLClassifier.updateMLPatterns, try_catch.
  rewrite Hparse. reflexivity.
Qed.

Lemma classifyURL_unparsable_witness :
  MLURLClassifier.parse_domain example_URL_hostname "1.2.3.4 a.b.c" = None /\
  snd (MLURLClassifier.classifyURL example_URL_hostname example_ilike "1.2.3.4 a.b.c"
         first_scan_store) = first_scan_store.
Proof.
  assert (H : MLURLClassifier.parse_domain example_URL_hostname "1.2.3.4 a.b.c" = None)
    by reflexivity.
  split; [exact H |].
  rewrite (@classifyURL_unparsable example_URL_hostname example_ilike "1.2.3.4 a.b.c"
             first_scan_store H).
  reflexivity.
Defined.

Lemma startsWith_append (p rest : string) : startsWith (p ++ rest) p = true.
Proof. apply startsWith_spec. now exists rest. Qed.

Lemma normalized_shape (url : string) :
  exists rest,
    URLScannerService.normalizeUrl url = ("http://" ++ rest)%string \/
    URLScannerService.normalizeUrl url = ("https://" ++ rest)%string.
Proof.
  unfold URLScannerService.normalizeUrl.
  destruct (startsWith url "http://") eqn:E1; cbn [negb andb].
  - apply startsWith_spec in E1. destruct E1 as (rest & ->). exists rest. now left.
  - destruct (startsWith url "https://") eqn:E2; cbn [negb].
    + apply startsWith_spec in E2. destruct E2 as (rest & ->). exists rest. now right.
    + exists url. now right.
Qed.

(** X24: normalizeUrl is idempotent and its result starts with "http://"
    or "https://".  On a normalized url the extractor therefore parses the
    url itself, without prefixing: its host is the hostname performScan
    computes as the domain when the url parses, and "http:" or "https:"
    when it does not, in which case subdomainCount is 0. *)
Theorem normalized_url_host URL_hostname (url : string) :
  let n := URLScannerService.normalizeUrl url in
  URLScannerService.normalizeUrl n = n /\
  (startsWith n "http://" = true \/ startsWith n "https://" = true) /\
  startsWith n "http" = true /\
  (forall domain, URL_hostname n = Some domain -> hostname_of URL_hostname n = domain) /\
  (URL_hostname n = None ->
   (hostname_of URL_hostname n = "http:" \/ hostname_of URL_hostname n = "https:") /\
   subdomainCount (extractMLFeatures URL_hostname n) = 0).
Proof.
  intros n. destruct (normalized_shape url) as (rest & Hn). fold n in Hn.
  assert (Hstart : startsWith n "http://" = true \/ startsWith n "https://" = true).
  { destruct Hn as [-> | ->]; [left | right]; apply startsWith_append. }
  assert (Hhttp : startsWith n "http" = true).
  { destruct Hn as [-> | ->]; apply startsWith_spec;
      [exists ("://" ++ rest)%string | exists ("s://" ++ rest)%string]; reflexivity. }
  split.
  - unfold URLScannerService.normalizeUrl at 1.
    destruct Hstart as [-> | ->]; cbn [negb andb]; [reflexivity |].
    now rewrite andb_false_r.
  - split; [exact Hstart |]. split; [exact Hhttp |]. split.
    + intros domain Hd. unfold hostname_of. now rewrite Hhttp, Hd.
    + intros Hnone.
      assert (Hhost : hostname_of URL_hostname n = "http:" \/
                      hostname_of URL_hostname n = "https:").
      { unfold hostname_of. rewrite Hhttp, Hnone.
        destruct Hn as [-> | ->]; [left | right]; simpl;
          destruct (split "/" rest); reflexivity. }
      split; [exact Hhost |].
      change (subdomainCount (extractMLFeatures URL_hostname n))
        with (Z.max 0 (Z.of_nat (List.length (split "." (hostname_of URL_hostname n))) - 2)).
      destruct Hhost as [-> | ->]; reflexivity.
Qed.

Lemma normalized_url_host_witness :
  example_URL_hostname (URLScannerService.normalizeUrl "1.2.3.4 a.b.c") = None /\
  subdomainCount
    (extractMLFeatures example_URL_hostname
       (URLScannerService.normalizeUrl "1.2.3.4 a.b.c")) = 0.
Proof.
  assert (H : example_URL_hostname (URLScannerService.normalizeUrl "1.2.3.4 a.b.c") = None)
    by reflexivity.
  split; [exact H |].
  destruct (normalized_url_host example_URL_hostname "1.2.3.4 a.b.c")
    as (_ & _ & _ & _ & Hfail).
  apply (Hfail H).
Defined.

(** X25: the level shown and the backend's is_safe use different
    thresholds.  getSafetyLevel says "Safe" from 80, "Moderate Risk" from
    50 to 79 and "High Risk" below 50, while is_safe is score >= 70: "Safe"
    implies is_safe and "High Risk" excludes it, but a scan with a score
    from 70 to 79 is is_safe and shown as "Moderate Risk". *)
Theorem safety_level_and_is_safe (score : Z) :
  let l := URLScannerService.level (URLScannerService.getSafetyLevel score) in
  (l = "Safe" <-> 80 <= score) /\
  (l = "Moderate Risk" <-> 50 <= score < 80) /\
  (l = "High Risk" <-> score < 50) /\
  (l = "Safe" -> (score >=? 70) = true) /\
  (l = "High Risk" -> (score >=? 70) = false) /\
  (70 <= score < 80 -> (score >=? 70) = true /\ l = "Moderate Risk").
Proof.
  cbv zeta. unfold URLScannerService.getSafetyLevel.
  rewrite !Z.geb_leb.
  destruct (Z.leb_spec 80 score); [| destruct (Z.leb_spec 50 score)]; simpl;
    destruct (Z.leb_spec 70 score);
    repeat split; intros; try reflexivity; try discriminate; try lia.
Qed.

Lemma safety_level_and_is_safe_witness :
  70 <= 75 < 80 /\
  URLScannerService.level (URLScannerService.getSafetyLevel 75) = "Moderate Risk" /\
  (75 >=? 70) = true.
Proof.
  assert (H : 70 <= 75 < 80) by lia.
  split; [exact H |].
  destruct (safety_level_and_is_safe 75) as (_ & _ & _ & _ & _ & Hmid).
  destruct (Hmid H) as [Hsafe Hlevel]. split; assumption.
Defined.

(** X26: validateOrigin is a prefix test.  It accepts exactly the non-empty
    origins that start with the page's origin or one of the two localhost
    origins, so an allowed origin followed by anything, such as
    "http://localhost:3000.evil.example", is accepted; a missing or empty
    origin is refused. *)
Theorem validateOrigin_is_prefix_test (location_origin : string) :
  ZeroTrustValidator.validateOrigin location_origin None = false /\
  ZeroTrustValidator.validateOrigin location_origin (Some EmptyString) = false /\
  (forall origin,
     ZeroTrustValidator.validateOrigin location_origin (Some origin) = true <->
     origin <> EmptyString /\
     exists allowed rest,
       In allowed [location_origin; "http://localhost:5173"; "http://localhost:3000"] /\
       origin = (allowed ++ rest)%string) /\
  (forall suffix,
     ZeroTrustValidator.validateOrigin location_origin
       (Some ("http://localhost:3000" ++ suffix)%string) = true /\
     ZeroTrustValidator.validateOrigin location_origin
       (Some ("http://localhost:5173" ++ suffix)%string) = true).
Proof.
  assert (Hspec : forall origin,
     ZeroTrustValidator.validateOrigin location_origin (Some origin) = true <->
     origin <> EmptyString /\
     exists allowed rest,
       In allowed [location_origin; "http://localhost:5173"; "http://localhost:3000"] /\
       origin = (allowed ++ rest)%string).
  { intros origin. unfold ZeroTrustValidator.validateOrigin. cbv zeta.
    destruct (String.eqb_spec origin EmptyString) as [-> | Hne].
    - split; [discriminate | intros [H _]; congruence].
    - rewrite existsb_exists. split.
      + intros (allowed & Hin & Hst). split; [assumption |].
        apply startsWith_spec in Hst. destruct Hst as (rest & ->).
        now exists allowed, rest.
      + intros (_ & allowed & rest & Hin & ->). exists allowed.
        split; [assumption | apply startsWith_append]. }
  split; [reflexivity |]. split; [reflexivity |]. split; [exact Hspec |].
  intros suffix. split; apply Hspec; (split; [discriminate |]).
  - exists "http://localhost:3000", suffix. split; [simpl; tauto | reflexivity].
  - exists "http://localhost:5173", suffix. split; [simpl; tauto | reflexivity].
Qed.
